(** * Layout engine of the Solana memory viewer

    A shallow embedding of [src/components/memory-viewer.tsx] (the
    multi-account viewer component) and the properties of its layout
    engine: region expansion, offsets, row count, displayed byte values,
    cell colours, little-endian encoding and the parameter handlers;
    then of the legend, the clicks and the rows of the grid, of the
    change handler of the text input component, and of the single-account
    viewer, which is compared with the multi-account one.

    Conventions of the embedding.
    - A JavaScript [number] that holds an integer is a [Z]; [NaN] is the
      [None] of an [option Z].  The rounding of integers above 2^53 to the
      nearest double is not modelled: every integer is taken as exact.
    - A JavaScript string is a [string]; its characters are the code units
      below 256.
    - [undefined] (an array hole or an out-of-range read) is the [None] of
      an [option].
    - The React state of the component is the record [State]; every
      [useMemo]/[useCallback] value is a function of the state. *)

From Stdlib Require Import ZArith List String Ascii Bool Lia.
Import ListNotations.

Open Scope string_scope.
Open Scope list_scope.
Open Scope Z_scope.

(** ** The JavaScript primitives the component calls *)

Module JS.

(** The digit characters of [Number.prototype.toString(radix)]:
    0-9 then a-z. *)
Definition digit_char (d : Z) : ascii :=
  if d <? 10 then ascii_of_N (Z.to_N (48 + d)) else ascii_of_N (Z.to_N (87 + d)).

Fixpoint digits_of (radix : Z) (fuel : nat) (n : Z) : string :=
  match fuel with
  | O => EmptyString
  | S f =>
      if n <? radix then String (digit_char n) EmptyString
      else (digits_of radix f (n / radix)
            ++ String (digit_char (n mod radix)) EmptyString)%string
  end.

(** A number of at most [Z.log2 n + 1] bits has at most that many digits. *)
Definition digits (radix : Z) (n : Z) : string :=
  digits_of radix (S (Z.to_nat (Z.log2 n))) n.

(** [n.toString(radix)] for an integer [n] (radix 10 is also what a
    template literal prints; JavaScript switches to exponent notation from
    1e21 on, which no value of the component reaches in a region name). *)
Definition toString (radix : Z) (n : Z) : string :=
  if n <? 0 then String "-" (digits radix (- n)) else digits radix n.

Fixpoint repeat_char (c : ascii) (k : nat) : string :=
  match k with
  | O => EmptyString
  | S k' => String c (repeat_char c k')
  end.

(** [s.padStart(len, c)] for a one-character filler. *)
Definition padStart (len : nat) (c : ascii) (s : string) : string :=
  (repeat_char c (len - String.length s) ++ s)%string.

(** The value of a digit character, for [parseInt]. *)
Definition digit_value (c : ascii) : option Z :=
  let n := Z.of_N (N_of_ascii c) in
  if (48 <=? n) && (n <=? 57) then Some (n - 48)
  else if (97 <=? n) && (n <=? 122) then Some (n - 87)
  else if (65 <=? n) && (n <=? 90) then Some (n - 55)
  else None.

(** The longest prefix of radix-[radix] digits, read left to right;
    [acc] is [None] as long as no digit has been read. *)
Fixpoint parse_digits (radix : Z) (s : string) (acc : option Z) : option Z :=
  match s with
  | EmptyString => acc
  | String c rest =>
      match digit_value c with
      | Some d =>
          if d <? radix
          then parse_digits radix rest
                 (Some (match acc with Some a => a * radix + d | None => d end))
          else acc
      | None => acc
      end
  end.

(** White space that [parseInt] skips: TAB, LF, VT, FF, CR, SP, NBSP. *)
Definition isWhiteSpace (c : ascii) : bool :=
  let n := Z.of_N (N_of_ascii c) in
  ((9 <=? n) && (n <=? 13)) || (n =? 32) || (n =? 160).

Fixpoint trimStart (s : string) : string :=
  match s with
  | EmptyString => EmptyString
  | String c rest => if isWhiteSpace c then trimStart rest else s
  end.

Definition is_x (c : ascii) : bool :=
  Ascii.eqb c "x"%char || Ascii.eqb c "X"%char.

(** The steps of [parseInt] after the sign has been read off: the radix
    check, the optional [0x] prefix, and the digits.  [radix = 0] stands
    for an omitted radix; the result is [None] for [NaN]. *)
Definition parseUnsigned (sign : Z) (s1 : string) (radix : Z) : option Z :=
  if negb (radix =? 0) && ((radix <? 2) || (36 <? radix)) then None
  else
    let stripPrefix := (radix =? 0) || (radix =? 16) in
    let r0 := if radix =? 0 then 10 else radix in
    let '(r, s2) :=
      match s1 with
      | String c0 (String c1 rest) =>
          if stripPrefix && Ascii.eqb c0 "0"%char && is_x c1 then (16, rest)
          else (r0, s1)
      | _ => (r0, s1)
      end in
    match parse_digits r s2 None with
    | Some m => Some (sign * m)
    | None => None
    end.

(** [parseInt(s, radix)]. *)
Definition parseInt (s : string) (radix : Z) : option Z :=
  let s0 := trimStart s in
  match s0 with
  | String c rest =>
      if Ascii.eqb c "-"%char then parseUnsigned (-1) rest radix
      else if Ascii.eqb c "+"%char then parseUnsigned 1 rest radix
      else parseUnsigned 1 s0 radix
  | EmptyString => parseUnsigned 1 s0 radix
  end.

(** [hay.includes(needle)]. *)
Fixpoint includes (needle hay : string) : bool :=
  String.prefix needle hay ||
  match hay with
  | EmptyString => false
  | String _ rest => includes needle rest
  end.

(** [s.split(sep)] for a one-character separator. *)
Fixpoint split (sep : ascii) (s : string) : list string :=
  match s with
  | EmptyString => [EmptyString]
  | String c rest =>
      if Ascii.eqb c sep then EmptyString :: split sep rest
      else match split sep rest with
           | h :: t => String c h :: t
           | [] => [String c EmptyString]
           end
  end.

(** [Math.ceil(a / b)] for integers [a] and [b > 0]. *)
Definition ceil_div (a b : Z) : Z := - ((- a) / b).

(** [a % b]: the remainder has the sign of the dividend. *)
Definition rem (a b : Z) : Z := Z.rem a b.

(** The eight bytes of [new BigUint64Array([BigInt(v)])] in little-endian
    order (what [new Uint8Array(buffer)] reads on a little-endian host, and
    what [DataView.setBigUint64(0, v, true)] writes): the value is
    reduced modulo 2^64. *)
Definition byte_at (v : Z) (i : nat) : Z :=
  Z.land (Z.shiftr (v mod 2 ^ 64) (8 * Z.of_nat i)) 255.

Definition littleEndianBytes (v : Z) : list Z :=
  map (byte_at v) (seq 0 8).

(** [parts.join(sep)]. *)
Fixpoint join (sep : string) (parts : list string) : string :=
  match parts with
  | [] => EmptyString
  | [p] => p
  | p :: rest => (p ++ sep ++ join sep rest)%string
  end.

(** [s.startsWith(p)]. *)
Definition startsWith (p s : string) : bool := String.prefix p s.

Fixpoint drop (k : nat) (s : string) : string :=
  match k, s with
  | O, _ => s
  | S k', String _ rest => drop k' rest
  | S _, EmptyString => EmptyString
  end.

Fixpoint take (k : nat) (s : string) : string :=
  match k, s with
  | O, _ => EmptyString
  | S k', String c rest => String c (take k' rest)
  | S _, EmptyString => EmptyString
  end.

(** [s.replace(needle, repl)] for a string needle and a replacement
    without [$] patterns: the first occurrence only. *)
Fixpoint replace (needle repl s : string) : string :=
  if String.prefix needle s
  then (repl ++ drop (String.length needle) s)%string
  else match s with
       | EmptyString => EmptyString
       | String c rest => String c (replace needle repl rest)
       end.

(** [s.toUpperCase()] on characters below 128: a-z become A-Z. *)
Definition upper_char (c : ascii) : ascii :=
  let n := Z.of_N (N_of_ascii c) in
  if (97 <=? n) && (n <=? 122) then ascii_of_N (Z.to_N (n - 32)) else c.

Fixpoint toUpperCase (s : string) : string :=
  match s with
  | EmptyString => EmptyString
  | String c rest => String (upper_char c) (toUpperCase rest)
  end.

(** [s.slice(0, e)] for an integer [e]: a negative [e] counts from the
    end. *)
Definition sliceTo (s : string) (e : Z) : string :=
  if e <? 0 then take (Z.to_nat (Z.of_nat (String.length s) + e)) s
  else take (Z.to_nat e) s.

End JS.

(** ** The region catalog *)

Record MemorySection := {
  section_start : Z;
  section_end : Z;
  section_name : string
}.

Record SubRegion := {
  sub_name : string;
  sub_size : Z;
  sub_color : string
}.

(** [isDynamic] is an optional field of the source type. *)
Record Region := {
  name : string;
  size : Z;
  color : string;
  subRegions : list SubRegion;
  isDynamic : option bool;
  isPadding : bool
}.

Definition MEMORY_SECTIONS : list MemorySection :=
  [ {| section_start := 0x100000000; section_end := 0x1FFFFFFFF;
       section_name := "Program code" |};
    {| section_start := 0x200000000; section_end := 0x2FFFFFFFF;
       section_name := "Stack data" |};
    {| section_start := 0x300000000; section_end := 0x3FFFFFFFF;
       section_name := "Heap data" |};
    {| section_start := 0x400000000; section_end := 0x4FFFFFFFF;
       section_name := "Program input parameters" |} ].

Definition mkRegion (n : string) (sz : Z) (c : string) (dyn : option bool)
    (pad : bool) (subs : list SubRegion) : Region :=
  {| name := n; size := sz; color := c; subRegions := subs;
     isDynamic := dyn; isPadding := pad |}.

Definition mkSub (n : string) (sz : Z) (c : string) : SubRegion :=
  {| sub_name := n; sub_size := sz; sub_color := c |}.

Definition PROGRAM_REGIONS : list Region :=
  [ mkRegion "Number of accounts" 8 "bg-blue-400" None false [];
    mkRegion "Instruction data size" 8 "bg-cyan-400" None false [];
    mkRegion "Instruction data" 32 "bg-lime-400" (Some true) false [];
    mkRegion "Program ID" 32 "bg-amber-400" None false [] ].

Definition ACCOUNT_REGIONS : list Region :=
  [ mkRegion "Account Flags" 4 "bg-green-400" None false
      [ mkSub "Is Duplicate" 1 "bg-green-300";
        mkSub "Is Signer" 1 "bg-green-400";
        mkSub "Is Writable" 1 "bg-green-500";
        mkSub "Is Executable" 1 "bg-green-600" ];
    mkRegion "Padding 1" 4 "bg-gray-400" None true [];
    mkRegion "Public keys" 64 "bg-purple-400" None false
      [ mkSub "Account Pub Key" 32 "bg-indigo-400";
        mkSub "Account Owner Pub Key" 32 "bg-violet-400" ];
    mkRegion "Lamports" 8 "bg-red-400" None false [];
    mkRegion "Account data size" 8 "bg-indigo-400" None false [];
    mkRegion "Account data" 32 "bg-pink-400" (Some true) false [];
    mkRegion "Realloc padding" 10240 "bg-gray-500" None true [];
    mkRegion "Rent epoch" 8 "bg-teal-400" None false [] ].

Definition COLS : Z := 16.
Definition BYTES_PER_ROW : Z := 16.
Definition MIN_ROWS : Z := 16.

(** ** The state of the component

    [accountDataSizes] is a JavaScript array of numbers: an entry is
    [None] where the array has a hole. *)

Record State := {
  selectedSection : MemorySection;
  focusedRegion : option string;
  accountDataSizes : list (option Z);
  instructionDataSize : Z;
  numberOfAccounts : Z;
  selectedView : string
}.

(** The [useState] initial values. *)
Definition initialState : State :=
  {| selectedSection :=
       {| section_start := 0x400000000; section_end := 0x4FFFFFFFF;
          section_name := "Program input parameters" |};
     focusedRegion := None;
     accountDataSizes := [Some 32];
     instructionDataSize := 32;
     numberOfAccounts := 1;
     selectedView := "Program" |}.

(** ** The layout engine *)

(** [arr[index]] for an array index. *)
Definition array_get (arr : list (option Z)) (index : nat) : option Z :=
  match nth_error arr index with
  | Some v => v
  | None => None
  end.

(** [v || 32] on a number or [undefined]: 0 and [undefined] are falsy. *)
Definition or_32 (v : option Z) : Z :=
  match v with
  | Some z => if z =? 0 then 32 else z
  | None => 32
  end.

(** The name [`Account ${index + 1}: ${base}`]. *)
Definition accountName (unit : Z) (base : string) : string :=
  ("Account " ++ JS.toString 10 unit ++ ": " ++ base)%string.

(** One instantiation of the per-account template, for array index
    [index]. *)
Definition accountRegionsOf (sizes : list (option Z)) (index : nat)
    : list Region :=
  map (fun region =>
         mkRegion (accountName (Z.of_nat index + 1) (name region))
                  (if String.eqb (name region) "Account data"
                   then or_32 (array_get sizes index)
                   else size region)
                  (color region) (isDynamic region) (isPadding region)
                  (subRegions region))
      ACCOUNT_REGIONS.

(** [Array(n).fill(null).flatMap((_, index) => ...)]; [Array(n)] needs a
    count that is a non-negative integer, which the handler of the count
    guarantees. *)
Definition accountRegions (n : Z) (sizes : list (option Z)) : list Region :=
  flat_map (accountRegionsOf sizes) (seq 0 (Z.to_nat n)).

Definition withInstructionDataSize (isz : Z) (region : Region) : Region :=
  if String.eqb (name region) "Instruction data"
  then mkRegion (name region) isz (color region) (isDynamic region)
                (isPadding region) (subRegions region)
  else region.

Definition programInputRegions (st : State) : list Region :=
  firstn 1 PROGRAM_REGIONS
  ++ accountRegions (numberOfAccounts st) (accountDataSizes st)
  ++ map (withInstructionDataSize (instructionDataSize st))
         (skipn 1 PROGRAM_REGIONS).

(** [regions.reduce((sum, region) => sum + region.size, 0)]. *)
Definition sumSizes (regions : list Region) : Z :=
  fold_left (fun sum region => sum + size region) regions 0.

Definition totalNamedRegionSize (st : State) : Z :=
  sumSizes (programInputRegions st).

Definition maxRows (st : State) : Z :=
  JS.ceil_div (totalNamedRegionSize st) BYTES_PER_ROW + 1.

Definition totalRows (st : State) : Z :=
  if String.eqb (section_name (selectedSection st)) "Program input parameters"
  then Z.max MIN_ROWS (maxRows st)
  else Z.max MIN_ROWS
         (JS.ceil_div (section_end (selectedSection st)
                       - section_start (selectedSection st) + 1)
                      BYTES_PER_ROW).

(** The loop of [getRegionOffset], from running offset [offset]. *)
Fixpoint regionOffsetFrom (offset : Z) (regions : list Region)
    (regionName : string) : Z :=
  match regions with
  | [] => -1
  | region :: rest =>
      if String.eqb (name region) regionName then offset
      else regionOffsetFrom (offset + size region) rest regionName
  end.

Definition getRegionOffset (st : State) (regionName : string) : Z :=
  regionOffsetFrom 0 (programInputRegions st) regionName.

(** [byte.toString(16).padStart(2, '0')]. *)
Definition hex2 (b : Z) : string :=
  JS.padStart 2 "0"%char (JS.toString 16 b).

(** [parseInt(focusedRegion.split(':')[0].split(' ')[1]) - 1];
    [parseInt(undefined)] is [NaN]. *)
Definition accountIndexOf (focused : string) : option Z :=
  match nth_error (JS.split ":"%char focused) 0 with
  | Some head =>
      match nth_error (JS.split " "%char head) 1 with
      | Some digits =>
          match JS.parseInt digits 0 with
          | Some k => Some (k - 1)
          | None => None
          end
      | None => None
      end
  | None => None
  end.

(** [`${accountIndex + 1}`], which prints [NaN] as such. *)
Definition unitString (accountIndex : option Z) : string :=
  match accountIndex with
  | Some i => JS.toString 10 (i + 1)
  | None => "NaN"
  end.

(** [accountDataSizes[accountIndex]] for a number that need not be an
    array index. *)
Definition array_get_number (arr : list (option Z)) (accountIndex : option Z)
    : option Z :=
  match accountIndex with
  | Some i => if i <? 0 then None else array_get arr (Z.to_nat i)
  | None => None
  end.

(** The byte shown when [index] is inside the 8 bytes at [offset]. *)
Definition encodedByte (v : Z) (index offset : Z) : option string :=
  if (offset <=? index) && (index <? offset + 8)
  then Some (hex2 (JS.byte_at v (Z.to_nat (index - offset))))
  else None.

Definition fillerByte (index : Z) : string :=
  hex2 (JS.rem index 256).

Definition getMemoryValue (st : State) (index : Z) : string :=
  let focused :=
    if String.eqb (section_name (selectedSection st)) "Program input parameters"
    then
      match focusedRegion st with
      | Some f =>
          if JS.includes "Account data size" f then
            let accountIndex := accountIndexOf f in
            let offset :=
              getRegionOffset st
                ("Account " ++ unitString accountIndex
                 ++ ": Account data size")%string in
            encodedByte
              (or_32 (array_get_number (accountDataSizes st) accountIndex))
              index offset
          else if String.eqb f "Instruction data size" then
            encodedByte (instructionDataSize st) index
              (getRegionOffset st "Instruction data size")
          else if String.eqb f "Number of accounts" then
            encodedByte (numberOfAccounts st) index
              (getRegionOffset st "Number of accounts")
          else None
      | None => None
      end
    else None in
  match focused with
  | Some v => v
  | None => fillerByte index
  end.

(** The inner loop of [getRegionColor] over the sub-regions. *)
Fixpoint subRegionColorFrom (subRegionOffset : Z) (subs : list SubRegion)
    (byteOffset : Z) : option string :=
  match subs with
  | [] => None
  | subRegion :: rest =>
      if (subRegionOffset <=? byteOffset)
         && (byteOffset <? subRegionOffset + sub_size subRegion)
      then Some (sub_color subRegion)
      else subRegionColorFrom (subRegionOffset + sub_size subRegion) rest
             byteOffset
  end.

(** The colour of a cell of [region], which starts at [currentOffset],
    when [focused] (a non-empty name) is focused. *)
Definition focusedColor (focused : string) (region : Region)
    (currentOffset byteOffset : Z) : string :=
  if JS.includes "Account data size" focused
     && JS.includes "Account data" (name region)
  then (color region ++ " opacity-50")%string
  else if String.eqb focused "Instruction data size"
          && String.eqb (name region) "Instruction data"
  then (color region ++ " opacity-50")%string
  else
    match (if String.eqb focused (name region)
           then subRegionColorFrom currentOffset (subRegions region) byteOffset
           else None) with
    | Some c => c
    | None =>
        if String.eqb focused (name region) then color region
        else "bg-gray-700"
    end.

(** A [string | null] is truthy when it is a non-empty string. *)
Definition truthy (s : option string) : option string :=
  match s with
  | Some f => if String.eqb f "" then None else Some f
  | None => None
  end.

Fixpoint regionColorFrom (focused : option string) (currentOffset : Z)
    (regions : list Region) (byteOffset : Z) : string :=
  match regions with
  | [] => "bg-gray-800"
  | region :: rest =>
      if (currentOffset <=? byteOffset)
         && (byteOffset <? currentOffset + size region)
      then
        match truthy focused with
        | Some f => focusedColor f region currentOffset byteOffset
        | None =>
            if isPadding region then (color region ++ " crosshatch")%string
            else color region
        end
      else regionColorFrom focused (currentOffset + size region) rest
             byteOffset
  end.

Definition getRegionColor (st : State) (byteOffset : Z) : string :=
  if negb (String.eqb (section_name (selectedSection st))
             "Program input parameters")
  then "bg-gray-800"
  else regionColorFrom (focusedRegion st) 0 (programInputRegions st)
         byteOffset.

Fixpoint regionForOffsetFrom (currentOffset : Z) (regions : list Region)
    (byteOffset : Z) : option Region :=
  match regions with
  | [] => None
  | region :: rest =>
      if (currentOffset <=? byteOffset)
         && (byteOffset <? currentOffset + size region)
      then Some region
      else regionForOffsetFrom (currentOffset + size region) rest byteOffset
  end.

Definition getRegionForOffset (st : State) (byteOffset : Z) : option Region :=
  regionForOffsetFrom 0 (programInputRegions st) byteOffset.

(** ** The parameter handlers *)

(** [isNaN(value) ? 0 : value]. *)
Definition nanToZero (value : option Z) : Z :=
  match value with
  | Some v => v
  | None => 0
  end.

(** [newSizes[accountIndex] = v] on a copy of the array: an index past
    the end extends the array, leaving holes. *)
Fixpoint array_set (arr : list (option Z)) (accountIndex : nat) (v : Z)
    : list (option Z) :=
  match accountIndex, arr with
  | O, [] => [Some v]
  | O, _ :: rest => Some v :: rest
  | S i, [] => None :: array_set [] i v
  | S i, x :: rest => x :: array_set rest i v
  end.

(** [accountIndex] is the array index the render code passes:
    the account number in the region name, minus one. *)
Definition handleAccountDataSizeChange (st : State) (targetValue : string)
    (accountIndex : nat) : State :=
  let value := JS.parseInt targetValue 10 in
  {| selectedSection := selectedSection st;
     focusedRegion := focusedRegion st;
     accountDataSizes :=
       array_set (accountDataSizes st) accountIndex (nanToZero value);
     instructionDataSize := instructionDataSize st;
     numberOfAccounts := numberOfAccounts st;
     selectedView := selectedView st |}.

Definition handleInstructionDataSizeChange (st : State) (targetValue : string)
    : State :=
  let value := JS.parseInt targetValue 10 in
  {| selectedSection := selectedSection st;
     focusedRegion := focusedRegion st;
     accountDataSizes := accountDataSizes st;
     instructionDataSize := nanToZero value;
     numberOfAccounts := numberOfAccounts st;
     selectedView := selectedView st |}.

(** [isNaN(value) ? 0 : Math.min(Math.max(value, 0), 64)]. *)
Definition clampAccounts (value : option Z) : Z :=
  match value with
  | Some v => Z.min (Z.max v 0) 64
  | None => 0
  end.

(** The [while] loop pushing 32 until the array has [n] entries; it runs
    [n - length] times. *)
Definition pushDefaults (newSizes : list (option Z)) (n : Z)
    : list (option Z) :=
  newSizes ++ repeat (Some 32) (Z.to_nat n - List.length newSizes).

(** [newSizes.slice(0, n)] for [n >= 0]. *)
Definition slice0 (newSizes : list (option Z)) (n : Z) : list (option Z) :=
  firstn (Z.to_nat n) newSizes.

Definition resizeSizes (prev : list (option Z)) (newNumberOfAccounts : Z)
    : list (option Z) :=
  slice0 (pushDefaults prev newNumberOfAccounts) newNumberOfAccounts.

Definition handleNumberOfAccountsChange (st : State) (targetValue : string)
    : State :=
  let value := JS.parseInt targetValue 10 in
  let newNumberOfAccounts := clampAccounts value in
  {| selectedSection := selectedSection st;
     focusedRegion := focusedRegion st;
     accountDataSizes := resizeSizes (accountDataSizes st) newNumberOfAccounts;
     instructionDataSize := instructionDataSize st;
     numberOfAccounts := newNumberOfAccounts;
     selectedView := selectedView st |}.

(** [setSelectedSection(section)] and [setFocusedRegion(value || null)]. *)
Definition setSelectedSection (st : State) (section : MemorySection) : State :=
  {| selectedSection := section;
     focusedRegion := focusedRegion st;
     accountDataSizes := accountDataSizes st;
     instructionDataSize := instructionDataSize st;
     numberOfAccounts := numberOfAccounts st;
     selectedView := selectedView st |}.

Definition handleAccordionChange (st : State) (value : string) : State :=
  {| selectedSection := selectedSection st;
     focusedRegion := truthy (Some value);
     accountDataSizes := accountDataSizes st;
     instructionDataSize := instructionDataSize st;
     numberOfAccounts := numberOfAccounts st;
     selectedView := selectedView st |}.

(** ** Little-endian display *)

Definition toLittleEndian (num : Z) : string :=
  JS.join " " (map hex2 (JS.littleEndianBytes num)).


(** ** The legend, clicks, scrolling and the grid rows *)

(** [`${n}`] for a number that may be [NaN]. *)
Definition numberString (n : option Z) : string :=
  match n with
  | Some z => JS.toString 10 z
  | None => "NaN"
  end.

(** The regions the legend lists for the selected view. *)
Definition displayedRegions (st : State) : list Region :=
  if String.eqb (selectedView st) "Program"
  then filter (fun region => negb (JS.startsWith "Account" (name region)))
              (programInputRegions st)
  else
    let accountNumber :=
      JS.parseInt (JS.replace "Account " "" (selectedView st)) 0 in
    filter (fun region =>
              JS.startsWith
                ("Account " ++ numberString accountNumber ++ ":")%string
                (name region))
           (programInputRegions st).

(** [name.split(':')[0].split(' ')[1]] inside a template literal, which
    prints a missing part as [undefined]. *)
Definition accountNumberText (regionName : string) : string :=
  match nth_error (JS.split ":"%char regionName) 0 with
  | Some head =>
      match nth_error (JS.split " "%char head) 1 with
      | Some digits => digits
      | None => "undefined"
      end
  | None => "undefined"
  end.

Definition handleMemoryClick (st : State) (byteOffset : Z) : State :=
  match getRegionForOffset st byteOffset with
  | Some clickedRegion =>
      let isAccountRegion := JS.startsWith "Account" (name clickedRegion) in
      let newView :=
        if isAccountRegion
        then ("Account " ++ accountNumberText (name clickedRegion))%string
        else "Program" in
      {| selectedSection := selectedSection st;
         focusedRegion :=
           match focusedRegion st with
           | Some prevFocusedRegion =>
               if String.eqb prevFocusedRegion (name clickedRegion) then None
               else Some (name clickedRegion)
           | None => Some (name clickedRegion)
           end;
         accountDataSizes := accountDataSizes st;
         instructionDataSize := instructionDataSize st;
         numberOfAccounts := numberOfAccounts st;
         selectedView := newView |}
  | None => st
  end.

(** The loop of [getRegionStartRow]; [Math.floor(x / 16)] is [x / 16]. *)
Fixpoint regionStartRowFrom (currentOffset : Z) (regions : list Region)
    (regionName : string) : Z :=
  match regions with
  | [] => 0
  | region :: rest =>
      if String.eqb (name region) regionName
      then currentOffset / BYTES_PER_ROW
      else regionStartRowFrom (currentOffset + size region) rest regionName
  end.

Definition getRegionStartRow (st : State) (regionName : string) : Z :=
  regionStartRowFrom 0 (programInputRegions st) regionName.

(** The row [handleAccordionChange] scrolls to, if it scrolls. *)
Definition accordionScrollRow (st : State) (value : string) : option Z :=
  if String.eqb value "" then None else Some (getRegionStartRow st value).

(** The row [scrollToBottom] scrolls to. *)
Definition scrollToBottomRow (st : State) : Z := totalRows st - 1.

(** The address label of row [index]. *)
Definition rowAddress (st : State) (index : Z) : string :=
  ("0x"
   ++ JS.padStart 9 "0"%char
        (JS.toUpperCase
           (JS.toString 16
              (section_start (selectedSection st) + index * BYTES_PER_ROW))))%string.

(** The byte offset of the cell in column [col] of row [index]. *)
Definition cellByteOffset (index col : Z) : Z := index * COLS + col.

(** The number a cell's tooltip shows: [parseInt(hexValue, 16)]. *)
Definition cellTooltipValue (st : State) (index col : Z) : option Z :=
  JS.parseInt (getMemoryValue st (cellByteOffset index col)) 16.

(** The account index the legend passes to the data size handler and
    uses to read the size: [parseInt(region.name.split(' ')[1]) - 1]. *)
Definition legendAccountIndex (regionName : string) : option Z :=
  match nth_error (JS.split " "%char regionName) 1 with
  | Some part =>
      match JS.parseInt part 0 with
      | Some k => Some (k - 1)
      | None => None
      end
  | None => None
  end.

(** The number the legend shows in the input of an integer-backed
    region, and encodes below it. *)
Definition legendValue (st : State) (regionName : string) : Z :=
  if String.eqb regionName "Number of accounts" then numberOfAccounts st
  else if JS.includes "Account data size" regionName
  then or_32 (array_get_number (accountDataSizes st)
                (legendAccountIndex regionName))
  else instructionDataSize st.

(** ** The text input component ([ui/input.tsx]) *)

Module Input.

(** The characters the pattern [[^0-9A-Fa-f]] leaves in place. *)
Definition isHexChar (c : ascii) : bool :=
  let n := Z.of_N (N_of_ascii c) in
  ((48 <=? n) && (n <=? 57)) || ((65 <=? n) && (n <=? 70))
  || ((97 <=? n) && (n <=? 102)).

(** [value.replace(/[^0-9A-Fa-f]/g, '')]. *)
Fixpoint removeNonHex (s : string) : string :=
  match s with
  | EmptyString => EmptyString
  | String c rest =>
      if isHexChar c then String c (removeNonHex rest) else removeNonHex rest
  end.

(** The value [handleChange] leaves in [event.target.value] (the event
    it then hands to [props.onChange], if there is one), and the argument
    it passes to [onHexChange], if there is one.  [maxHexLength] is [None]
    when the prop is absent; 0 is falsy like an absent prop. *)
Definition handleChange (isHexValue : bool) (maxHexLength : option Z)
    (value : string) : string * option string :=
  if isHexValue then
    let hexValue := JS.toUpperCase (removeNonHex value) in
    let truncatedValue :=
      match maxHexLength with
      | Some m => if m =? 0 then hexValue else JS.sliceTo hexValue m
      | None => hexValue
      end in
    (truncatedValue, Some truncatedValue)
  else (value, None).

End Input.

(** ** The single-account viewer

    The second viewer component of the repository lays out one account
    block between the count and the instruction fields, with one account
    data size instead of an array.  Optional fields of its regions that
    are absent are the empty list of sub-regions and a false padding
    flag, which its code treats alike. *)

Module Single.

Definition PROGRAM_INPUT_REGIONS : list Region :=
  [ mkRegion "Number of accounts" 8 "bg-blue-400" None false [];
    mkRegion "Account Flags" 4 "bg-green-400" None false
      [ mkSub "Is Signer" 1 "bg-green-300";
        mkSub "Is Writable" 1 "bg-green-400";
        mkSub "Is Executable" 1 "bg-green-500";
        mkSub "Is Duplicate" 1 "bg-green-600" ];
    mkRegion "Padding 1" 4 "bg-gray-400" None true [];
    mkRegion "Public keys" 64 "bg-purple-400" None false
      [ mkSub "Account Pub Key" 32 "bg-indigo-400";
        mkSub "Account Owner Pub Key" 32 "bg-violet-400" ];
    mkRegion "Lamports" 8 "bg-red-400" None false [];
    mkRegion "Account data size" 8 "bg-indigo-400" None false [];
    mkRegion "Account data" 32 "bg-pink-400" (Some true) false [];
    mkRegion "Realloc padding" 10240 "bg-gray-500" None true [];
    mkRegion "Rent epoch" 8 "bg-teal-400" None false [];
    mkRegion "Instruction data size" 8 "bg-cyan-400" None false [];
    mkRegion "Instruction data" 32 "bg-lime-400" (Some true) false [];
    mkRegion "Program ID" 32 "bg-amber-400" None false [] ].

Record State := {
  selectedSection : MemorySection;
  focusedRegion : option string;
  accountDataSize : Z;
  instructionDataSize : Z;
  numberOfAccounts : Z
}.

Definition initialState : State :=
  {| selectedSection :=
       {| section_start := 0x400000000; section_end := 0x4FFFFFFFF;
          section_name := "Program input parameters" |};
     focusedRegion := None;
     accountDataSize := 32;
     instructionDataSize := 32;
     numberOfAccounts := 1 |}.

Definition withSize (region : Region) (sz : Z) : Region :=
  mkRegion (name region) sz (color region) (isDynamic region)
    (isPadding region) (subRegions region).

Definition programInputRegions (st : State) : list Region :=
  map (fun region =>
         if String.eqb (name region) "Account data"
         then withSize region (accountDataSize st)
         else if String.eqb (name region) "Instruction data"
         then withSize region (instructionDataSize st)
         else region)
      PROGRAM_INPUT_REGIONS.

Definition totalNamedRegionSize (st : State) : Z :=
  sumSizes (programInputRegions st).

Definition maxRows (st : State) : Z :=
  JS.ceil_div (totalNamedRegionSize st) BYTES_PER_ROW + 1.

Definition totalRows (st : State) : Z :=
  if String.eqb (section_name (selectedSection st)) "Program input parameters"
  then Z.max MIN_ROWS (maxRows st)
  else Z.max MIN_ROWS
         (JS.ceil_div (section_end (selectedSection st)
                       - section_start (selectedSection st) + 1)
                      BYTES_PER_ROW).

Definition getRegionOffset (st : State) (regionName : string) : Z :=
  regionOffsetFrom 0 (programInputRegions st) regionName.

Definition getMemoryValue (st : State) (index : Z) : string :=
  let focused :=
    if String.eqb (section_name (selectedSection st)) "Program input parameters"
    then
      match focusedRegion st with
      | Some f =>
          if String.eqb f "Account data size" then
            encodedByte (accountDataSize st) index
              (getRegionOffset st "Account data size")
          else if String.eqb f "Instruction data size" then
            encodedByte (instructionDataSize st) index
              (getRegionOffset st "Instruction data size")
          else if String.eqb f "Number of accounts" then
            encodedByte (numberOfAccounts st) index
              (getRegionOffset st "Number of accounts")
          else None
      | None => None
      end
    else None in
  match focused with
  | Some v => v
  | None => fillerByte index
  end.

Definition focusedColor (focused : string) (region : Region)
    (currentOffset byteOffset : Z) : string :=
  if String.eqb focused "Account data size"
     && String.eqb (name region) "Account data"
  then (color region ++ " opacity-50")%string
  else if String.eqb focused "Instruction data size"
          && String.eqb (name region) "Instruction data"
  then (color region ++ " opacity-50")%string
  else
    match (if String.eqb focused (name region)
           then subRegionColorFrom currentOffset (subRegions region) byteOffset
           else None) with
    | Some c => c
    | None =>
        if String.eqb focused (name region) then color region
        else "bg-gray-700"
    end.

Fixpoint regionColorFrom (focused : option string) (currentOffset : Z)
    (regions : list Region) (byteOffset : Z) : string :=
  match regions with
  | [] => "bg-gray-800"
  | region :: rest =>
      if (currentOffset <=? byteOffset)
         && (byteOffset <? currentOffset + size region)
      then
        match truthy focused with
        | Some f => focusedColor f region currentOffset byteOffset
        | None =>
            if isPadding region then (color region ++ " crosshatch")%string
            else color region
        end
      else regionColorFrom focused (currentOffset + size region) rest
             byteOffset
  end.

Definition getRegionColor (st : State) (byteOffset : Z) : string :=
  if negb (String.eqb (section_name (selectedSection st))
             "Program input parameters")
  then "bg-gray-800"
  else regionColorFrom (focusedRegion st) 0 (programInputRegions st)
         byteOffset.

(** The toggle of the legend: the focused item closes, another opens. *)
Definition handleAccordionChange (st : State) (value : string) : State :=
  {| selectedSection := selectedSection st;
     focusedRegion :=
       match focusedRegion st with
       | Some f => if String.eqb value f then None else truthy (Some value)
       | None => truthy (Some value)
       end;
     accountDataSize := accountDataSize st;
     instructionDataSize := instructionDataSize st;
     numberOfAccounts := numberOfAccounts st |}.

Definition handleAccountDataSizeChange (st : State) (targetValue : string)
    : State :=
  {| selectedSection := selectedSection st;
     focusedRegion := focusedRegion st;
     accountDataSize := nanToZero (JS.parseInt targetValue 10);
     instructionDataSize := instructionDataSize st;
     numberOfAccounts := numberOfAccounts st |}.

Definition handleInstructionDataSizeChange (st : State) (targetValue : string)
    : State :=
  {| selectedSection := selectedSection st;
     focusedRegion := focusedRegion st;
     accountDataSize := accountDataSize st;
     instructionDataSize := nanToZero (JS.parseInt targetValue 10);
     numberOfAccounts := numberOfAccounts st |}.

Definition handleNumberOfAccountsChange (st : State) (targetValue : string)
    : State :=
  {| selectedSection := selectedSection st;
     focusedRegion := focusedRegion st;
     accountDataSize := accountDataSize st;
     instructionDataSize := instructionDataSize st;
     numberOfAccounts := clampAccounts (JS.parseInt targetValue 10) |}.

(** The offset a cell's tooltip shows:
    [byteOffset - (selectedSection.start - MEMORY_SECTIONS[0].start)]. *)
Definition relativeOffset (st : State) (byteOffset : Z) : Z :=
  byteOffset - (section_start (selectedSection st) - 0x100000000).

End Single.
(** ** Vocabulary of the statements *)

(** The name the component tests the selected section against. *)
Definition PROGRAM_INPUT : string := "Program input parameters".

(** Every character of [s] satisfies [p]. *)
Fixpoint all_chars (p : ascii -> bool) (s : string) : bool :=
  match s with
  | EmptyString => true
  | String c rest => p c && all_chars p rest
  end.

Definition is_not (sep : ascii) (c : ascii) : bool := negb (Ascii.eqb c sep).

(** The decimal digit characters. *)
Definition is_decimal (c : ascii) : bool :=
  let n := Z.of_N (N_of_ascii c) in (48 <=? n) && (n <=? 57).

(** Little-endian encoding as the specification words it: the
    lowest-order byte first, [n] bytes. *)
Fixpoint le_encode (n : nat) (v : Z) : list Z :=
  match n with
  | O => []
  | S n' => v mod 256 :: le_encode n' (v / 256)
  end.


(** The account count is a count, and the array of sizes has one entry
    per account. *)
Definition sizesInSync (st : State) : Prop :=
  0 <= numberOfAccounts st
  /\ List.length (accountDataSizes st) = Z.to_nat (numberOfAccounts st).


(** The prefix that marks the regions of account number [unit]. *)
Definition unitPrefix (unit : Z) : string :=
  ("Account " ++ JS.toString 10 unit ++ ": ")%string.

(** The size the layout gives the account data region of the account at
    [index]: the stored size, or 32 when it is 0 or missing. *)
Definition effectiveSize (sizes : list (option Z)) (index : nat) : Z :=
  or_32 (array_get sizes index).

(** The total size of the per-account template with [dataSize]
    substituted for the size of its "Account data" region. *)
Definition templateTotal (dataSize : Z) : Z :=
  sumSizes
    (map (fun region =>
            if String.eqb (name region) "Account data"
            then mkRegion (name region) dataSize (color region)
                   (isDynamic region) (isPadding region) (subRegions region)
            else region)
         ACCOUNT_REGIONS).

(** The total size of the regions that are not repeated, with the
    instruction data size [isz] substituted. *)
Definition fixedTotal (isz : Z) : Z :=
  sumSizes (firstn 1 PROGRAM_REGIONS)
  + sumSizes (map (withInstructionDataSize isz) (skipn 1 PROGRAM_REGIONS)).

(** [f 0 + f 1 + ... + f (n - 1)]. *)
Fixpoint sumOver (f : nat -> Z) (n : nat) : Z :=
  match n with
  | O => 0
  | S n' => sumOver f n' + f n'
  end.

(** A state given by its parameters. *)
Definition mkState (section : MemorySection) (focused : option string)
    (sizes : list (option Z)) (isz : Z) (n : Z) : State :=
  {| selectedSection := section;
     focusedRegion := focused;
     accountDataSizes := sizes;
     instructionDataSize := isz;
     numberOfAccounts := n;
     selectedView := "Program" |}.

Definition programInputSection : MemorySection :=
  {| section_start := 0x400000000; section_end := 0x4FFFFFFFF;
     section_name := "Program input parameters" |}.

Definition stackSection : MemorySection :=
  {| section_start := 0x200000000; section_end := 0x2FFFFFFFF;
     section_name := "Stack data" |}.

(** The names of the per-account template. *)
Definition baseNames : list string := map name ACCOUNT_REGIONS.

(** The stored sizes are not negative. *)
Definition sizesNonNegative (st : State) : Prop :=
  0 <= instructionDataSize st
  /\ Forall (fun v => match v with Some z => 0 <= z | None => True end)
            (accountDataSizes st).

(** [integerBacked st f v]: [f] names one of the regions of the layout of
    [st] that show an integer parameter, whose current value is [v]: the
    account count, the instruction data size, or the data size of an
    account [k] of the layout. *)
Inductive integerBacked (st : State) : string -> Z -> Prop :=
  | IB_count :
      integerBacked st "Number of accounts" (numberOfAccounts st)
  | IB_instruction :
      integerBacked st "Instruction data size" (instructionDataSize st)
  | IB_account (k : Z) :
      1 <= k <= numberOfAccounts st ->
      integerBacked st (accountName k "Account data size")
        (effectiveSize (accountDataSizes st) (Z.to_nat (k - 1))).

(** The byte at position [i] of the unsigned 64-bit little-endian
    encoding of [v]. *)
Definition encodedByteOf (v : Z) (i : Z) : Z :=
  nth (Z.to_nat i) (le_encode 8 (v mod 2 ^ 64)) 0.

(** The region of the layout with a given name. *)
Definition findRegion (st : State) (regionName : string) : option Region :=
  find (fun r => String.eqb (name r) regionName) (programInputRegions st).

(** The characters [toString] prints in radix 10. *)
Definition is_decimal_or_minus (c : ascii) : bool :=
  is_decimal c || Ascii.eqb c "-"%char.

(** The cases in which a cell shows the filler pattern: nothing is
    focused; another section is selected; the focused name is a region of
    the layout that shows no integer; the focused name passes none of the
    three tests of the component; or the focused region shows an integer
    and the cell is outside its 8 bytes. *)
Definition showsFiller (st : State) (index : Z) : Prop :=
  focusedRegion st = None
  \/ section_name (selectedSection st) <> PROGRAM_INPUT
  \/ (exists f, focusedRegion st = Some f
                /\ In f (map name (programInputRegions st))
                /\ forall v, ~ integerBacked st f v)
  \/ (exists f, focusedRegion st = Some f
                /\ JS.includes "Account data size" f = false
                /\ f <> "Instruction data size"
                /\ f <> "Number of accounts")
  \/ (exists f v, focusedRegion st = Some f
                  /\ integerBacked st f v
                  /\ ~ (getRegionOffset st f <= index
                        < getRegionOffset st f + 8)).

(** The region that owns a byte offset, with the offset it starts at:
    the scan of [getRegionColor] and [getRegionForOffset]. *)
Fixpoint ownerFrom (currentOffset : Z) (regions : list Region)
    (byteOffset : Z) : option (Region * Z) :=
  match regions with
  | [] => None
  | region :: rest =>
      if (currentOffset <=? byteOffset)
         && (byteOffset <? currentOffset + size region)
      then Some (region, currentOffset)
      else ownerFrom (currentOffset + size region) rest byteOffset
  end.

(** The state after the account count is set to 2 and the data size
    field of account 1 is opened in the legend. *)
Definition twoAccountsFocused : State :=
  handleAccordionChange (handleNumberOfAccountsChange initialState "2")
    "Account 1: Account data size".

(** The state after the count field is opened in the legend and the
    section "Stack data" is selected. *)
Definition countFocusedOnStack : State :=
  setSelectedSection (handleAccordionChange initialState "Number of accounts")
    stackSection.

(** The state after "0" is typed as the data size of account 1, whose
    data size field is open in the legend. *)
Definition zeroSizeFocused : State :=
  handleAccountDataSizeChange
    (handleAccordionChange initialState "Account 1: Account data size") "0" 0.

(** The text of the legend view of account number [k]. *)
Definition viewName (k : Z) : string :=
  ("Account " ++ JS.toString 10 k)%string.

(** The regions that are not repeated, in the layout of [st]. *)
Definition fixedRegions (st : State) : list Region :=
  firstn 1 PROGRAM_REGIONS
  ++ map (withInstructionDataSize (instructionDataSize st))
       (skipn 1 PROGRAM_REGIONS).

(** The characters of an upper-case hexadecimal number. *)
Definition isUpperHex (c : ascii) : bool :=
  let n := Z.of_N (N_of_ascii c) in
  ((48 <=? n) && (n <=? 57)) || ((65 <=? n) && (n <=? 70)).

(** The name the multi-account viewer gives, for account 1, to a region
    of the single-account viewer. *)
Definition multiName (regionName : string) : string :=
  if existsb (String.eqb regionName) baseNames
  then accountName 1 regionName
  else regionName.

(** The state of the multi-account viewer with the parameters of a state
    of the single-account viewer. *)
Definition multiOf (s : Single.State) : State :=
  {| selectedSection := Single.selectedSection s;
     focusedRegion := option_map multiName (Single.focusedRegion s);
     accountDataSizes := [Some (Single.accountDataSize s)];
     instructionDataSize := Single.instructionDataSize s;
     numberOfAccounts := Single.numberOfAccounts s;
     selectedView := "Program" |}.
(** * Properties *)

(** ** Arithmetic of the primitives *)

Section Arithmetic.

(** [JS.ceil_div a b] is the least integer [q] with [a <= b * q]. *)
Lemma ceil_div_bounds (a b : Z) :
  0 < b -> b * (JS.ceil_div a b - 1) < a <= b * JS.ceil_div a b.
Proof.
  intro Hb. unfold JS.ceil_div.
  pose proof (Z.div_mod (- a) b ltac:(lia)) as Hdm.
  pose proof (Z.mod_pos_bound (- a) b Hb) as Hm.
  nia.
Qed.

Lemma ceil_div_unique (a b q : Z) :
  0 < b -> b * (q - 1) < a <= b * q -> JS.ceil_div a b = q.
Proof.
  intros Hb Hq. pose proof (ceil_div_bounds a b Hb) as Hc. nia.
Qed.

Lemma ceil_div_exact (b q : Z) : 0 < b -> JS.ceil_div (b * q) b = q.
Proof. intro Hb. apply ceil_div_unique; lia. Qed.

End Arithmetic.

(** ** Row count *)

(** C2. The row count is [max(16, ceil(total / 16) + 1)] for the section
    named "Program input parameters" and [max(16, ceil((end - start + 1) / 16))]
    for any other section, where [ceil(a / 16)] is the least [q] with
    [a <= 16 q]; a section of width 0x100000000 other than the variable one
    has 268435456 rows, and a total layout size of 0 gives 16 rows. *)
Theorem totalRows_formula (st : State) :
  exists q : Z,
    (if String.eqb (section_name (selectedSection st)) PROGRAM_INPUT
     then 16 * (q - 1) < totalNamedRegionSize st <= 16 * q
          /\ totalRows st = Z.max 16 (q + 1)
     else 16 * (q - 1)
            < section_end (selectedSection st)
              - section_start (selectedSection st) + 1 <= 16 * q
          /\ totalRows st = Z.max 16 q)
    /\ (section_name (selectedSection st) <> PROGRAM_INPUT ->
        section_end (selectedSection st) - section_start (selectedSection st) + 1
          = 0x100000000 ->
        totalRows st = 268435456)
    /\ (section_name (selectedSection st) = PROGRAM_INPUT ->
        totalNamedRegionSize st = 0 -> totalRows st = 16).
Proof.
  unfold totalRows, maxRows, PROGRAM_INPUT, MIN_ROWS, BYTES_PER_ROW.
  destruct (String.eqb_spec (section_name (selectedSection st))
              "Program input parameters") as [Heq | Hne].
  - exists (JS.ceil_div (totalNamedRegionSize st) 16).
    repeat split.
    + apply (ceil_div_bounds _ 16); lia.
    + apply (ceil_div_bounds _ 16); lia.
    + intro H; contradiction.
    + intros _ H0. rewrite H0. reflexivity.
  - exists (JS.ceil_div (section_end (selectedSection st)
                         - section_start (selectedSection st) + 1) 16).
    repeat split.
    + apply (ceil_div_bounds _ 16); lia.
    + apply (ceil_div_bounds _ 16); lia.
    + intros _ Hw. rewrite Hw. reflexivity.
    + intro H; contradiction.
Qed.

(** The three sections other than the variable one are each 0x100000000
    bytes wide, hence 268435456 rows; the initial state has 654 rows. *)
Lemma fixed_sections_rows (st : State) :
  Forall (fun section =>
            section_name section <> PROGRAM_INPUT ->
            totalRows (setSelectedSection st section) = 268435456)
         MEMORY_SECTIONS
  /\ totalRows initialState = 654.
Proof.
  split; [| reflexivity].
  repeat constructor; cbn; intro H; try reflexivity.
  now elim H.
Qed.

(** ** Strings *)

Section Strings.

Lemma append_assoc (a b c : string) :
  ((a ++ b) ++ c)%string = (a ++ (b ++ c))%string.
Proof. induction a as [| ch a IH]; simpl; [reflexivity | now rewrite IH]. Qed.

Lemma append_nil_r (a : string) : (a ++ "")%string = a.
Proof. induction a as [| ch a IH]; simpl; [reflexivity | now rewrite IH]. Qed.

Lemma all_chars_app (p : ascii -> bool) (a b : string) :
  all_chars p (a ++ b) = all_chars p a && all_chars p b.
Proof.
  induction a as [| ch a IH]; simpl; [reflexivity |].
  now rewrite IH, andb_assoc.
Qed.

Lemma all_chars_weaken (p q : ascii -> bool) (s : string) :
  (forall c, p c = true -> q c = true) ->
  all_chars p s = true -> all_chars q s = true.
Proof.
  intro Hpq. induction s as [| ch s IH]; simpl; [reflexivity |].
  intro H. apply andb_true_iff in H as [Hc Hs].
  apply andb_true_iff. split; auto.
Qed.

(** A string without the separator is its own single part. *)
Lemma split_no_sep (sep : ascii) (s : string) :
  all_chars (is_not sep) s = true -> JS.split sep s = [s].
Proof.
  induction s as [| ch s IH]; simpl; [reflexivity |].
  intro H. apply andb_true_iff in H as [Hc Hs].
  unfold is_not in Hc. apply negb_true_iff in Hc. rewrite Hc.
  now rewrite (IH Hs).
Qed.

Lemma split_app (sep : ascii) (p q : string) :
  all_chars (is_not sep) p = true ->
  JS.split sep (p ++ String sep q) = p :: JS.split sep q.
Proof.
  induction p as [| ch p IH]; simpl.
  - intros _. now rewrite Ascii.eqb_refl.
  - intro H. apply andb_true_iff in H as [Hc Hs].
    unfold is_not in Hc. apply negb_true_iff in Hc. rewrite Hc.
    now rewrite (IH Hs).
Qed.

Lemma prefix_app (n r : string) : String.prefix n (n ++ r) = true.
Proof.
  induction n as [| ch n IH]; simpl.
  - now destruct r.
  - destruct (ascii_dec ch ch) as [_ | Hne]; [exact IH | now elim Hne].
Qed.

Lemma includes_prefix (n h : string) :
  String.prefix n h = true -> JS.includes n h = true.
Proof. intro H. destruct h; cbn [JS.includes]; rewrite H; reflexivity. Qed.

Lemma includes_app (n p r : string) : JS.includes n (p ++ n ++ r) = true.
Proof.
  induction p as [| ch p IH].
  - cbn [append]. apply includes_prefix, prefix_app.
  - cbn [append JS.includes]. rewrite IH. apply orb_true_r.
Qed.

(** Two strings that agree up to their first separator agree on both
    sides of it. *)
Lemma append_sep_inj (sep : ascii) (p1 p2 x y : string) :
  all_chars (is_not sep) p1 = true ->
  all_chars (is_not sep) p2 = true ->
  (p1 ++ String sep x)%string = (p2 ++ String sep y)%string ->
  p1 = p2 /\ x = y.
Proof.
  revert p2. induction p1 as [| c1 p1 IH]; intros [| c2 p2]; simpl;
    intros H1 H2 E.
  - injection E as E. now split.
  - injection E as Ec E. apply andb_true_iff in H2 as [Hc _].
    unfold is_not in Hc. rewrite <- Ec, Ascii.eqb_refl in Hc. discriminate.
  - injection E as Ec E. apply andb_true_iff in H1 as [Hc _].
    unfold is_not in Hc. rewrite Ec, Ascii.eqb_refl in Hc. discriminate.
  - injection E as Ec E.
    apply andb_true_iff in H1 as [_ H1].
    apply andb_true_iff in H2 as [_ H2].
    destruct (IH p2 H1 H2 E) as [Hp Hx]. subst. now split.
Qed.

End Strings.

(** ** Printing and parsing numbers *)

Section Digits.

(** A boolean property checked on [0 .. n-1] holds of every integer in
    that range. *)
Lemma forall_below (P : Z -> bool) (n : nat) :
  forallb P (map Z.of_nat (seq 0 n)) = true ->
  forall z, 0 <= z < Z.of_nat n -> P z = true.
Proof.
  intros Hall z Hz.
  rewrite forallb_forall in Hall. apply Hall.
  apply in_map_iff. exists (Z.to_nat z). split; [lia |].
  apply in_seq. lia.
Qed.

Lemma digit_value_digit_char (d : Z) :
  0 <= d < 36 -> JS.digit_value (JS.digit_char d) = Some d.
Proof.
  intro Hd.
  pose proof (forall_below
    (fun d => match JS.digit_value (JS.digit_char d) with
              | Some d' => d' =? d
              | None => false
              end) 36 eq_refl d Hd) as H.
  cbv beta in H.
  destruct (JS.digit_value (JS.digit_char d)); [| discriminate].
  apply Z.eqb_eq in H. now subst.
Qed.

Lemma digit_char_decimal (d : Z) :
  0 <= d < 10 -> is_decimal (JS.digit_char d) = true.
Proof.
  intro Hd.
  exact (forall_below (fun d => is_decimal (JS.digit_char d)) 10 eq_refl d Hd).
Qed.

Lemma digits_of_S (r : Z) (f : nat) (n : Z) :
  JS.digits_of r (S f) n
  = if n <? r then String (JS.digit_char n) EmptyString
    else (JS.digits_of r f (n / r)
          ++ String (JS.digit_char (n mod r)) EmptyString)%string.
Proof. reflexivity. Qed.

Variable radix : Z.
Hypothesis radix_range : 2 <= radix <= 36.

Lemma div_radix_bound (f : nat) (n : Z) :
  0 <= n < 2 ^ (Z.of_nat (S f) + 1) -> 0 <= n / radix < 2 ^ (Z.of_nat f + 1).
Proof.
  intros [H0 Hn].
  replace (Z.of_nat (S f) + 1) with (Z.succ (Z.of_nat f + 1)) in Hn by lia.
  rewrite Z.pow_succ_r in Hn by lia.
  split; [apply Z.div_pos; lia |].
  apply Z.div_lt_upper_bound; [lia |].
  nia.
Qed.

(** Reading back the digits of [n] yields [n]. *)
Lemma parse_digits_digits_of (f : nat) :
  forall (n : Z) (rest : string),
    0 <= n < 2 ^ (Z.of_nat f + 1) ->
    JS.parse_digits radix (JS.digits_of radix (S f) n ++ rest) None
    = JS.parse_digits radix rest (Some n).
Proof.
  induction f as [| f IH]; intros n rest Hn.
  - assert (Hlt : n < radix) by (change (2 ^ (Z.of_nat 0 + 1)) with 2 in Hn; lia).
    cbn [JS.digits_of]. apply Z.ltb_lt in Hlt as Hb. rewrite Hb.
    cbn [append JS.parse_digits].
    rewrite digit_value_digit_char by lia. now rewrite Hb.
  - rewrite digits_of_S. destruct (n <? radix) eqn:Hb.
    + apply Z.ltb_lt in Hb as Hlt.
      cbn [append JS.parse_digits].
      rewrite digit_value_digit_char by lia. now rewrite Hb.
    + apply Z.ltb_ge in Hb.
      rewrite append_assoc. rewrite IH by (apply div_radix_bound; exact Hn).
      cbn [append JS.parse_digits].
      pose proof (Z.mod_pos_bound n radix ltac:(lia)) as Hm.
      rewrite digit_value_digit_char by lia.
      destruct Hm as [_ Hm]. apply Z.ltb_lt in Hm. rewrite Hm.
      f_equal. f_equal.
      pose proof (Z.div_mod n radix ltac:(lia)). lia.
Qed.

Lemma log2_fuel (n : Z) :
  0 <= n -> 0 <= n < 2 ^ (Z.of_nat (Z.to_nat (Z.log2 n)) + 1).
Proof.
  intro H0. split; [exact H0 |].
  pose proof (Z.log2_nonneg n) as Hl.
  rewrite Z2Nat.id by exact Hl.
  destruct (Z.eq_dec n 0) as [-> | Hne]; [reflexivity |].
  pose proof (Z.log2_spec n ltac:(lia)) as [_ Hs].
  replace (Z.log2 n + 1) with (Z.succ (Z.log2 n)) by lia. exact Hs.
Qed.

Lemma parse_digits_digits (n : Z) :
  0 <= n -> JS.parse_digits radix (JS.digits radix n) None = Some n.
Proof.
  intro H0. unfold JS.digits.
  rewrite <- (append_nil_r (JS.digits_of _ _ _)).
  rewrite parse_digits_digits_of by (apply log2_fuel; exact H0).
  reflexivity.
Qed.

End Digits.

Section Decimal.

Lemma digits_of_decimal (f : nat) :
  forall n, 0 <= n < 2 ^ (Z.of_nat f + 1) ->
    all_chars is_decimal (JS.digits_of 10 (S f) n) = true.
Proof.
  induction f as [| f IH]; intros n Hn.
  - assert (Hlt : n < 10) by (change (2 ^ (Z.of_nat 0 + 1)) with 2 in Hn; lia).
    cbn [JS.digits_of]. apply Z.ltb_lt in Hlt as Hb. rewrite Hb.
    cbn [all_chars]. rewrite digit_char_decimal by lia. reflexivity.
  - rewrite digits_of_S. destruct (n <? 10) eqn:Hb.
    + apply Z.ltb_lt in Hb. cbn [all_chars].
      rewrite digit_char_decimal by lia. reflexivity.
    + rewrite all_chars_app.
      rewrite IH by (apply (div_radix_bound 10); [lia | exact Hn]).
      cbn [all_chars].
      pose proof (Z.mod_pos_bound n 10 ltac:(lia)) as Hm.
      rewrite digit_char_decimal by lia. reflexivity.
Qed.

Lemma digits_decimal (n : Z) :
  0 <= n -> all_chars is_decimal (JS.digits 10 n) = true.
Proof. intro H0. apply digits_of_decimal, log2_fuel, H0. Qed.

Lemma digits_nonempty (n : Z) : JS.digits 10 n <> "".
Proof.
  unfold JS.digits. rewrite digits_of_S.
  destruct (n <? 10); [discriminate |].
  destruct (JS.digits_of 10 _ _); discriminate.
Qed.

(** What a decimal digit is not. *)
Lemma decimal_char_facts (c : ascii) :
  is_decimal c = true ->
  JS.isWhiteSpace c = false
  /\ Ascii.eqb c "-"%char = false
  /\ Ascii.eqb c "+"%char = false
  /\ JS.is_x c = false
  /\ is_not ":" c = true
  /\ is_not " " c = true.
Proof.
  destruct c as [[] [] [] [] [] [] [] []]; intro H;
    try discriminate H; repeat split; reflexivity.
Qed.

(** [parseInt] reads back what [toString] prints, with the radix 10 or
    with the radix left out. *)
Lemma parseInt_toString (z radix : Z) :
  radix = 10 \/ radix = 0 ->
  JS.parseInt (JS.toString 10 z) radix = Some z.
Proof.
  intro Hr.
  assert (Hgen : forall n sign,
            0 <= n ->
            JS.parseUnsigned sign (JS.digits 10 n) radix = Some (sign * n)).
  { intros n sign Hn.
    pose proof (digits_decimal n Hn) as Hdec.
    pose proof (parse_digits_digits 10 ltac:(lia) n Hn) as Hparse.
    unfold JS.parseUnsigned.
    assert (Hr0 : (if radix =? 0 then 10 else radix) = 10)
      by (destruct Hr; subst radix; reflexivity).
    assert (Hguard : negb (radix =? 0) && ((radix <? 2) || (36 <? radix)) = false)
      by (destruct Hr; subst radix; reflexivity).
    rewrite Hguard. cbv zeta. rewrite Hr0.
    destruct (JS.digits 10 n) as [| c0 [| c1 rest]].
    - now rewrite Hparse.
    - now rewrite Hparse.
    - cbn [all_chars] in Hdec.
      apply andb_true_iff in Hdec as [_ Hdec].
      apply andb_true_iff in Hdec as [Hc1 _].
      destruct (decimal_char_facts c1 Hc1) as (_ & _ & _ & Hx & _).
      rewrite Hx, andb_false_r. now rewrite Hparse. }
  unfold JS.parseInt, JS.toString.
  destruct (z <? 0) eqn:Hz.
  - apply Z.ltb_lt in Hz.
    cbn [JS.trimStart]. change (JS.isWhiteSpace "-") with false. cbv iota.
    change (Ascii.eqb "-" "-") with true. cbv iota.
    rewrite Hgen by lia. f_equal. lia.
  - apply Z.ltb_ge in Hz.
    pose proof (digits_decimal z Hz) as Hdec.
    pose proof (digits_nonempty z) as Hne.
    pose proof (Hgen z 1 Hz) as Hg.
    destruct (JS.digits 10 z) as [| c rest] eqn:Hd; [now elim Hne |].
    cbn [all_chars] in Hdec. apply andb_true_iff in Hdec as [Hc _].
    destruct (decimal_char_facts c Hc) as (Hw & Hm & Hp & _).
    cbn [JS.trimStart]. rewrite Hw, Hm, Hp, Hg. f_equal. lia.
Qed.

Lemma toString_inj (a b : Z) : JS.toString 10 a = JS.toString 10 b -> a = b.
Proof.
  intro H.
  pose proof (parseInt_toString a 10 (or_introl eq_refl)) as Ha.
  rewrite H, parseInt_toString in Ha by now left.
  now injection Ha.
Qed.

End Decimal.

(** ** Little-endian encoding *)

Section LittleEndian.

Lemma byte_at_div (v : Z) (i : nat) :
  JS.byte_at v i = (v mod 2 ^ 64 / 256 ^ Z.of_nat i) mod 256.
Proof.
  unfold JS.byte_at.
  change 255 with (Z.ones 8).
  rewrite Z.land_ones by lia.
  rewrite Z.shiftr_div_pow2 by lia.
  rewrite Z.pow_mul_r by lia. reflexivity.
Qed.

Lemma le_encode_nth (n : nat) :
  forall w, le_encode n w
            = map (fun i => (w / 256 ^ Z.of_nat i) mod 256) (seq 0 n).
Proof.
  induction n as [| n IH]; intro w; [reflexivity |].
  cbn [le_encode seq map]. f_equal.
  - now rewrite Z.div_1_r.
  - rewrite IH, <- seq_shift, map_map.
    apply map_ext. intro i.
    rewrite Z.div_div by lia.
    rewrite Nat2Z.inj_succ, Z.pow_succ_r by lia. reflexivity.
Qed.

Lemma littleEndianBytes_encode (v : Z) :
  JS.littleEndianBytes v = le_encode 8 (v mod 2 ^ 64).
Proof.
  unfold JS.littleEndianBytes. rewrite le_encode_nth.
  apply map_ext. intro i. apply byte_at_div.
Qed.



Lemma le_encode_length (n : nat) : forall w, List.length (le_encode n w) = n.
Proof. induction n as [| n IH]; intro w; cbn; [| rewrite IH]; reflexivity. Qed.

(** A byte prints as two hexadecimal digits that read back as the byte. *)
Lemma hex2_roundtrip (b : Z) :
  0 <= b < 256 ->
  String.length (hex2 b) = 2%nat /\ JS.parseInt (hex2 b) 16 = Some b.
Proof.
  intro Hb.
  pose proof (forall_below
    (fun b => Nat.eqb (String.length (hex2 b)) 2
              && match JS.parseInt (hex2 b) 16 with
                 | Some b' => b' =? b
                 | None => false
                 end) 256 ltac:(vm_compute; reflexivity) b Hb) as H.
  cbv beta in H. apply andb_true_iff in H as [Hl Hp].
  apply Nat.eqb_eq in Hl. split; [exact Hl |].
  destruct (JS.parseInt (hex2 b) 16); [| discriminate].
  apply Z.eqb_eq in Hp. now subst.
Qed.

End LittleEndian.



(** ** The parameter handlers *)

Section Handlers.

Lemma array_get_set (arr : list (option Z)) (i : nat) (v : Z) :
  array_get (array_set arr i v) i = Some v.
Proof.
  revert arr. induction i as [| i IH]; intros [| x arr]; cbn; try reflexivity.
  - apply (IH []).
  - apply IH.
Qed.

Lemma array_get_nil (j : nat) : array_get [] j = None.
Proof. now destruct j. Qed.

Lemma array_get_cons (x : option Z) (arr : list (option Z)) (j : nat) :
  array_get (x :: arr) (S j) = array_get arr j.
Proof. reflexivity. Qed.

Lemma array_set_other (arr : list (option Z)) (i j : nat) (v : Z) :
  i <> j -> array_get (array_set arr i v) j = array_get arr j.
Proof.
  revert arr j. induction i as [| i IH]; intros [| x arr] [| j] Hij;
    try (now elim Hij); cbn [array_set]; try reflexivity.
  - rewrite array_get_cons. now rewrite !array_get_nil.
  - rewrite array_get_cons, IH by lia. now rewrite !array_get_nil.
  - rewrite !array_get_cons. apply IH. lia.
Qed.

Lemma clampAccounts_range (value : option Z) : 0 <= clampAccounts value <= 64.
Proof. destruct value as [v |]; cbn; lia. Qed.

Lemma resizeSizes_eq (prev : list (option Z)) (n : Z) :
  resizeSizes prev n
  = firstn (Z.to_nat n) prev
    ++ repeat (Some 32) (Z.to_nat n - List.length prev).
Proof.
  unfold resizeSizes, slice0, pushDefaults.
  rewrite firstn_app. f_equal.
  rewrite firstn_all2; [reflexivity |].
  rewrite repeat_length. lia.
Qed.

Lemma resizeSizes_length (prev : list (option Z)) (n : Z) :
  List.length (resizeSizes prev n) = Z.to_nat n.
Proof.
  rewrite resizeSizes_eq, length_app, length_firstn, repeat_length. lia.
Qed.

End Handlers.



(** X20. The initial state has one entry per account, and the handlers keep
    it so: the count handler resizes the array, and the data size handler
    writes at the index of an existing account. *)
Lemma sizesInSync_reachable (st : State) (targetValue : string) (index : nat) :
  sizesInSync initialState
  /\ sizesInSync (handleNumberOfAccountsChange st targetValue)
  /\ (sizesInSync st -> (index < Z.to_nat (numberOfAccounts st))%nat ->
      sizesInSync (handleAccountDataSizeChange st targetValue index))
  /\ (sizesInSync st ->
      sizesInSync (handleInstructionDataSizeChange st targetValue)).
Proof.
  assert (Hlen : forall (arr : list (option Z)) (i : nat) (v : Z),
            (i < List.length arr)%nat ->
            List.length (array_set arr i v) = List.length arr).
  { intros arr i v. revert arr.
    induction i as [| i IH]; intros [| x arr] Hi; cbn in Hi |- *;
      try lia; try reflexivity.
    rewrite IH by lia. reflexivity. }
  unfold sizesInSync. repeat split.
  - cbn. lia.
  - apply clampAccounts_range.
  - cbn [accountDataSizes numberOfAccounts handleNumberOfAccountsChange].
    apply resizeSizes_length.
  - cbn. tauto.
  - destruct H as [_ Hs]. cbn. rewrite Hlen by lia. exact Hs.
  - cbn. tauto.
  - cbn. tauto.
Qed.

(** C9. Changing the account count from [m] to [n] keeps the first
    [min m n] account data sizes: growing appends one 32 per new account,
    shrinking truncates to [n] entries; from the sizes [a; b], going to 5
    gives [a; b; 32; 32; 32] and going back to 2 gives [a; b] again. *)
Theorem count_change_preserves_sizes (st : State) (targetValue : string) :
  sizesInSync st ->
  let m := numberOfAccounts st in
  let st' := handleNumberOfAccountsChange st targetValue in
  let n := numberOfAccounts st' in
  sizesInSync st'
  /\ (forall i : nat, (i < Z.to_nat (Z.min m n))%nat ->
      nth_error (accountDataSizes st') i = nth_error (accountDataSizes st) i)
  /\ (m <= n ->
      accountDataSizes st'
      = accountDataSizes st ++ repeat (Some 32) (Z.to_nat (n - m)))
  /\ (n <= m ->
      accountDataSizes st' = firstn (Z.to_nat n) (accountDataSizes st))
  /\ (forall a b : option Z, accountDataSizes st = [a; b] ->
      accountDataSizes (handleNumberOfAccountsChange st "5")
      = [a; b; Some 32; Some 32; Some 32]
      /\ accountDataSizes
           (handleNumberOfAccountsChange
              (handleNumberOfAccountsChange st "5") "2") = [a; b]).
Proof.
  intros [Hm0 Hsync] m st' n. unfold sizesInSync in *.
  assert (Hn : 0 <= n <= 64) by apply clampAccounts_range.
  assert (Hnew : accountDataSizes st' = resizeSizes (accountDataSizes st) n)
    by reflexivity.
  assert (Hm : Z.to_nat m = List.length (accountDataSizes st))
    by (symmetry; exact Hsync).
  assert (Hnn : numberOfAccounts st' = n) by reflexivity.
  fold m in Hm0. clearbody m n.
  repeat split.
  - lia.
  - rewrite Hnew, Hnn. apply resizeSizes_length.
  - intros i Hi. rewrite Hnew, resizeSizes_eq.
    rewrite nth_error_app1 by (rewrite length_firstn; lia).
    rewrite nth_error_firstn.
    destruct (Nat.ltb_spec i (Z.to_nat n)); [reflexivity | lia].
  - intro Hle. rewrite Hnew, resizeSizes_eq.
    rewrite firstn_all2 by lia. f_equal. f_equal. lia.
  - intro Hle. rewrite Hnew, resizeSizes_eq.
    replace (Z.to_nat n - List.length (accountDataSizes st))%nat with 0%nat
      by lia.
    apply app_nil_r.
  - cbn. rewrite H. reflexivity.
  - cbn. rewrite H. reflexivity.
Qed.

(** From two accounts with sizes 32 and 77 to five accounts. *)
Lemma count_change_preserves_sizes_witness :
  accountDataSizes
    (handleNumberOfAccountsChange
       (handleAccountDataSizeChange
          (handleNumberOfAccountsChange initialState "2") "77" 1) "5")
  = [Some 32; Some 77; Some 32; Some 32; Some 32].
Proof.
  assert (Hsync : sizesInSync
                    (handleAccountDataSizeChange
                       (handleNumberOfAccountsChange initialState "2") "77" 1))
    by (split; [vm_compute; discriminate | vm_compute; reflexivity]).
  destruct (count_change_preserves_sizes _ "5" Hsync) as (_ & _ & Hgrow & _).
  apply Hgrow. vm_compute. discriminate.
Defined.

(** ** Sums and offsets over a region list *)

Section Offsets.

Lemma fold_sizes_from (l : list Region) (a : Z) :
  fold_left (fun sum region => sum + size region) l a = a + sumSizes l.
Proof.
  unfold sumSizes. revert a.
  induction l as [| r l IH]; intro a; cbn [fold_left]; [lia |].
  rewrite IH, (IH (0 + size r)). lia.
Qed.

Lemma sumSizes_nil : sumSizes [] = 0.
Proof. reflexivity. Qed.

Lemma sumSizes_cons (r : Region) (l : list Region) :
  sumSizes (r :: l) = size r + sumSizes l.
Proof. unfold sumSizes at 1. cbn [fold_left]. rewrite fold_sizes_from. lia. Qed.

Lemma sumSizes_app (l1 l2 : list Region) :
  sumSizes (l1 ++ l2) = sumSizes l1 + sumSizes l2.
Proof.
  induction l1 as [| r l1 IH]; cbn [app].
  - rewrite sumSizes_nil. lia.
  - rewrite !sumSizes_cons, IH. lia.
Qed.

Lemma sumSizes_nonneg (l : list Region) :
  Forall (fun r => 0 <= size r) l -> 0 <= sumSizes l.
Proof.
  induction 1 as [| r l Hr _ IH]; [rewrite sumSizes_nil; lia |].
  rewrite sumSizes_cons. lia.
Qed.

(** The scan stops at the first region with the name, whatever comes
    after it. *)
Lemma regionOffsetFrom_first (l1 : list Region) :
  forall (offset : Z) (r : Region) (l2 : list Region) (regionName : string),
    name r = regionName ->
    (forall x, In x l1 -> name x <> regionName) ->
    regionOffsetFrom offset (l1 ++ r :: l2) regionName = offset + sumSizes l1.
Proof.
  induction l1 as [| x l1 IH]; intros offset r l2 regionName Hr Hl1.
  - cbn [app regionOffsetFrom]. rewrite <- Hr, String.eqb_refl, sumSizes_nil. lia.
  - cbn [app regionOffsetFrom].
    assert (Hx : name x <> regionName) by (apply Hl1; now left).
    apply String.eqb_neq in Hx. rewrite Hx.
    rewrite IH; [rewrite sumSizes_cons; lia | exact Hr |].
    intros y Hy. apply Hl1. now right.
Qed.

Lemma regionOffsetFrom_none (l : list Region) :
  forall (offset : Z) (regionName : string),
    (forall x, In x l -> name x <> regionName) ->
    regionOffsetFrom offset l regionName = -1.
Proof.
  induction l as [| x l IH]; intros offset regionName Hl; [reflexivity |].
  cbn [regionOffsetFrom].
  assert (Hx : name x <> regionName) by (apply Hl; now left).
  apply String.eqb_neq in Hx. rewrite Hx.
  apply IH. intros y Hy. apply Hl. now right.
Qed.

(** With distinct names, the offset of a region is the total size of the
    regions before it. *)
Lemma regionOffsetFrom_nodup (l1 l2 : list Region) (r : Region) :
  NoDup (map name (l1 ++ r :: l2)) ->
  regionOffsetFrom 0 (l1 ++ r :: l2) (name r) = sumSizes l1.
Proof.
  intro Hnd. rewrite regionOffsetFrom_first; [lia | reflexivity |].
  intros x Hx Heq.
  rewrite map_app in Hnd. cbn [map] in Hnd.
  apply NoDup_remove_2 in Hnd. apply Hnd.
  apply in_or_app. left. rewrite <- Heq. now apply in_map.
Qed.

End Offsets.

(** ** Region names *)

Section Names.

Lemma prefix_iff (p s : string) :
  String.prefix p s = true <-> exists r, s = (p ++ r)%string.
Proof.
  revert s. induction p as [| c p IH]; intro s.
  - split; [intros _; now exists s | intros _; now destruct s].
  - destruct s as [| d s]; cbn [String.prefix append].
    + split; [discriminate | intros [r Hr]; discriminate].
    + destruct (ascii_dec c d) as [-> | Hne].
      * rewrite IH. split; intros [r Hr]; exists r.
        -- now rewrite Hr.
        -- now injection Hr.
      * split; [discriminate |].
        intros [r Hr]. injection Hr as Hc _. now elim Hne.
Qed.

Lemma toString_chars (k : Z) :
  all_chars (is_not ":") (JS.toString 10 k) = true
  /\ all_chars (is_not " ") (JS.toString 10 k) = true.
Proof.
  assert (Hdig : forall n, 0 <= n ->
            all_chars (is_not ":") (JS.digits 10 n) = true
            /\ all_chars (is_not " ") (JS.digits 10 n) = true).
  { intros n Hn. pose proof (digits_decimal n Hn) as Hd.
    split; (eapply all_chars_weaken; [| exact Hd]);
      intros c Hc; now destruct (decimal_char_facts c Hc) as (_ & _ & _ & _ & ? & ?). }
  unfold JS.toString. destruct (k <? 0) eqn:Hk.
  - apply Z.ltb_lt in Hk. cbn [all_chars].
    destruct (Hdig (- k) ltac:(lia)) as [H1 H2]. now rewrite H1, H2.
  - apply Z.ltb_ge in Hk. now apply Hdig.
Qed.

Lemma accountName_prefix (k : Z) (base : string) :
  accountName k base = (unitPrefix k ++ base)%string.
Proof.
  unfold accountName, unitPrefix. cbn [append].
  now rewrite !append_assoc.
Qed.

(** A name that starts with the prefix of account [k] is a name of
    account [k]. *)
Lemma unitPrefix_owner (k j : Z) (r base : string) :
  (unitPrefix k ++ r)%string = accountName j base -> k = j /\ r = base.
Proof.
  unfold unitPrefix, accountName. cbn [append]. intro H.
  injection H as H.
  rewrite append_assoc in H. cbn [append] in H.
  destruct (toString_chars k) as [Hk _], (toString_chars j) as [Hj _].
  destruct (append_sep_inj ":" _ _ _ _ Hk Hj H) as [Hd Hr].
  split; [now apply toString_inj |].
  now injection Hr.
Qed.

Lemma accountName_inj (k j : Z) (a b : string) :
  accountName k a = accountName j b -> k = j /\ a = b.
Proof. rewrite accountName_prefix. apply unitPrefix_owner. Qed.


End Names.

(** ** The structure of the expanded layout *)

Section Structure.

Lemma baseNames_nodup : NoDup baseNames.
Proof.
  unfold baseNames. cbn.
  repeat (constructor; [cbn; intuition discriminate |]). constructor.
Qed.

Lemma accountRegionsOf_names (sizes : list (option Z)) (index : nat) :
  map name (accountRegionsOf sizes index)
  = map (accountName (Z.of_nat index + 1)) baseNames.
Proof. reflexivity. Qed.


Lemma templateTotal_eq (dataSize : Z) : templateTotal dataSize = 10336 + dataSize.
Proof.
  unfold templateTotal. cbv -[Z.add]. lia.
Qed.

Lemma accountRegionsOf_total (sizes : list (option Z)) (index : nat) :
  sumSizes (accountRegionsOf sizes index)
  = templateTotal (effectiveSize sizes index).
Proof.
  rewrite templateTotal_eq. unfold effectiveSize, accountRegionsOf.
  generalize (or_32 (array_get sizes index)). intro dataSize.
  cbn [ACCOUNT_REGIONS map].
  rewrite !sumSizes_cons, sumSizes_nil.
  cbn [size mkRegion]. cbv [name mkRegion]. cbv -[Z.add]. lia.
Qed.

Lemma fixedTotal_eq (isz : Z) : fixedTotal isz = 8 + (8 + isz + 32).
Proof.
  unfold fixedTotal. cbv -[Z.add]. lia.
Qed.

Lemma accountRegions_succ (m : nat) (sizes : list (option Z)) :
  flat_map (accountRegionsOf sizes) (seq 0 (S m))
  = flat_map (accountRegionsOf sizes) (seq 0 m) ++ accountRegionsOf sizes m.
Proof.
  rewrite seq_S, flat_map_app. cbn [flat_map Nat.add]. now rewrite app_nil_r.
Qed.

Lemma accountRegions_total (m : nat) (sizes : list (option Z)) :
  sumSizes (flat_map (accountRegionsOf sizes) (seq 0 m))
  = sumOver (fun index => templateTotal (effectiveSize sizes index)) m.
Proof.
  induction m as [| m IH]; [reflexivity |].
  rewrite accountRegions_succ, sumSizes_app, IH, accountRegionsOf_total.
  reflexivity.
Qed.


(** Every region of the repeated part belongs to one account and one
    template region. *)
Lemma accountRegions_names_in (m : nat) (sizes : list (option Z)) (x : string) :
  In x (map name (flat_map (accountRegionsOf sizes) (seq 0 m))) ->
  exists (index : nat) (base : string),
    (index < m)%nat /\ In base baseNames
    /\ x = accountName (Z.of_nat index + 1) base.
Proof.
  intro Hx. apply in_map_iff in Hx as (r & Hr & Hin).
  apply in_flat_map in Hin as (index & Hidx & Hin).
  apply in_seq in Hidx.
  assert (Hn : In x (map name (accountRegionsOf sizes index)))
    by (rewrite <- Hr; now apply in_map).
  rewrite accountRegionsOf_names in Hn.
  apply in_map_iff in Hn as (base & Hb & Hbase).
  exists index, base. repeat split; [lia | exact Hbase | now symmetry].
Qed.

Lemma accountRegionsOf_names_nodup (sizes : list (option Z)) (index : nat) :
  NoDup (map name (accountRegionsOf sizes index)).
Proof.
  rewrite accountRegionsOf_names.
  apply NoDup_map_NoDup_ForallPairs; [| apply baseNames_nodup].
  intros a b _ _ H. now apply accountName_inj in H.
Qed.

Lemma accountRegions_names_nodup (m : nat) (sizes : list (option Z)) :
  NoDup (map name (flat_map (accountRegionsOf sizes) (seq 0 m))).
Proof.
  induction m as [| m IH]; [constructor |].
  rewrite accountRegions_succ, map_app.
  apply NoDup_app; [exact IH | apply accountRegionsOf_names_nodup |].
  intros x Hx Hx'.
  apply accountRegions_names_in in Hx as (i & b & Hi & _ & Hxi).
  rewrite accountRegionsOf_names in Hx'.
  apply in_map_iff in Hx' as (b' & Hb' & _).
  rewrite Hxi in Hb'. apply accountName_inj in Hb' as [Hk _]. lia.
Qed.

Lemma accountName_head (k : Z) (base : string) :
  exists rest, accountName k base = String "A" rest.
Proof. unfold accountName. cbn [append]. eauto. Qed.

(** The regions of the expanded layout have pairwise distinct names. *)
Lemma programInputRegions_names_nodup (st : State) :
  NoDup (map name (programInputRegions st)).
Proof.
  unfold programInputRegions, accountRegions.
  set (accounts := flat_map _ _).
  assert (Hacc : forall x, In x (map name accounts) ->
            exists rest, x = String "A" rest).
  { intros x Hx. apply accountRegions_names_in in Hx as (i & b & _ & _ & ->).
    apply accountName_head. }
  assert (Htail : NoDup ["Instruction data size"; "Instruction data";
                         "Program ID"]).
  { repeat (constructor; [cbn; intuition discriminate |]). constructor. }
  cbn [PROGRAM_REGIONS firstn skipn app map].
  rewrite map_app. constructor.
  - intro Hin. apply in_app_or in Hin as [Hin | Hin].
    + apply Hacc in Hin as [rest Hrest]. discriminate.
    + cbn in Hin. intuition discriminate.
  - apply NoDup_app.
    + apply accountRegions_names_nodup.
    + exact Htail.
    + intros x Hx Hx'. apply Hacc in Hx as [rest ->].
      cbn in Hx'. intuition discriminate.
Qed.

End Structure.

(** ** The expansion *)

Section Expansion.

Lemma filter_all {A : Type} (p : A -> bool) (l : list A) :
  (forall x, In x l -> p x = true) -> filter p l = l.
Proof.
  induction l as [| a l IH]; intro H; [reflexivity |].
  cbn [filter]. rewrite (H a (or_introl eq_refl)). f_equal.
  apply IH. intros x Hx. apply H. now right.
Qed.

Lemma filter_none {A : Type} (p : A -> bool) (l : list A) :
  (forall x, In x l -> p x = false) -> filter p l = [].
Proof.
  induction l as [| a l IH]; intro H; [reflexivity |].
  cbn [filter]. rewrite (H a (or_introl eq_refl)).
  apply IH. intros x Hx. apply H. now right.
Qed.

(** Whether a region name carries the prefix of account [k]. *)
Lemma unitPrefix_of_account (k j : Z) (base : string) :
  String.prefix (unitPrefix k) (accountName j base) = true <-> k = j.
Proof.
  rewrite prefix_iff. split.
  - intros [r Hr]. symmetry in Hr. now apply unitPrefix_owner in Hr.
  - intros ->. exists base. apply accountName_prefix.
Qed.

Lemma unitPrefix_not_fixed (k : Z) (s : string) :
  In s ["Number of accounts"; "Instruction data size"; "Instruction data";
        "Program ID"] ->
  String.prefix (unitPrefix k) s = false.
Proof.
  intro Hs. destruct (String.prefix (unitPrefix k) s) eqn:E; [| reflexivity].
  apply prefix_iff in E as [r Hr].
  unfold unitPrefix in Hr. cbn [append] in Hr.
  cbn in Hs. destruct Hs as [<- | [<- | [<- | [<- | []]]]]; discriminate.
Qed.

Lemma accountRegionsOf_name_in (sizes : list (option Z)) (index : nat)
    (r : Region) :
  In r (accountRegionsOf sizes index) ->
  exists base, In base baseNames
               /\ name r = accountName (Z.of_nat index + 1) base.
Proof.
  intro Hr. apply (in_map name) in Hr.
  rewrite accountRegionsOf_names in Hr.
  apply in_map_iff in Hr as (base & Hb & Hin). exists base. now split.
Qed.

(** Selecting by the prefix of one account returns that account's
    instantiation of the template, and nothing else. *)
Lemma filter_unit_accounts (sizes : list (option Z)) (index m : nat) :
  filter (fun r => String.prefix (unitPrefix (Z.of_nat index + 1)) (name r))
         (flat_map (accountRegionsOf sizes) (seq 0 m))
  = if (index <? m)%nat then accountRegionsOf sizes index else [].
Proof.
  induction m as [| m IH]; [reflexivity |].
  rewrite accountRegions_succ, filter_app, IH.
  destruct (Nat.eq_dec index m) as [-> | Hne].
  - rewrite Nat.ltb_irrefl.
    destruct (Nat.ltb_spec m (S m)) as [_ | Hge]; [| lia].
    cbn [app]. apply filter_all. intros r Hr.
    apply accountRegionsOf_name_in in Hr as (base & _ & ->).
    now apply unitPrefix_of_account.
  - rewrite filter_none.
    + rewrite app_nil_r.
      destruct (Nat.ltb_spec index m), (Nat.ltb_spec index (S m));
        try reflexivity; lia.
    + intros r Hr. apply accountRegionsOf_name_in in Hr as (base & _ & ->).
      destruct (String.prefix _ _) eqn:E; [| reflexivity].
      apply unitPrefix_of_account in E. lia.
Qed.

Lemma filter_unit_layout (st : State) (index : nat) :
  (index < Z.to_nat (numberOfAccounts st))%nat ->
  filter (fun r => String.prefix (unitPrefix (Z.of_nat index + 1)) (name r))
         (programInputRegions st)
  = accountRegionsOf (accountDataSizes st) index.
Proof.
  intro Hidx. unfold programInputRegions, accountRegions.
  rewrite !filter_app, filter_unit_accounts.
  apply Nat.ltb_lt in Hidx. rewrite Hidx.
  rewrite !filter_none; [now rewrite app_nil_r | |];
    intros r Hr; apply unitPrefix_not_fixed.
  - apply in_map_iff in Hr as (r0 & <- & Hr0).
    cbn in Hr0. destruct Hr0 as [<- | [<- | [<- | []]]]; cbn; tauto.
  - cbn in Hr. destruct Hr as [<- | []]. cbn. tauto.
Qed.

Lemma totalNamedRegionSize_eq (st : State) :
  totalNamedRegionSize st
  = fixedTotal (instructionDataSize st)
    + sumOver (fun index =>
                 templateTotal (effectiveSize (accountDataSizes st) index))
              (Z.to_nat (numberOfAccounts st)).
Proof.
  unfold totalNamedRegionSize, programInputRegions, accountRegions, fixedTotal.
  rewrite !sumSizes_app, accountRegions_total. lia.
Qed.

End Expansion.




(** ** Offsets *)

Section Adjacency.

Lemma or_32_nonneg (v : option Z) :
  match v with Some z => 0 <= z | None => True end -> 0 <= or_32 v.
Proof.
  destruct v as [z |]; cbn; [| lia].
  destruct (z =? 0); lia.
Qed.

Lemma array_get_Forall (P : option Z -> Prop) (arr : list (option Z)) (i : nat) :
  P None -> Forall P arr -> P (array_get arr i).
Proof.
  intros Hnone Hall. unfold array_get.
  destruct (nth_error arr i) as [v |] eqn:E; [| exact Hnone].
  rewrite Forall_forall in Hall. apply Hall. eapply nth_error_In, E.
Qed.

Lemma programInputRegions_nonneg (st : State) :
  sizesNonNegative st -> Forall (fun r => 0 <= size r) (programInputRegions st).
Proof.
  intros [Hi Hs]. unfold programInputRegions, accountRegions.
  apply Forall_app. split; [| apply Forall_app; split].
  - cbn. repeat constructor; cbn; lia.
  - apply Forall_flat_map. apply Forall_forall. intros index _.
    assert (He : 0 <= or_32 (array_get (accountDataSizes st) index)).
    { apply or_32_nonneg.
      apply (array_get_Forall
               (fun v => match v with Some z => 0 <= z | None => True end));
        [exact I | exact Hs]. }
    unfold accountRegionsOf. cbn. repeat constructor; cbn; lia.
  - cbn. repeat constructor; cbn; lia.
Qed.

End Adjacency.




(** ** Recovering the account from a focused name *)

Section Focus.

Lemma toString_shape (k : Z) :
  all_chars is_decimal_or_minus (JS.toString 10 k) = true
  /\ JS.toString 10 k <> "".
Proof.
  assert (Hdig : forall n, 0 <= n ->
            all_chars is_decimal_or_minus (JS.digits 10 n) = true).
  { intros n Hn. eapply all_chars_weaken; [| apply digits_decimal, Hn].
    intros c Hc. unfold is_decimal_or_minus. now rewrite Hc. }
  unfold JS.toString. destruct (k <? 0) eqn:Hk.
  - apply Z.ltb_lt in Hk. split; [| discriminate].
    cbn [all_chars]. rewrite Hdig by lia. reflexivity.
  - apply Z.ltb_ge in Hk. split; [now apply Hdig | apply digits_nonempty].
Qed.

Lemma accountName_split (k : Z) (base : string) :
  accountName k base
  = (("Account" ++ String " " (JS.toString 10 k))
       ++ String ":" (String " " base))%string.
Proof.
  unfold accountName. cbn [append]. reflexivity.
Qed.

(** The account index the component parses out of the name of a region
    of account [k] is [k - 1]. *)
Lemma accountIndexOf_accountName (k : Z) (base : string) :
  accountIndexOf (accountName k base) = Some (k - 1).
Proof.
  destruct (toString_chars k) as [Hcolon Hspace].
  unfold accountIndexOf.
  rewrite accountName_split, split_app.
  - cbn [nth_error]. rewrite split_app by reflexivity.
    rewrite split_no_sep by exact Hspace.
    cbn [nth_error]. now rewrite parseInt_toString by now right.
  - rewrite all_chars_app. cbn [all_chars]. rewrite Hcolon. reflexivity.
Qed.

Lemma includes_data_size (k : Z) :
  JS.includes "Account data size" (accountName k "Account data size") = true.
Proof.
  rewrite accountName_prefix.
  rewrite <- (append_nil_r "Account data size") at 2.
  apply includes_app.
Qed.

(** The name the component looks up for a focused account data size
    field is the focused name. *)
Lemma focused_lookup_name (k : Z) :
  ("Account " ++ unitString (accountIndexOf (accountName k "Account data size"))
   ++ ": Account data size")%string
  = accountName k "Account data size".
Proof.
  rewrite accountIndexOf_accountName. unfold unitString, accountName.
  now replace (k - 1 + 1) with k by lia.
Qed.

Lemma array_get_number_index (arr : list (option Z)) (k : Z) :
  1 <= k -> array_get_number arr (Some (k - 1)) = array_get arr (Z.to_nat (k - 1)).
Proof.
  intro Hk. unfold array_get_number.
  destruct (k - 1 <? 0) eqn:E; [apply Z.ltb_lt in E; lia | reflexivity].
Qed.

Lemma prefix_head_eq (a : ascii) (n rest : string) :
  String.prefix (String a n) (String a rest) = String.prefix n rest.
Proof.
  cbn [String.prefix]. destruct (ascii_dec a a) as [_ | Hne];
    [reflexivity | now elim Hne].
Qed.

Lemma prefix_head_ne (a c : ascii) (n rest : string) :
  Ascii.eqb a c = false -> String.prefix (String a n) (String c rest) = false.
Proof.
  intro Hne. cbn [String.prefix]. destruct (ascii_dec a c) as [-> | _];
    [| reflexivity].
  now rewrite Ascii.eqb_refl in Hne.
Qed.

(** A needle that starts with "A" is not found in a stretch without
    "A". *)
Lemma includes_skip (needle p s : string) :
  all_chars (is_not "A") p = true ->
  JS.includes (String "A" needle) (p ++ s) = JS.includes (String "A" needle) s.
Proof.
  induction p as [| c p IH]; intro Hp; [reflexivity |].
  cbn [all_chars] in Hp. apply andb_true_iff in Hp as [Hc Hp].
  cbn [append JS.includes].
  unfold is_not in Hc. apply negb_true_iff in Hc.
  rewrite prefix_head_ne by (now rewrite Ascii.eqb_sym).
  now rewrite IH.
Qed.

(** Among the regions of an account only its data size field has a name
    that includes "Account data size". *)
Lemma includes_data_size_base (k : Z) (base : string) :
  In base baseNames ->
  JS.includes "Account data size" (accountName k base)
  = String.eqb base "Account data size".
Proof.
  intro Hbase.
  destruct (toString_shape k) as [Hshape Hne].
  assert (HnotA : all_chars (is_not "A") (JS.toString 10 k) = true).
  { eapply all_chars_weaken; [| exact Hshape].
    intros [[] [] [] [] [] [] [] []] Hc; try discriminate Hc; reflexivity. }
  destruct (JS.toString 10 k) as [| d digits] eqn:Hd; [now elim Hne |].
  cbn [all_chars] in Hshape. apply andb_true_iff in Hshape as [Hd0 _].
  assert (Hnotd : Ascii.eqb "d" d = false).
  { destruct d as [[] [] [] [] [] [] [] []]; try discriminate Hd0; reflexivity. }
  assert (Hname : accountName k base
                  = String "A" (("ccount " ++ String d digits ++ ": ") ++ base)).
  { unfold accountName. rewrite Hd. cbn [append].
    now rewrite !append_assoc. }
  rewrite Hname. cbn [JS.includes].
  rewrite includes_skip
    by (rewrite !all_chars_app, HnotA; reflexivity).
  cbn [append]. rewrite !prefix_head_eq, prefix_head_ne by exact Hnotd.
  cbn [orb].
  unfold baseNames in Hbase. cbn in Hbase.
  repeat (destruct Hbase as [<- | Hbase]; [reflexivity |]).
  destruct Hbase.
Qed.

(** The names of the non-repeated regions do not include
    "Account data size". *)
Lemma includes_data_size_fixed (s : string) :
  In s ["Number of accounts"; "Instruction data size"; "Instruction data";
        "Program ID"] ->
  JS.includes "Account data size" s = false.
Proof.
  intro Hs. cbn in Hs.
  repeat (destruct Hs as [<- | Hs]; [reflexivity |]). destruct Hs.
Qed.

End Focus.

(** ** Displayed values *)

Section Values.

Lemma layout_names (st : State) (f : string) :
  In f (map name (programInputRegions st)) ->
  In f ["Number of accounts"; "Instruction data size"; "Instruction data";
        "Program ID"]
  \/ exists (index : nat) (base : string),
       (index < Z.to_nat (numberOfAccounts st))%nat
       /\ In base baseNames
       /\ f = accountName (Z.of_nat index + 1) base.
Proof.
  unfold programInputRegions, accountRegions. rewrite !map_app.
  intro Hin. apply in_app_or in Hin as [Hin | Hin];
    [| apply in_app_or in Hin as [Hin | Hin]].
  - left. cbn in Hin |- *. tauto.
  - right. now apply accountRegions_names_in in Hin.
  - left. cbn in Hin |- *. tauto.
Qed.

Lemma encodedByte_inside (v index offset : Z) :
  offset <= index < offset + 8 ->
  encodedByte v index offset = Some (hex2 (encodedByteOf v (index - offset))).
Proof.
  intro Hin. unfold encodedByte, encodedByteOf.
  destruct (Z.leb_spec offset index); [| lia].
  destruct (Z.ltb_spec index (offset + 8)); [| lia].
  cbn [andb]. do 2 f_equal.
  rewrite <- littleEndianBytes_encode. unfold JS.littleEndianBytes.
  assert (Hj : (Z.to_nat (index - offset) < 8)%nat) by lia.
  revert Hj. generalize (Z.to_nat (index - offset)). intros j Hj.
  do 8 (destruct j as [| j]; [reflexivity |]). lia.
Qed.

Lemma encodedByte_outside (v index offset : Z) :
  ~ (offset <= index < offset + 8) -> encodedByte v index offset = None.
Proof.
  intro Hout. unfold encodedByte.
  destruct (Z.leb_spec offset index), (Z.ltb_spec index (offset + 8));
    try reflexivity. lia.
Qed.

Lemma fillerByte_mod (index : Z) :
  0 <= index -> fillerByte index = hex2 (index mod 256).
Proof.
  intro H. unfold fillerByte, JS.rem. now rewrite Z.rem_mod_nonneg by lia.
Qed.

(** A focused name that passes none of the three tests shows the
    filler. *)
Lemma getMemoryValue_untested (st : State) (index : Z) (f : string) :
  focusedRegion st = Some f ->
  JS.includes "Account data size" f = false ->
  f <> "Instruction data size" ->
  f <> "Number of accounts" ->
  getMemoryValue st index = fillerByte index.
Proof.
  intros Hf Hinc Hi Hn. unfold getMemoryValue. rewrite Hf, Hinc.
  apply String.eqb_neq in Hi, Hn. rewrite Hi, Hn.
  destruct (String.eqb (section_name (selectedSection st)) _); reflexivity.
Qed.

(** What the component computes for a focused region that shows an
    integer. *)
Lemma getMemoryValue_integerBacked (st : State) (index : Z) (f : string) (v : Z) :
  section_name (selectedSection st) = PROGRAM_INPUT ->
  focusedRegion st = Some f ->
  integerBacked st f v ->
  getMemoryValue st index
  = match encodedByte v index (getRegionOffset st f) with
    | Some shown => shown
    | None => fillerByte index
    end.
Proof.
  intros Hsec Hf Hib. unfold getMemoryValue.
  unfold PROGRAM_INPUT in Hsec. rewrite Hsec, String.eqb_refl, Hf.
  destruct Hib as [| | k Hk].
  - reflexivity.
  - reflexivity.
  - rewrite includes_data_size, focused_lookup_name.
    rewrite accountIndexOf_accountName, array_get_number_index by lia.
    reflexivity.
Qed.

(** Inside the 8 bytes of the focused integer-backed region the cell
    shows the byte of the encoding. *)
Lemma integerBacked_shown (st : State) (index : Z) (f : string) (v : Z) :
  section_name (selectedSection st) = PROGRAM_INPUT ->
  focusedRegion st = Some f ->
  integerBacked st f v ->
  getRegionOffset st f <= index < getRegionOffset st f + 8 ->
  getMemoryValue st index
  = hex2 (encodedByteOf v (index - getRegionOffset st f)).
Proof.
  intros Hsec Hf Hib Hspan.
  rewrite (getMemoryValue_integerBacked st index f v Hsec Hf Hib).
  now rewrite encodedByte_inside.
Qed.

Lemma not_integerBacked_untested (st : State) (f : string) :
  In f (map name (programInputRegions st)) ->
  (forall v, ~ integerBacked st f v) ->
  JS.includes "Account data size" f = false
  /\ f <> "Instruction data size"
  /\ f <> "Number of accounts".
Proof.
  intros Hin Hnot. apply layout_names in Hin as [Hfix | Hacc].
  - cbn in Hfix. destruct Hfix as [<- | [<- | [<- | [<- | []]]]].
    + elim (Hnot _ (IB_count st)).
    + elim (Hnot _ (IB_instruction st)).
    + repeat split; discriminate.
    + repeat split; discriminate.
  - destruct Hacc as (i & base & Hi & Hbase & ->).
    destruct (accountName_head (Z.of_nat i + 1) base) as [rest Hrest].
    rewrite includes_data_size_base by exact Hbase.
    split; [| rewrite Hrest; split; discriminate].
    destruct (String.eqb_spec base "Account data size") as [-> | Hne];
      [| reflexivity].
    elim (Hnot _ (IB_account st (Z.of_nat i + 1) ltac:(lia))).
Qed.

Lemma showsFiller_value (st : State) (index : Z) :
  showsFiller st index -> getMemoryValue st index = fillerByte index.
Proof.
  intros [Hnone | [Hsec | [Hlayout | [Htests | Hout]]]].
  - unfold getMemoryValue. rewrite Hnone.
    destruct (String.eqb (section_name (selectedSection st)) _); reflexivity.
  - unfold getMemoryValue. apply String.eqb_neq in Hsec.
    unfold PROGRAM_INPUT in Hsec. now rewrite Hsec.
  - destruct Hlayout as (f & Hf & Hin & Hnot).
    destruct (not_integerBacked_untested st f Hin Hnot) as (H1 & H2 & H3).
    now apply (getMemoryValue_untested st index f).
  - destruct Htests as (f & Hf & H1 & H2 & H3).
    now apply (getMemoryValue_untested st index f).
  - destruct Hout as (f & v & Hf & Hib & Hspan).
    destruct (String.eqb_spec (section_name (selectedSection st)) PROGRAM_INPUT)
      as [Hsec | Hsec].
    + rewrite (getMemoryValue_integerBacked st index f v Hsec Hf Hib).
      now rewrite encodedByte_outside.
    + unfold getMemoryValue. apply String.eqb_neq in Hsec.
      unfold PROGRAM_INPUT in Hsec. now rewrite Hsec.
Qed.

End Values.

(** C3. For a byte offset [index >= 0], when no region is focused, or the
    focused region is not one of the three integer-backed regions, or the
    offset is outside the 8 bytes of the focused integer-backed region
    (or another section is selected), the displayed value is the two hex
    digits of [index mod 256]: the same for every state in which one of
    these cases holds, and the same 256 bytes further on. *)
Theorem filler_value (st : State) (index : Z) :
  0 <= index ->
  showsFiller st index ->
  getMemoryValue st index = hex2 (index mod 256)
  /\ JS.parseInt (getMemoryValue st index) 16 = Some (index mod 256)
  /\ (forall st' : State, showsFiller st' index ->
      getMemoryValue st' index = getMemoryValue st index)
  /\ (forall st' : State, showsFiller st' (index + 256) ->
      getMemoryValue st' (index + 256) = getMemoryValue st index).
Proof.
  intros Hidx Hfill.
  assert (Hval : forall s i, 0 <= i -> showsFiller s i ->
            getMemoryValue s i = hex2 (i mod 256)).
  { intros s i Hi Hs. now rewrite showsFiller_value, fillerByte_mod. }
  rewrite (Hval st index Hidx Hfill).
  split; [reflexivity | split; [| split]].
  - apply hex2_roundtrip. apply Z.mod_pos_bound. lia.
  - intros st' Hfill'. now apply Hval.
  - intros st' Hfill'. rewrite Hval by (lia || exact Hfill').
    f_equal. rewrite <- (Z.mul_1_l 256) at 1. apply Z.mod_add. lia.
Qed.

(** Nothing is focused in the initial state. *)
Lemma filler_value_witness :
  getMemoryValue initialState 100000 = "a0"
  /\ getMemoryValue initialState 257 = "01".
Proof.
  assert (Hfill : forall i, showsFiller initialState i)
    by (intro i; left; reflexivity).
  destruct (filler_value initialState 100000 ltac:(lia) (Hfill _))
    as (H1 & _).
  destruct (filler_value initialState 257 ltac:(lia) (Hfill _)) as (H2 & _).
  exact (conj H1 H2).
Defined.

(** ** Where the regions of an account are *)

Section AccountFields.

Lemma layout_split (st : State) (index : nat) :
  (index < Z.to_nat (numberOfAccounts st))%nat ->
  programInputRegions st
  = (firstn 1 PROGRAM_REGIONS
     ++ flat_map (accountRegionsOf (accountDataSizes st)) (seq 0 index))
    ++ accountRegionsOf (accountDataSizes st) index
    ++ (flat_map (accountRegionsOf (accountDataSizes st))
          (seq (S index) (Z.to_nat (numberOfAccounts st) - S index))
        ++ map (withInstructionDataSize (instructionDataSize st))
             (skipn 1 PROGRAM_REGIONS)).
Proof.
  intro Hidx. unfold programInputRegions, accountRegions.
  replace (Z.to_nat (numberOfAccounts st))
    with (index + S (Z.to_nat (numberOfAccounts st) - S index))%nat at 1 by lia.
  rewrite seq_app, flat_map_app. cbn [seq flat_map Nat.add].
  now rewrite <- !app_assoc.
Qed.

Lemma find_by_name (l : list Region) (r : Region) :
  NoDup (map name l) -> In r l ->
  find (fun x => String.eqb (name x) (name r)) l = Some r.
Proof.
  induction l as [| a l IH]; intros Hnd Hin; [destruct Hin |].
  cbn [find]. cbn [map] in Hnd. apply NoDup_cons_iff in Hnd as [Hna Hnd].
  destruct Hin as [-> | Hin].
  - now rewrite String.eqb_refl.
  - destruct (String.eqb_spec (name a) (name r)) as [Heq | _].
    + elim Hna. rewrite Heq. now apply in_map.
    + now apply IH.
Qed.

Lemma findRegion_in (st : State) (r : Region) :
  In r (programInputRegions st) -> findRegion st (name r) = Some r.
Proof.
  intro Hin. apply find_by_name; [apply programInputRegions_names_nodup | exact Hin].
Qed.


Lemma accountData_in_layout (st : State) (k : Z) :
  1 <= k <= numberOfAccounts st ->
  In (mkRegion (accountName k "Account data")
        (effectiveSize (accountDataSizes st) (Z.to_nat (k - 1)))
        "bg-pink-400" (Some true) false [])
     (programInputRegions st).
Proof.
  intro Hk. rewrite (layout_split st (Z.to_nat (k - 1))) by lia.
  apply in_or_app. right. apply in_or_app. left.
  unfold accountRegionsOf. cbn [ACCOUNT_REGIONS map].
  replace (Z.of_nat (Z.to_nat (k - 1)) + 1) with k by lia.
  do 5 right. left. reflexivity.
Qed.

End AccountFields.

(** C4, as the code has it.  When the section "Program input parameters"
    is selected, the focused region is one of the three integer-backed
    regions and the byte offset is within its 8 bytes, [getMemoryValue]
    shows the corresponding byte of the unsigned 64-bit little-endian
    encoding of the integer's current value (reduced modulo 2^64); the
    current value of an account data size is the stored size, or 32 when
    the stored size is 0 or missing.  At the first byte of the field this
    is the low-order byte of the value. *)
Theorem focused_value (st : State) (index : Z) (f : string) (v : Z) :
  section_name (selectedSection st) = PROGRAM_INPUT ->
  focusedRegion st = Some f ->
  integerBacked st f v ->
  getRegionOffset st f <= index < getRegionOffset st f + 8 ->
  getMemoryValue st index
  = hex2 (encodedByteOf v (index - getRegionOffset st f))
  /\ getMemoryValue st (getRegionOffset st f) = hex2 ((v mod 2 ^ 64) mod 256)
  /\ (0 <= v < 2 ^ 64 ->
      getMemoryValue st index
      = hex2 (nth (Z.to_nat (index - getRegionOffset st f)) (le_encode 8 v) 0)
      /\ getMemoryValue st (getRegionOffset st f) = hex2 (v mod 256)).
Proof.
  intros Hsec Hf Hib Hspan.
  assert (Hat : forall i,
            getRegionOffset st f <= i < getRegionOffset st f + 8 ->
            getMemoryValue st i
            = hex2 (encodedByteOf v (i - getRegionOffset st f))).
  { intros i Hi. now apply integerBacked_shown. }
  assert (Hfirst : getMemoryValue st (getRegionOffset st f)
                   = hex2 ((v mod 2 ^ 64) mod 256)).
  { rewrite Hat by lia. rewrite Z.sub_diag. reflexivity. }
  split; [now apply Hat | split; [exact Hfirst |]].
  intro Hv. split.
  - rewrite Hat by exact Hspan. unfold encodedByteOf.
    now rewrite Z.mod_small by exact Hv.
  - rewrite Hfirst. now rewrite (Z.mod_small v) by exact Hv.
Qed.

(** The data size 1000 = 0x3e8 of account 2, focused, shows e8 at its
    first byte. *)
Lemma focused_value_witness :
  getMemoryValue
    (mkState programInputSection (Some "Account 2: Account data size")
       [Some 32; Some 1000] 32 2) 10456
  = "e8".
Proof.
  pose (st := mkState programInputSection (Some "Account 2: Account data size")
                [Some 32; Some 1000] 32 2).
  assert (Hib : integerBacked st "Account 2: Account data size" 1000).
  { apply (IB_account st 2). vm_compute. split; discriminate. }
  destruct (focused_value st 10456 _ 1000 eq_refl eq_refl Hib
              ltac:(vm_compute; split; [discriminate | reflexivity]))
    as (H & _).
  exact H.
Defined.

(** C4 as stated fails in two ways.  With another section selected the
    focused count field shows the filler: byte 0 reads 00 although the
    count is 1.  And an account data size stored as 0 is shown as 32: the
    first byte of the focused field reads 20, not 00. *)
Lemma focused_value_needs_section_and_default :
  (focusedRegion countFocusedOnStack = Some "Number of accounts"
   /\ numberOfAccounts countFocusedOnStack = 1
   /\ getRegionOffset countFocusedOnStack "Number of accounts" = 0
   /\ getMemoryValue countFocusedOnStack 0 = "00"
   /\ hex2 (nth 0 (le_encode 8 1) 0) = "01")
  /\ (focusedRegion zeroSizeFocused = Some "Account 1: Account data size"
      /\ section_name (selectedSection zeroSizeFocused) = PROGRAM_INPUT
      /\ array_get (accountDataSizes zeroSizeFocused) 0 = Some 0
      /\ getRegionOffset zeroSizeFocused "Account 1: Account data size" = 88
      /\ getMemoryValue zeroSizeFocused 88 = "20"
      /\ hex2 (nth 0 (le_encode 8 0) 0) = "00").
Proof. repeat split. Qed.

(** C10. For an account [k] of the layout whose stored data size is 0 or
    missing, the expansion gives the region "Account k: Account data" the
    size 32, and [getMemoryValue] shows the bytes of 32 (20 at the first
    byte) when the account's data size field is focused; an instruction
    data size of 0 is used as it is, and the region "Instruction data"
    has size 0. *)
Theorem default_data_size (st : State) (k : Z) :
  1 <= k <= numberOfAccounts st ->
  (array_get (accountDataSizes st) (Z.to_nat (k - 1)) = Some 0
   \/ array_get (accountDataSizes st) (Z.to_nat (k - 1)) = None) ->
  option_map size (findRegion st (accountName k "Account data")) = Some 32
  /\ (section_name (selectedSection st) = PROGRAM_INPUT ->
      focusedRegion st = Some (accountName k "Account data size") ->
      (forall index,
          getRegionOffset st (accountName k "Account data size") <= index
          < getRegionOffset st (accountName k "Account data size") + 8 ->
          getMemoryValue st index
          = hex2 (nth (Z.to_nat
                         (index
                          - getRegionOffset st
                              (accountName k "Account data size")))
                      (le_encode 8 32) 0))
      /\ getMemoryValue st
           (getRegionOffset st (accountName k "Account data size")) = "20")
  /\ (instructionDataSize st = 0 ->
      option_map size (findRegion st "Instruction data") = Some 0).
Proof.
  intros Hk Hstored.
  assert (Heff : effectiveSize (accountDataSizes st) (Z.to_nat (k - 1)) = 32).
  { unfold effectiveSize. destruct Hstored as [-> | ->]; reflexivity. }
  split; [| split].
  - pose proof (findRegion_in st _ (accountData_in_layout st k Hk)) as Hfind.
    cbn [name mkRegion] in Hfind. rewrite Hfind. cbn. now rewrite Heff.
  - intros Hsec Hf.
    pose proof (IB_account st k Hk) as Hib. rewrite Heff in Hib.
    split.
    + intros index Hspan.
      now rewrite (integerBacked_shown st index _ 32 Hsec Hf Hib Hspan).
    + rewrite (integerBacked_shown st _ _ 32 Hsec Hf Hib) by lia.
      now rewrite Z.sub_diag.
  - intro Hzero.
    assert (Hin : In (mkRegion "Instruction data" (instructionDataSize st)
                        "bg-lime-400" (Some true) false [])
                     (programInputRegions st)).
    { unfold programInputRegions. apply in_or_app. right.
      apply in_or_app. right. cbn. right. left. reflexivity. }
    pose proof (findRegion_in st _ Hin) as Hfind.
    cbn [name mkRegion] in Hfind. rewrite Hfind. cbn. now rewrite Hzero.
Qed.

(** With the sizes [7; 0] the data region of account 2 has size 32. *)
Lemma default_data_size_witness :
  option_map size
    (findRegion
       (mkState programInputSection (Some "Account 2: Account data size")
          [Some 7; Some 0] 0 2)
       "Account 2: Account data")
  = Some 32
  /\ getMemoryValue
       (mkState programInputSection (Some "Account 2: Account data size")
          [Some 7; Some 0] 0 2)
       (getRegionOffset
          (mkState programInputSection (Some "Account 2: Account data size")
             [Some 7; Some 0] 0 2)
          "Account 2: Account data size")
     = "20"
  /\ option_map size
       (findRegion
          (mkState programInputSection (Some "Account 2: Account data size")
             [Some 7; Some 0] 0 2)
          "Instruction data")
     = Some 0.
Proof.
  destruct (default_data_size
              (mkState programInputSection
                 (Some "Account 2: Account data size") [Some 7; Some 0] 0 2)
              2 ltac:(vm_compute; split; discriminate) (or_introl eq_refl))
    as (Hsize & Hshown & Hinstr).
  destruct (Hshown eq_refl eq_refl) as (_ & Hfirst).
  exact (conj Hsize (conj Hfirst (Hinstr eq_refl))).
Defined.

(** ** Cell colours *)

Section Colours.

Lemma regionColorFrom_owner (focused : option string) (regions : list Region) :
  forall (currentOffset byteOffset : Z),
    regionColorFrom focused currentOffset regions byteOffset
    = match ownerFrom currentOffset regions byteOffset with
      | Some (region, start) =>
          match truthy focused with
          | Some f => focusedColor f region start byteOffset
          | None =>
              if isPadding region then (color region ++ " crosshatch")%string
              else color region
          end
      | None => "bg-gray-800"
      end.
Proof.
  induction regions as [| region rest IH]; intros currentOffset byteOffset;
    [reflexivity |].
  cbn [regionColorFrom ownerFrom].
  destruct ((currentOffset <=? byteOffset)
            && (byteOffset <? currentOffset + size region));
    [reflexivity | apply IH].
Qed.

Lemma regionForOffsetFrom_owner (regions : list Region) :
  forall (currentOffset byteOffset : Z),
    regionForOffsetFrom currentOffset regions byteOffset
    = option_map fst (ownerFrom currentOffset regions byteOffset).
Proof.
  induction regions as [| region rest IH]; intros currentOffset byteOffset;
    [reflexivity |].
  cbn [regionForOffsetFrom ownerFrom].
  destruct ((currentOffset <=? byteOffset)
            && (byteOffset <? currentOffset + size region));
    [reflexivity | apply IH].
Qed.

(** The precedence the claim describes is what the component applies
    whenever its first test, on "Account data size", does not fire. *)
Lemma focused_color_precedence (st : State) (byteOffset : Z) (f : string)
    (region : Region) (start : Z) :
  section_name (selectedSection st) = PROGRAM_INPUT ->
  focusedRegion st = Some f -> f <> "" ->
  ownerFrom 0 (programInputRegions st) byteOffset = Some (region, start) ->
  JS.includes "Account data size" f
  && JS.includes "Account data" (name region) = false ->
  getRegionColor st byteOffset
  = if String.eqb f "Instruction data size"
       && String.eqb (name region) "Instruction data"
    then (color region ++ " opacity-50")%string
    else if String.eqb f (name region)
    then match subRegionColorFrom start (subRegions region) byteOffset with
         | Some c => c
         | None => color region
         end
    else "bg-gray-700".
Proof.
  intros Hsec Hf Hne Hown Hfirst. unfold getRegionColor.
  unfold PROGRAM_INPUT in Hsec. rewrite Hsec, String.eqb_refl. cbn [negb].
  rewrite regionColorFrom_owner, Hown, Hf. cbn [truthy].
  apply String.eqb_neq in Hne. rewrite Hne.
  unfold focusedColor. rewrite Hfirst.
  destruct (String.eqb f "Instruction data size"
            && String.eqb (name region) "Instruction data"); [reflexivity |].
  destruct (String.eqb f (name region)); reflexivity.
Qed.

(** X22. With the data size field of any account focused, every cell of a
    data field or a data size field of any account is shown at reduced
    emphasis: the first test matches by substring. *)
Lemma focused_account_size_colour (st : State) (byteOffset : Z) (k j : Z)
    (base : string) (region : Region) (start : Z) :
  section_name (selectedSection st) = PROGRAM_INPUT ->
  focusedRegion st = Some (accountName k "Account data size") ->
  ownerFrom 0 (programInputRegions st) byteOffset = Some (region, start) ->
  name region = accountName j base ->
  base = "Account data" \/ base = "Account data size" ->
  getRegionColor st byteOffset = (color region ++ " opacity-50")%string.
Proof.
  intros Hsec Hf Hown Hname Hbase. unfold getRegionColor.
  unfold PROGRAM_INPUT in Hsec. rewrite Hsec, String.eqb_refl. cbn [negb].
  rewrite regionColorFrom_owner, Hown, Hf. cbn [truthy].
  destruct (accountName_head k "Account data size") as [rest Hrest].
  rewrite Hrest at 1. cbn [String.eqb].
  unfold focusedColor. rewrite includes_data_size, Hname.
  assert (Hinc : JS.includes "Account data" (accountName j base) = true).
  { rewrite accountName_prefix.
    destruct Hbase as [-> | ->].
    - rewrite <- (append_nil_r "Account data") at 2. apply includes_app.
    - change "Account data size" with ("Account data" ++ " size")%string.
      apply includes_app. }
  now rewrite Hinc.
Qed.

End Colours.

(** C6: the component departs from the stated precedence when an account
    data size field is focused.  With two accounts and "Account 1:
    Account data size" focused, the focused field itself (offset 88) is
    shown at reduced emphasis instead of in its own colour, and the data
    field of account 2 (offset 10464) is shown at reduced emphasis
    instead of dimmed; the data field of account 1 (offset 96) is the
    only cell rule (1) is about.  The trailing pair follows the stated
    precedence when "Instruction data size" is focused. *)
Theorem focused_color_overmatch :
  option_map name (getRegionForOffset twoAccountsFocused 88)
  = Some "Account 1: Account data size"
  /\ getRegionColor twoAccountsFocused 88 = "bg-indigo-400 opacity-50"
  /\ option_map name (getRegionForOffset twoAccountsFocused 10464)
     = Some "Account 2: Account data"
  /\ getRegionColor twoAccountsFocused 10464 = "bg-pink-400 opacity-50"
  /\ option_map name (getRegionForOffset twoAccountsFocused 96)
     = Some "Account 1: Account data"
  /\ getRegionColor twoAccountsFocused 96 = "bg-pink-400 opacity-50"
  /\ getRegionColor
       (handleAccordionChange twoAccountsFocused "Instruction data size")
       (getRegionOffset twoAccountsFocused "Instruction data size")
     = "bg-cyan-400"
  /\ getRegionColor
       (handleAccordionChange twoAccountsFocused "Instruction data size")
       (getRegionOffset twoAccountsFocused "Instruction data")
     = "bg-lime-400 opacity-50"
  /\ getRegionColor
       (handleAccordionChange twoAccountsFocused "Instruction data size") 88
     = "bg-gray-700".
Proof. repeat split. Qed.

(** * Further properties of the component *)

(** ** Looking a region up by offset *)

Section Lookup.

Lemma ownerFrom_some (regions : list Region) :
  forall (currentOffset byteOffset : Z) (r : Region) (start : Z),
    ownerFrom currentOffset regions byteOffset = Some (r, start) ->
    exists l1 l2,
      regions = l1 ++ r :: l2
      /\ start = currentOffset + sumSizes l1
      /\ start <= byteOffset < start + size r.
Proof.
  induction regions as [| x rest IH]; intros off b r start H; [discriminate |].
  cbn [ownerFrom] in H.
  destruct ((off <=? b) && (b <? off + size x)) eqn:E.
  - injection H as -> ->. exists [], rest.
    apply andb_true_iff in E as [E1 E2].
    apply Z.leb_le in E1. apply Z.ltb_lt in E2.
    rewrite sumSizes_nil. repeat split; lia.
  - destruct (IH _ _ _ _ H) as (l1 & l2 & -> & -> & Hin).
    exists (x :: l1), l2. rewrite sumSizes_cons. repeat split; lia.
Qed.

(** Regions of non-negative size that end at or before the offset are
    passed over. *)
Lemma ownerFrom_skip (l1 : list Region) :
  forall (currentOffset byteOffset : Z) (rest : list Region),
    Forall (fun r => 0 <= size r) l1 ->
    currentOffset + sumSizes l1 <= byteOffset ->
    ownerFrom currentOffset (l1 ++ rest) byteOffset
    = ownerFrom (currentOffset + sumSizes l1) rest byteOffset.
Proof.
  induction l1 as [| x l1 IH]; intros off b rest Hpos Hle.
  - cbn [app]. rewrite sumSizes_nil. f_equal. lia.
  - apply Forall_cons_iff in Hpos as [Hx Hpos].
    rewrite sumSizes_cons in Hle |- *.
    pose proof (sumSizes_nonneg l1 Hpos) as Hs.
    cbn [app ownerFrom].
    destruct (Z.ltb_spec b (off + size x)); [lia |].
    rewrite andb_false_r, IH by (assumption || lia).
    f_equal. lia.
Qed.

Lemma ownerFrom_none (regions : list Region) :
  forall (currentOffset byteOffset : Z),
    Forall (fun r => 0 <= size r) regions ->
    (ownerFrom currentOffset regions byteOffset = None
     <-> byteOffset < currentOffset
         \/ currentOffset + sumSizes regions <= byteOffset).
Proof.
  induction regions as [| x rest IH]; intros off b Hpos.
  - rewrite sumSizes_nil. cbn. split; [lia | reflexivity].
  - apply Forall_cons_iff in Hpos as [Hx Hpos].
    pose proof (sumSizes_nonneg rest Hpos) as Hs.
    cbn [ownerFrom]. rewrite sumSizes_cons.
    destruct (Z.leb_spec off b), (Z.ltb_spec b (off + size x)); cbn [andb].
    + split; [discriminate | lia].
    + rewrite IH by exact Hpos. lia.
    + rewrite IH by exact Hpos. lia.
    + rewrite IH by exact Hpos. lia.
Qed.

Lemma regionStartRowFrom_found (regions : list Region) :
  forall (currentOffset : Z) (regionName : string),
    In regionName (map name regions) ->
    regionStartRowFrom currentOffset regions regionName
    = regionOffsetFrom currentOffset regions regionName / BYTES_PER_ROW.
Proof.
  induction regions as [| x rest IH]; intros off regionName Hin;
    [destruct Hin |].
  cbn [regionStartRowFrom regionOffsetFrom].
  destruct (String.eqb_spec (name x) regionName) as [_ | Hne]; [reflexivity |].
  apply IH. destruct Hin as [Heq | Hin]; [now elim Hne | exact Hin].
Qed.

Lemma regionStartRowFrom_missing (regions : list Region) :
  forall (currentOffset : Z) (regionName : string),
    ~ In regionName (map name regions) ->
    regionStartRowFrom currentOffset regions regionName = 0.
Proof.
  induction regions as [| x rest IH]; intros off regionName Hnot;
    [reflexivity |].
  cbn [regionStartRowFrom].
  destruct (String.eqb_spec (name x) regionName) as [Heq | _].
  - elim Hnot. left. exact Heq.
  - apply IH. intro Hin. apply Hnot. now right.
Qed.

Lemma layout_offset_of_member (st : State) (r : Region) :
  In r (programInputRegions st) ->
  exists l1 l2,
    programInputRegions st = l1 ++ r :: l2
    /\ getRegionOffset st (name r) = sumSizes l1.
Proof.
  intro Hin. apply in_split in Hin as (l1 & l2 & Heq).
  exists l1, l2. split; [exact Heq |].
  pose proof (programInputRegions_names_nodup st) as Hnd.
  unfold getRegionOffset. rewrite Heq in Hnd |- *.
  now apply regionOffsetFrom_nodup.
Qed.

End Lookup.

(** X1. Whatever the sizes, a region that [getRegionForOffset] returns is
    a region of the layout whose bytes, counted from the offset
    [getRegionOffset] gives its name, contain the queried offset; so it is
    never a region of size 0 or less. *)
Theorem regionForOffset_sound (st : State) (byteOffset : Z) (r : Region) :
  getRegionForOffset st byteOffset = Some r ->
  In r (programInputRegions st)
  /\ getRegionOffset st (name r) <= byteOffset
     < getRegionOffset st (name r) + size r
  /\ 0 < size r.
Proof.
  unfold getRegionForOffset. rewrite regionForOffsetFrom_owner.
  destruct (ownerFrom 0 (programInputRegions st) byteOffset)
    as [[r' start] |] eqn:Hown; [| discriminate].
  cbn [option_map fst]. intro H. injection H as ->.
  destruct (ownerFrom_some _ _ _ _ _ Hown) as (l1 & l2 & Heq & Hstart & Hin).
  pose proof (programInputRegions_names_nodup st) as Hnd.
  assert (Hoff : getRegionOffset st (name r) = start).
  { unfold getRegionOffset. rewrite Heq in Hnd |- *.
    rewrite (regionOffsetFrom_nodup l1 l2 r Hnd). lia. }
  rewrite Hoff. repeat split; try lia.
  rewrite Heq. apply in_or_app. right. now left.
Qed.

(** Byte 70 of the initial layout belongs to the public keys of
    account 1, which start at offset 16. *)
Lemma regionForOffset_sound_witness :
  getRegionOffset initialState "Account 1: Public keys" <= 70
  < getRegionOffset initialState "Account 1: Public keys" + 64.
Proof.
  destruct (regionForOffset_sound initialState 70
              (mkRegion "Account 1: Public keys" 64 "bg-purple-400" None false
                 [mkSub "Account Pub Key" 32 "bg-indigo-400";
                  mkSub "Account Owner Pub Key" 32 "bg-violet-400"])
              eq_refl) as (_ & H & _).
  exact H.
Defined.

(** With no negative size, the offsets without an owner are those below
    0 and those from the total size on. *)
Lemma regionForOffset_none_iff_aux (st : State) (byteOffset : Z) :
  sizesNonNegative st ->
  (getRegionForOffset st byteOffset = None
   <-> byteOffset < 0 \/ totalNamedRegionSize st <= byteOffset).
Proof.
  intro Hpos. unfold getRegionForOffset, totalNamedRegionSize.
  rewrite regionForOffsetFrom_owner.
  rewrite <- (ownerFrom_none (programInputRegions st) 0 byteOffset)
    by now apply programInputRegions_nonneg.
  destruct (ownerFrom 0 (programInputRegions st) byteOffset) as [[r s] |];
    cbn; split; congruence.
Qed.

(** X2. When no stored size is negative, [getRegionForOffset] finds no
    region exactly for the offsets below 0 and from the total layout size
    on: every byte of the layout has an owner, and only those. *)
Theorem regionForOffset_none_iff (st : State) (byteOffset : Z) :
  sizesNonNegative st ->
  (getRegionForOffset st byteOffset = None
   <-> byteOffset < 0 \/ totalNamedRegionSize st <= byteOffset)
  /\ (0 <= byteOffset < totalNamedRegionSize st ->
      exists r, getRegionForOffset st byteOffset = Some r
                /\ In r (programInputRegions st)).
Proof.
  intro Hpos.
  split; [now apply regionForOffset_none_iff_aux |].
  intro Hin.
  destruct (getRegionForOffset st byteOffset) as [r |] eqn:Hfound.
  - exists r. split; [reflexivity |].
    unfold getRegionForOffset in Hfound.
    rewrite regionForOffsetFrom_owner in Hfound.
    destruct (ownerFrom 0 (programInputRegions st) byteOffset)
      as [[r' start] |] eqn:Hown; [| discriminate].
    cbn [option_map fst] in Hfound. injection Hfound as ->.
    destruct (ownerFrom_some _ _ _ _ _ Hown) as (l1 & l2 & Heq & _).
    rewrite Heq. apply in_or_app. right. now left.
  - apply (regionForOffset_none_iff_aux st byteOffset Hpos) in Hfound. lia.
Qed.

Lemma sizesNonNegative_initial : sizesNonNegative initialState.
Proof.
  split; [vm_compute; discriminate |].
  repeat constructor. vm_compute. discriminate.
Qed.

(** The initial layout has 10448 bytes. *)
Lemma regionForOffset_none_iff_witness :
  getRegionForOffset initialState 10448 = None.
Proof.
  apply (regionForOffset_none_iff initialState 10448 sizesNonNegative_initial).
  right. vm_compute. discriminate.
Defined.

(** With no negative size, the scan for an offset within the bytes of a
    region of the layout stops at that region. *)
Lemma ownerFrom_of_member (st : State) (r : Region) (byteOffset : Z) :
  sizesNonNegative st ->
  In r (programInputRegions st) ->
  getRegionOffset st (name r) <= byteOffset
  < getRegionOffset st (name r) + size r ->
  ownerFrom 0 (programInputRegions st) byteOffset
  = Some (r, getRegionOffset st (name r)).
Proof.
  intros Hpos Hin Hspan.
  destruct (layout_offset_of_member st r Hin) as (l1 & l2 & Heq & Hoff).
  pose proof (programInputRegions_nonneg st Hpos) as Hall.
  rewrite Heq in Hall |- *. apply Forall_app in Hall as [H1 _].
  rewrite ownerFrom_skip by (assumption || lia).
  cbn [ownerFrom]. rewrite Hoff in Hspan |- *.
  destruct (Z.leb_spec (0 + sumSizes l1) byteOffset); [| lia].
  destruct (Z.ltb_spec byteOffset (0 + sumSizes l1 + size r)); [| lia].
  cbn [andb]. repeat f_equal; lia.
Qed.



(** ** Scroll targets and the spare row *)

Section Rows.

Lemma layout_offset_bounds (st : State) (r : Region) :
  sizesNonNegative st ->
  In r (programInputRegions st) ->
  0 <= getRegionOffset st (name r)
  /\ getRegionOffset st (name r) + size r <= totalNamedRegionSize st.
Proof.
  intros Hpos Hin.
  destruct (layout_offset_of_member st r Hin) as (l1 & l2 & Heq & Hoff).
  pose proof (programInputRegions_nonneg st Hpos) as Hall.
  unfold totalNamedRegionSize. rewrite Hoff, Heq in *.
  apply Forall_app in Hall as [H1 H2].
  apply Forall_cons_iff in H2 as [Hr H2].
  rewrite sumSizes_app, sumSizes_cons.
  pose proof (sumSizes_nonneg l1 H1). pose proof (sumSizes_nonneg l2 H2).
  lia.
Qed.

Lemma totalNamedRegionSize_nonneg (st : State) :
  sizesNonNegative st -> 0 <= totalNamedRegionSize st.
Proof.
  intro Hpos. apply sumSizes_nonneg. now apply programInputRegions_nonneg.
Qed.

Lemma totalRows_programInput (st : State) :
  section_name (selectedSection st) = PROGRAM_INPUT ->
  totalRows st
  = Z.max 16 (JS.ceil_div (totalNamedRegionSize st) 16 + 1).
Proof.
  intro Hsec. unfold totalRows, maxRows, PROGRAM_INPUT in *.
  now rewrite Hsec, String.eqb_refl.
Qed.

End Rows.

(** X4. The row [getRegionStartRow] gives for a region of the layout is
    the row that holds the first byte of the region; for a name that is
    not in the layout it is 0, the row of the first region, while
    [getRegionOffset] answers -1; and with the variable section selected
    and no negative size it is always one of the rows of the grid, so
    opening a legend item never scrolls outside the grid. *)
Theorem regionStartRow_in_grid (st : State) (regionName : string) :
  (In regionName (map name (programInputRegions st)) ->
   getRegionStartRow st regionName = getRegionOffset st regionName / 16
   /\ 16 * getRegionStartRow st regionName <= getRegionOffset st regionName
      < 16 * getRegionStartRow st regionName + 16)
  /\ (~ In regionName (map name (programInputRegions st)) ->
      getRegionStartRow st regionName = 0
      /\ getRegionOffset st regionName = -1)
  /\ (section_name (selectedSection st) = PROGRAM_INPUT ->
      sizesNonNegative st ->
      0 <= getRegionStartRow st regionName < totalRows st)
  /\ (section_name (selectedSection st) = PROGRAM_INPUT ->
      sizesNonNegative st ->
      forall row, accordionScrollRow st regionName = Some row ->
                  0 <= row < totalRows st).
Proof.
  assert (Hfound : In regionName (map name (programInputRegions st)) ->
            getRegionStartRow st regionName
            = getRegionOffset st regionName / 16).
  { intro Hin. now apply regionStartRowFrom_found. }
  assert (Hmissing : ~ In regionName (map name (programInputRegions st)) ->
            getRegionStartRow st regionName = 0).
  { intro Hnot. now apply regionStartRowFrom_missing. }
  assert (Hgrid : section_name (selectedSection st) = PROGRAM_INPUT ->
            sizesNonNegative st ->
            0 <= getRegionStartRow st regionName < totalRows st);
    [| split; [| split; [| split; [exact Hgrid |]]]].
  - intros Hsec Hpos. rewrite (totalRows_programInput st Hsec).
    pose proof (ceil_div_bounds (totalNamedRegionSize st) 16 ltac:(lia)) as Hc.
    pose proof (totalNamedRegionSize_nonneg st Hpos) as Ht.
    destruct (in_dec string_dec regionName (map name (programInputRegions st)))
      as [Hin | Hnot].
    + rewrite (Hfound Hin).
      apply in_map_iff in Hin as (r & <- & Hr).
      destruct (layout_offset_bounds st r Hpos Hr) as [H0 Hle].
      assert (Hsz : 0 <= size r).
      { pose proof (programInputRegions_nonneg st Hpos) as Hall.
        rewrite Forall_forall in Hall. now apply Hall. }
      split; [apply Z.div_pos; lia |].
      assert (getRegionOffset st (name r) / 16
              <= JS.ceil_div (totalNamedRegionSize st) 16).
      { apply Z.div_le_upper_bound; lia. }
      lia.
    + rewrite (Hmissing Hnot). lia.
  - intro Hin. split; [now apply Hfound |].
    rewrite (Hfound Hin).
    pose proof (Z.div_mod (getRegionOffset st regionName) 16 ltac:(lia)).
    pose proof (Z.mod_pos_bound (getRegionOffset st regionName) 16 ltac:(lia)).
    lia.
  - intro Hnot. split; [now apply Hmissing |].
    apply regionOffsetFrom_none. intros x Hx Heq.
    apply Hnot. rewrite <- Heq. now apply in_map.
  - intros Hsec Hpos row. unfold accordionScrollRow.
    destruct (String.eqb regionName ""); [discriminate |].
    intro Hrow. injection Hrow as <-. now apply Hgrid.
Qed.

(** "Program ID" starts at byte 10416 of the initial layout: row 651. *)
Lemma regionStartRow_in_grid_witness :
  getRegionStartRow initialState "Program ID" = 651
  /\ 0 <= getRegionStartRow initialState "Program ID" < totalRows initialState.
Proof.
  destruct (regionStartRow_in_grid initialState "Program ID")
    as (Hfound & _ & Hrows & _).
  destruct (Hfound ltac:(vm_compute; do 11 right; left; reflexivity))
    as (Hrow & _).
  split; [rewrite Hrow; reflexivity |].
  apply Hrows; [reflexivity | apply sizesNonNegative_initial].
Defined.

(** X5. With the variable section selected and no negative size, the
    grid has at least 16 rows and all the bytes of the layout lie in the
    rows before the last: the row "Scroll to End" goes to holds no region,
    and each of its 16 cells has the colour of no region. *)
Theorem last_row_is_spare (st : State) :
  section_name (selectedSection st) = PROGRAM_INPUT ->
  sizesNonNegative st ->
  16 <= totalRows st
  /\ totalNamedRegionSize st <= 16 * scrollToBottomRow st
  /\ (forall col, 0 <= col < COLS ->
      getRegionForOffset st (cellByteOffset (scrollToBottomRow st) col) = None
      /\ getRegionColor st (cellByteOffset (scrollToBottomRow st) col)
         = "bg-gray-800").
Proof.
  intros Hsec Hpos.
  pose proof (ceil_div_bounds (totalNamedRegionSize st) 16 ltac:(lia)) as Hc.
  assert (Hrows : 16 <= totalRows st
                  /\ totalNamedRegionSize st <= 16 * scrollToBottomRow st).
  { unfold scrollToBottomRow. rewrite (totalRows_programInput st Hsec). lia. }
  destruct Hrows as [H16 Hlast]. split; [exact H16 | split; [exact Hlast |]].
  intros col Hcol. unfold COLS in Hcol.
  assert (Hnone : getRegionForOffset st
                    (cellByteOffset (scrollToBottomRow st) col) = None).
  { apply (regionForOffset_none_iff_aux st); [exact Hpos |].
    right. unfold cellByteOffset, COLS. lia. }
  split; [exact Hnone |].
  unfold getRegionColor. unfold PROGRAM_INPUT in Hsec.
  rewrite Hsec, String.eqb_refl. cbn [negb].
  rewrite regionColorFrom_owner.
  unfold getRegionForOffset in Hnone.
  rewrite regionForOffsetFrom_owner in Hnone.
  destruct (ownerFrom 0 (programInputRegions st) _) as [[r s] |];
    [discriminate | reflexivity].
Qed.

(** The initial grid has 654 rows; row 653 is past the 10448 bytes. *)
Lemma last_row_is_spare_witness :
  scrollToBottomRow initialState = 653
  /\ getRegionColor initialState (cellByteOffset 653 0) = "bg-gray-800".
Proof.
  destruct (last_row_is_spare initialState eq_refl sizesNonNegative_initial)
    as (_ & _ & Hcells).
  destruct (Hcells 0 ltac:(vm_compute; split; discriminate || reflexivity))
    as (_ & Hcolour).
  split; [reflexivity | exact Hcolour].
Defined.

(** ** The legend views and clicks on the grid *)

Section Views.

Lemma replace_at_head (needle repl s : string) :
  String.prefix needle s = true ->
  JS.replace needle repl s
  = (repl ++ JS.drop (String.length needle) s)%string.
Proof. intro H. destruct s; cbn [JS.replace]; now rewrite H. Qed.

Lemma drop_app (p s : string) : JS.drop (String.length p) (p ++ s) = s.
Proof. induction p as [| c p IH]; cbn; [now destruct s | exact IH]. Qed.

Lemma viewName_parse (k : Z) :
  String.eqb (viewName k) "Program" = false
  /\ JS.parseInt (JS.replace "Account " "" (viewName k)) 0 = Some k.
Proof.
  split; [reflexivity |].
  unfold viewName. rewrite replace_at_head by apply prefix_app.
  rewrite drop_app. cbn [append]. apply parseInt_toString. now right.
Qed.

(** Whether a name of the layout starts with ["Account k:"]. *)
Lemma viewPrefix_of_account (k j : Z) (base : string) :
  JS.startsWith ("Account " ++ JS.toString 10 k ++ ":") (accountName j base)
  = true <-> k = j.
Proof.
  unfold JS.startsWith. rewrite prefix_iff. split.
  - intros [r Hr]. unfold accountName in Hr. cbn [append] in Hr.
    injection Hr as Hr. rewrite append_assoc in Hr. cbn [append] in Hr.
    destruct (toString_chars k) as [Hk _], (toString_chars j) as [Hj _].
    destruct (append_sep_inj ":" _ _ _ _ Hj Hk Hr) as [Hd _].
    symmetry. now apply toString_inj.
  - intros ->. exists (" " ++ base)%string.
    unfold accountName. cbn [append]. now rewrite !append_assoc.
Qed.

Lemma viewPrefix_not_fixed (k : Z) (s : string) :
  In s ["Number of accounts"; "Instruction data size"; "Instruction data";
        "Program ID"] ->
  JS.startsWith ("Account " ++ JS.toString 10 k ++ ":") s = false
  /\ JS.startsWith "Account" s = false.
Proof.
  intro Hs. split; [| cbn in Hs;
                      destruct Hs as [<- | [<- | [<- | [<- | []]]]]; reflexivity].
  unfold JS.startsWith.
  destruct (String.prefix _ s) eqn:E; [| reflexivity].
  apply prefix_iff in E as [r Hr]. cbn [append] in Hr.
  cbn in Hs. destruct Hs as [<- | [<- | [<- | [<- | []]]]]; discriminate.
Qed.

Lemma startsWith_account (k : Z) (base : string) :
  JS.startsWith "Account" (accountName k base) = true.
Proof.
  unfold JS.startsWith. apply prefix_iff.
  exists (" " ++ JS.toString 10 k ++ ": " ++ base)%string. reflexivity.
Qed.

Lemma fixedRegions_names (st : State) (r : Region) :
  In r (fixedRegions st) ->
  In (name r) ["Number of accounts"; "Instruction data size";
               "Instruction data"; "Program ID"].
Proof.
  unfold fixedRegions. intro Hin. cbn in Hin.
  destruct Hin as [<- | [<- | [<- | [<- | []]]]]; cbn; tauto.
Qed.

Lemma layout_member_cases (st : State) (r : Region) :
  In r (programInputRegions st) ->
  In r (fixedRegions st)
  \/ exists index : nat,
       (index < Z.to_nat (numberOfAccounts st))%nat
       /\ In r (accountRegionsOf (accountDataSizes st) index).
Proof.
  unfold programInputRegions, accountRegions, fixedRegions. intro Hin.
  apply in_app_or in Hin as [Hin | Hin];
    [| apply in_app_or in Hin as [Hin | Hin]].
  - left. apply in_or_app. now left.
  - right. apply in_flat_map in Hin as (index & Hidx & Hin).
    apply in_seq in Hidx. exists index. split; [lia | exact Hin].
  - left. apply in_or_app. now right.
Qed.

(** The "Program" view keeps the regions that are not repeated and drops
    those of the accounts. *)
Lemma filter_program_view (st : State) :
  filter (fun region => negb (JS.startsWith "Account" (name region)))
         (programInputRegions st)
  = fixedRegions st.
Proof.
  unfold programInputRegions, accountRegions, fixedRegions.
  rewrite !filter_app.
  replace (filter _ (firstn 1 PROGRAM_REGIONS)) with (firstn 1 PROGRAM_REGIONS)
    by reflexivity.
  f_equal.
  rewrite filter_none.
  - cbn [app]. apply filter_all. intros r Hr.
    assert (Hfix : In r (fixedRegions st))
      by (unfold fixedRegions; apply in_or_app; now right).
    apply fixedRegions_names in Hfix.
    now destruct (viewPrefix_not_fixed 0 _ Hfix) as [_ ->].
  - intros r Hr. apply in_flat_map in Hr as (index & _ & Hr).
    apply accountRegionsOf_name_in in Hr as (base & _ & ->).
    now rewrite startsWith_account.
Qed.

Lemma filter_account_view (st : State) (k : Z) :
  filter (fun region =>
            JS.startsWith ("Account " ++ JS.toString 10 k ++ ":")
              (name region))
         (programInputRegions st)
  = if (1 <=? k) && (k <=? numberOfAccounts st)
    then accountRegionsOf (accountDataSizes st) (Z.to_nat (k - 1))
    else [].
Proof.
  destruct ((1 <=? k) && (k <=? numberOfAccounts st)) eqn:Hk.
  - apply andb_true_iff in Hk as [H1 H2].
    apply Z.leb_le in H1, H2.
    rewrite <- (filter_unit_layout st (Z.to_nat (k - 1))) by lia.
    apply filter_ext_in. intros r Hr.
    replace (Z.of_nat (Z.to_nat (k - 1)) + 1) with k by lia.
    apply layout_member_cases in Hr as [Hfix | (index & _ & Hacc)].
    + apply fixedRegions_names in Hfix.
      destruct (viewPrefix_not_fixed k _ Hfix) as [-> _].
      now rewrite unitPrefix_not_fixed.
    + apply accountRegionsOf_name_in in Hacc as (base & _ & ->).
      destruct (Z.eq_dec k (Z.of_nat index + 1)) as [<- | Hne].
      * rewrite (proj2 (viewPrefix_of_account k k base) eq_refl).
        now rewrite (proj2 (unitPrefix_of_account k k base) eq_refl).
      * destruct (JS.startsWith _ _) eqn:E1;
          [apply viewPrefix_of_account in E1; lia |].
        destruct (String.prefix _ _) eqn:E2;
          [apply unitPrefix_of_account in E2; lia | reflexivity].
  - apply filter_none. intros r Hr.
    apply layout_member_cases in Hr as [Hfix | (index & Hidx & Hacc)].
    + apply fixedRegions_names in Hfix.
      now destruct (viewPrefix_not_fixed k _ Hfix) as [-> _].
    + apply accountRegionsOf_name_in in Hacc as (base & _ & ->).
      destruct (JS.startsWith _ _) eqn:E; [| reflexivity].
      apply viewPrefix_of_account in E. subst k.
      apply andb_false_iff in Hk as [Hk | Hk];
        [apply Z.leb_gt in Hk | apply Z.leb_gt in Hk]; lia.
Qed.

Lemma accountNumberText_accountName (k : Z) (base : string) :
  accountNumberText (accountName k base) = JS.toString 10 k.
Proof.
  destruct (toString_chars k) as [Hcolon Hspace].
  unfold accountNumberText.
  rewrite accountName_split, split_app.
  - cbn [nth_error]. rewrite split_app by reflexivity.
    rewrite split_no_sep by exact Hspace. reflexivity.
  - rewrite all_chars_app. cbn [all_chars]. rewrite Hcolon. reflexivity.
Qed.

End Views.

(** X6. The legend views split the layout: the view "Program" lists the
    regions that are not repeated, the view "Account k" of an account of
    the layout lists the eight regions of that account, and the view of
    an account that the layout does not have (after the count was
    lowered) lists nothing. *)
Theorem displayedRegions_views (st : State) (k : Z) :
  (selectedView st = "Program" -> displayedRegions st = fixedRegions st)
  /\ (selectedView st = viewName k ->
      1 <= k <= numberOfAccounts st ->
      displayedRegions st
      = accountRegionsOf (accountDataSizes st) (Z.to_nat (k - 1))
      /\ List.length (displayedRegions st) = 8%nat)
  /\ (selectedView st = viewName k ->
      k < 1 \/ numberOfAccounts st < k ->
      displayedRegions st = []).
Proof.
  assert (Hview : selectedView st = viewName k ->
            displayedRegions st
            = if (1 <=? k) && (k <=? numberOfAccounts st)
              then accountRegionsOf (accountDataSizes st) (Z.to_nat (k - 1))
              else []).
  { intro Hv. unfold displayedRegions. rewrite Hv.
    destruct (viewName_parse k) as [-> ->]. cbn [numberString].
    apply filter_account_view. }
  split; [| split].
  - intro Hv. unfold displayedRegions. rewrite Hv, String.eqb_refl.
    apply filter_program_view.
  - intros Hv Hk. rewrite (Hview Hv).
    destruct (Z.leb_spec 1 k), (Z.leb_spec k (numberOfAccounts st));
      try lia. cbn [andb]. split; reflexivity.
  - intros Hv Hk. rewrite (Hview Hv).
    destruct (Z.leb_spec 1 k), (Z.leb_spec k (numberOfAccounts st));
      try reflexivity. lia.
Qed.

(** With three accounts, a click on byte 10464, the first byte of the
    data of account 2, switches the legend to the eight regions of
    account 2. *)
Lemma displayedRegions_views_witness :
  map name
    (displayedRegions
       (handleMemoryClick (handleNumberOfAccountsChange initialState "3")
          10464))
  = [ "Account 2: Account Flags"; "Account 2: Padding 1";
      "Account 2: Public keys"; "Account 2: Lamports";
      "Account 2: Account data size"; "Account 2: Account data";
      "Account 2: Realloc padding"; "Account 2: Rent epoch" ].
Proof.
  destruct (displayedRegions_views
              (handleMemoryClick
                 (handleNumberOfAccountsChange initialState "3") 10464) 2)
    as (_ & Haccount & _).
  destruct (Haccount ltac:(vm_compute; reflexivity)
              ltac:(vm_compute; split; discriminate)) as [H _].
  rewrite H. reflexivity.
Defined.

(** X7. A click on a cell that belongs to a region leaves the layout as
    it is, switches the legend to a view that lists the clicked region,
    and toggles the focus: the region becomes focused unless it was, and
    a second click on the cell clears the focus again.  A click on a cell
    that belongs to no region changes nothing. *)
Theorem click_selects_region (st : State) (byteOffset : Z) :
  (forall r, getRegionForOffset st byteOffset = Some r ->
     programInputRegions (handleMemoryClick st byteOffset)
     = programInputRegions st
     /\ In r (displayedRegions (handleMemoryClick st byteOffset))
     /\ (focusedRegion st <> Some (name r) ->
         focusedRegion (handleMemoryClick st byteOffset) = Some (name r)
         /\ focusedRegion
              (handleMemoryClick (handleMemoryClick st byteOffset) byteOffset)
            = None)
     /\ (focusedRegion st = Some (name r) ->
         focusedRegion (handleMemoryClick st byteOffset) = None))
  /\ (getRegionForOffset st byteOffset = None ->
      handleMemoryClick st byteOffset = st).
Proof.
  split; [| intro Hnone; unfold handleMemoryClick; now rewrite Hnone].
  intros r Hfound.
  assert (Hlayout : programInputRegions (handleMemoryClick st byteOffset)
                    = programInputRegions st).
  { unfold handleMemoryClick. rewrite Hfound. reflexivity. }
  assert (Hfocus : focusedRegion (handleMemoryClick st byteOffset)
                   = match focusedRegion st with
                     | Some prev => if String.eqb prev (name r) then None
                                    else Some (name r)
                     | None => Some (name r)
                     end).
  { unfold handleMemoryClick. rewrite Hfound. reflexivity. }
  assert (Hin : In r (programInputRegions st)).
  { unfold getRegionForOffset in Hfound.
    rewrite regionForOffsetFrom_owner in Hfound.
    destruct (ownerFrom 0 (programInputRegions st) byteOffset)
      as [[r' start] |] eqn:Hown; [| discriminate].
    cbn [option_map fst] in Hfound. injection Hfound as ->.
    destruct (ownerFrom_some _ _ _ _ _ Hown) as (l1 & l2 & Heq & _).
    rewrite Heq. apply in_or_app. right. now left. }
  split; [exact Hlayout | split; [| split]].
  - unfold displayedRegions. rewrite Hlayout.
    destruct (layout_member_cases st r Hin) as [Hfix | (index & _ & Hacc)].
    + apply fixedRegions_names in Hfix.
      destruct (viewPrefix_not_fixed 0 _ Hfix) as [_ Hstart].
      unfold handleMemoryClick at 1. rewrite Hfound. cbn [selectedView].
      rewrite Hstart, String.eqb_refl.
      apply filter_In. split; [exact Hin | now rewrite Hstart].
    + apply accountRegionsOf_name_in in Hacc as (base & _ & Hname).
      assert (Hv : selectedView (handleMemoryClick st byteOffset)
                   = viewName (Z.of_nat index + 1)).
      { unfold handleMemoryClick. rewrite Hfound. cbn [selectedView].
        rewrite Hname, startsWith_account, accountNumberText_accountName.
        reflexivity. }
      rewrite Hv. destruct (viewName_parse (Z.of_nat index + 1)) as [-> ->].
      cbn [numberString]. apply filter_In. split; [exact Hin |].
      rewrite Hname. now apply viewPrefix_of_account.
  - intro Hne. rewrite Hfocus.
    assert (H1 : match focusedRegion st with
                 | Some prev => if String.eqb prev (name r) then None
                                else Some (name r)
                 | None => Some (name r)
                 end = Some (name r)).
    { destruct (focusedRegion st) as [prev |]; [| reflexivity].
      destruct (String.eqb_spec prev (name r)) as [Heq | _];
        [rewrite Heq in Hne; now elim Hne | reflexivity]. }
    split; [exact H1 |].
    assert (Hfound' : getRegionForOffset (handleMemoryClick st byteOffset)
                        byteOffset = Some r).
    { unfold getRegionForOffset. rewrite Hlayout. exact Hfound. }
    unfold handleMemoryClick at 1. rewrite Hfound'. cbn [focusedRegion].
    rewrite Hfocus, H1. now rewrite String.eqb_refl.
  - intro Heq. rewrite Hfocus, Heq. now rewrite String.eqb_refl.
Qed.

(** A click on byte 10464 of a layout with three accounts opens the view
    of account 2 and focuses its data region. *)
Lemma click_selects_region_witness :
  focusedRegion
    (handleMemoryClick (handleNumberOfAccountsChange initialState "3") 10464)
  = Some "Account 2: Account data".
Proof.
  destruct (click_selects_region
              (handleNumberOfAccountsChange initialState "3") 10464)
    as (Hclick & _).
  destruct (Hclick (mkRegion "Account 2: Account data" 32 "bg-pink-400"
                      (Some true) false []) eq_refl)
    as (_ & _ & Hfocus & _).
  destruct (Hfocus ltac:(discriminate)) as (H & _).
  exact H.
Defined.

(** ** The legend inputs *)

Section Legend.

(** [parseInt] stops at the colon that follows an account number. *)
Lemma parseInt_toString_colon (k : Z) (rest : string) :
  JS.parseInt (JS.toString 10 k ++ String ":" rest) 0 = Some k.
Proof.
  assert (Hgen : forall n sign,
            0 <= n ->
            JS.parseUnsigned sign (JS.digits 10 n ++ String ":" rest) 0
            = Some (sign * n)).
  { intros n sign Hn.
    pose proof (digits_decimal n Hn) as Hdec.
    pose proof (digits_nonempty n) as Hne.
    assert (Hparse : JS.parse_digits 10 (JS.digits 10 n ++ String ":" rest) None
                     = Some n).
    { unfold JS.digits.
      rewrite (parse_digits_digits_of 10 ltac:(lia)) by (apply log2_fuel, Hn).
      reflexivity. }
    unfold JS.parseUnsigned. cbn [Z.eqb negb andb orb]. cbv zeta.
    destruct (JS.digits 10 n) as [| c0 [| c1 more]]; [now elim Hne | |].
    - cbn [append] in Hparse |- *. rewrite andb_false_r. now rewrite Hparse.
    - cbn [all_chars] in Hdec.
      apply andb_true_iff in Hdec as [_ Hdec].
      apply andb_true_iff in Hdec as [Hc1 _].
      destruct (decimal_char_facts c1 Hc1) as (_ & _ & _ & Hx & _).
      cbn [append] in Hparse |- *. rewrite Hx, andb_false_r.
      now rewrite Hparse. }
  unfold JS.parseInt, JS.toString.
  destruct (k <? 0) eqn:Hk.
  - apply Z.ltb_lt in Hk.
    cbn [append JS.trimStart]. change (JS.isWhiteSpace "-") with false.
    cbv iota. change (Ascii.eqb "-" "-") with true. cbv iota.
    rewrite Hgen by lia. f_equal. lia.
  - apply Z.ltb_ge in Hk.
    pose proof (digits_decimal k Hk) as Hdec.
    pose proof (digits_nonempty k) as Hne.
    pose proof (Hgen k 1 Hk) as Hg.
    destruct (JS.digits 10 k) as [| c more] eqn:Hd; [now elim Hne |].
    cbn [all_chars] in Hdec. apply andb_true_iff in Hdec as [Hc _].
    destruct (decimal_char_facts c Hc) as (Hw & Hm & Hp & _).
    cbn [append JS.trimStart] in Hg |- *. rewrite Hw, Hm, Hp, Hg.
    f_equal. lia.
Qed.

(** The legend recovers the same account index from a region name as
    [getMemoryValue] does from the focused name. *)
Lemma legendAccountIndex_accountName (k : Z) (base : string) :
  legendAccountIndex (accountName k base) = Some (k - 1)
  /\ legendAccountIndex (accountName k base)
     = accountIndexOf (accountName k base).
Proof.
  destruct (toString_chars k) as [_ Hspace].
  assert (H : legendAccountIndex (accountName k base) = Some (k - 1)).
  { unfold legendAccountIndex.
    replace (accountName k base)
      with ("Account" ++ String " "
              ((JS.toString 10 k ++ ":") ++ String " " base))%string
      by (unfold accountName; cbn [append]; now rewrite !append_assoc).
    rewrite split_app by reflexivity.
    rewrite split_app
      by (rewrite all_chars_app, Hspace; reflexivity).
    cbn [nth_error]. now rewrite parseInt_toString_colon. }
  split; [exact H |]. now rewrite H, accountIndexOf_accountName.
Qed.

Lemma legendValue_integerBacked (st : State) (f : string) (v : Z) :
  integerBacked st f v -> legendValue st f = v.
Proof.
  intros [| | k Hk]; try reflexivity.
  unfold legendValue.
  destruct (accountName_head k "Account data size") as [rest Hrest].
  rewrite Hrest at 1. cbn [String.eqb Ascii.eqb Bool.eqb andb].
  rewrite includes_data_size.
  destruct (legendAccountIndex_accountName k "Account data size") as [-> _].
  now rewrite array_get_number_index by lia.
Qed.

Lemma sumOver_update (f g : nat -> Z) (i n : nat) :
  (forall j, j <> i -> g j = f j) ->
  sumOver g n = if (i <? n)%nat then sumOver f n - f i + g i else sumOver f n.
Proof.
  intro Hsame. induction n as [| n IH]; [reflexivity |].
  cbn [sumOver]. rewrite IH.
  destruct (Nat.ltb_spec i n), (Nat.ltb_spec i (S n)); try lia.
  - rewrite (Hsame n) by lia. lia.
  - assert (i = n) by lia. subst. lia.
  - rewrite (Hsame n) by lia. lia.
Qed.

End Legend.

(** X8. The legend and the grid agree on a focused integer-backed
    region: the number in the legend input is the region's current value,
    and the eight cells of the field, joined by spaces, are the string the
    legend shows as "Little Endian". *)
Theorem legend_matches_grid (st : State) (f : string) (v : Z) :
  integerBacked st f v ->
  legendValue st f = v
  /\ (section_name (selectedSection st) = PROGRAM_INPUT ->
      focusedRegion st = Some f ->
      JS.join " "
        (map (fun i => getMemoryValue st (getRegionOffset st f + i))
             [0; 1; 2; 3; 4; 5; 6; 7])
      = toLittleEndian (legendValue st f)).
Proof.
  intro Hib. pose proof (legendValue_integerBacked st f v Hib) as Hv.
  split; [exact Hv |].
  intros Hsec Hf. rewrite Hv. unfold toLittleEndian.
  rewrite littleEndianBytes_encode.
  assert (Hcell : forall i, 0 <= i < 8 ->
            getMemoryValue st (getRegionOffset st f + i)
            = hex2 (encodedByteOf v i)).
  { intros i Hi.
    rewrite (integerBacked_shown st _ f v Hsec Hf Hib) by lia.
    f_equal. f_equal. lia. }
  cbn [map]. rewrite !Hcell by lia.
  unfold encodedByteOf. cbn [le_encode map nth Z.to_nat Pos.to_nat
    Pos.iter_op Nat.add]. reflexivity.
Qed.

(** The data size 1000 of account 2. *)
Lemma legend_matches_grid_witness :
  toLittleEndian
    (legendValue
       (mkState programInputSection (Some "Account 2: Account data size")
          [Some 32; Some 1000] 32 2)
       "Account 2: Account data size")
  = "e8 03 00 00 00 00 00 00".
Proof.
  pose (st := mkState programInputSection
                (Some "Account 2: Account data size") [Some 32; Some 1000]
                32 2).
  assert (Hk : 1 <= 2 <= numberOfAccounts st) by (cbn; lia).
  destruct (legend_matches_grid st "Account 2: Account data size" 1000
              (IB_account st 2 Hk))
    as (Hv & _).
  fold st. rewrite Hv. reflexivity.
Defined.

(** X9. Typing into the data size input of account [k] of the layout
    (the legend passes the index [k - 1]) resizes the data region of that
    account to the number typed, or to 32 when the input is 0 or not a
    number; it leaves the sizes of the other accounts, the count and the
    instruction data size as they are, and moves the total layout size by
    the difference of the two sizes. *)
Theorem data_size_change_effect (st : State) (targetValue : string) (k : Z) :
  1 <= k <= numberOfAccounts st ->
  legendAccountIndex (accountName k "Account data size") = Some (k - 1)
  /\ option_map size
       (findRegion
          (handleAccountDataSizeChange st targetValue (Z.to_nat (k - 1)))
          (accountName k "Account data"))
     = Some (or_32 (Some (nanToZero (JS.parseInt targetValue 10))))
  /\ (forall j : nat, j <> Z.to_nat (k - 1) ->
      effectiveSize
        (accountDataSizes
           (handleAccountDataSizeChange st targetValue (Z.to_nat (k - 1)))) j
      = effectiveSize (accountDataSizes st) j)
  /\ numberOfAccounts
       (handleAccountDataSizeChange st targetValue (Z.to_nat (k - 1)))
     = numberOfAccounts st
  /\ instructionDataSize
       (handleAccountDataSizeChange st targetValue (Z.to_nat (k - 1)))
     = instructionDataSize st
  /\ totalNamedRegionSize
       (handleAccountDataSizeChange st targetValue (Z.to_nat (k - 1)))
     = totalNamedRegionSize st
       - effectiveSize (accountDataSizes st) (Z.to_nat (k - 1))
       + or_32 (Some (nanToZero (JS.parseInt targetValue 10))).
Proof.
  intro Hk.
  set (st' := handleAccountDataSizeChange st targetValue (Z.to_nat (k - 1))).
  set (v := nanToZero (JS.parseInt targetValue 10)).
  assert (Hnew : effectiveSize (accountDataSizes st') (Z.to_nat (k - 1))
                 = or_32 (Some v)).
  { unfold effectiveSize, st'. cbn [accountDataSizes handleAccountDataSizeChange].
    now rewrite array_get_set. }
  assert (Hother : forall j : nat, j <> Z.to_nat (k - 1) ->
            effectiveSize (accountDataSizes st') j
            = effectiveSize (accountDataSizes st) j).
  { intros j Hj. unfold effectiveSize, st'.
    cbn [accountDataSizes handleAccountDataSizeChange].
    now rewrite array_set_other by congruence. }
  split; [apply legendAccountIndex_accountName |].
  split; [| split; [exact Hother | split; [reflexivity | split; [reflexivity |]]]].
  - assert (Hk' : 1 <= k <= numberOfAccounts st') by exact Hk.
    pose proof (findRegion_in st' _ (accountData_in_layout st' k Hk')) as Hfind.
    cbn [name mkRegion] in Hfind. rewrite Hfind.
    cbn [option_map size mkRegion]. now rewrite Hnew.
  - rewrite !totalNamedRegionSize_eq.
    change (numberOfAccounts st') with (numberOfAccounts st).
    change (instructionDataSize st') with (instructionDataSize st).
    rewrite (sumOver_update
               (fun index =>
                  templateTotal (effectiveSize (accountDataSizes st) index))
               (fun index =>
                  templateTotal (effectiveSize (accountDataSizes st') index))
               (Z.to_nat (k - 1)))
      by (intros j Hj; now rewrite Hother).
    destruct (Nat.ltb_spec (Z.to_nat (k - 1)) (Z.to_nat (numberOfAccounts st)));
      [| lia].
    rewrite Hnew, !templateTotal_eq. lia.
Qed.

(** Typing 100 as the data size of the only account of the initial
    layout. *)
Lemma data_size_change_effect_witness :
  totalNamedRegionSize (handleAccountDataSizeChange initialState "100" 0)
  = 10448 - 32 + 100.
Proof.
  destruct (data_size_change_effect initialState "100" 1
              ltac:(vm_compute; split; discriminate))
    as (_ & _ & _ & _ & _ & H).
  exact H.
Defined.

(** X10. A focused account data size field that the layout does not have
    (its account number is above the count) is not treated as missing:
    [getRegionOffset] answers -1 and the component takes the 8 bytes from
    offset -1, so the cells 0 to 6 show the bytes 1 to 7 of the encoding
    instead of the filler. *)
Theorem stale_focus_offset (st : State) (k : Z) :
  section_name (selectedSection st) = PROGRAM_INPUT ->
  0 <= numberOfAccounts st < k ->
  focusedRegion st = Some (accountName k "Account data size") ->
  getRegionOffset st (accountName k "Account data size") = -1
  /\ (forall index, 0 <= index < 7 ->
      getMemoryValue st index
      = hex2 (encodedByteOf
                (effectiveSize (accountDataSizes st) (Z.to_nat (k - 1)))
                (index + 1)))
  /\ (forall index, 7 <= index ->
      getMemoryValue st index = hex2 (index mod 256)).
Proof.
  intros Hsec Hk Hf.
  assert (Hoff : getRegionOffset st (accountName k "Account data size") = -1).
  { apply regionOffsetFrom_none. intros x Hx Heq.
    apply (in_map name) in Hx. rewrite Heq in Hx.
    apply layout_names in Hx as [Hfix | (index & base & Hi & _ & Hname)].
    - destruct (accountName_head k "Account data size") as [rest Hrest].
      rewrite Hrest in Hfix. cbn in Hfix.
      destruct Hfix as [H | [H | [H | [H | []]]]]; discriminate.
    - apply accountName_inj in Hname as [Hk' _]. lia. }
  assert (Hval : forall index,
            getMemoryValue st index
            = match encodedByte
                      (effectiveSize (accountDataSizes st) (Z.to_nat (k - 1)))
                      index (-1) with
              | Some shown => shown
              | None => fillerByte index
              end).
  { intro index. unfold getMemoryValue. unfold PROGRAM_INPUT in Hsec.
    rewrite Hsec, String.eqb_refl, Hf.
    rewrite includes_data_size, focused_lookup_name, Hoff.
    rewrite accountIndexOf_accountName, array_get_number_index by lia.
    reflexivity. }
  split; [exact Hoff | split].
  - intros index Hi. rewrite Hval, encodedByte_inside by lia.
    repeat f_equal; lia.
  - intros index Hi. rewrite Hval, encodedByte_outside by lia.
    apply fillerByte_mod. lia.
Qed.

(** One account, and the data size field of account 5 still focused:
    cell 1 shows 00, not 01. *)
Lemma stale_focus_offset_witness :
  getMemoryValue
    (mkState programInputSection (Some "Account 5: Account data size")
       [Some 32] 32 1) 1
  = "00".
Proof.
  destruct (stale_focus_offset
              (mkState programInputSection
                 (Some "Account 5: Account data size") [Some 32] 32 1) 5
              eq_refl ltac:(vm_compute; split; discriminate || reflexivity)
              eq_refl)
    as (_ & Hcells & _).
  rewrite (Hcells 1) by lia. reflexivity.
Defined.

(** ** Row addresses *)

Section RowAddress.

Lemma string_length_app (a b : string) :
  String.length (a ++ b) = (String.length a + String.length b)%nat.
Proof. induction a as [| c a IH]; cbn; [reflexivity | now rewrite IH]. Qed.

Lemma toUpperCase_app (a b : string) :
  JS.toUpperCase (a ++ b) = (JS.toUpperCase a ++ JS.toUpperCase b)%string.
Proof. induction a as [| c a IH]; cbn; [reflexivity | now rewrite IH]. Qed.

Lemma toUpperCase_length (s : string) :
  String.length (JS.toUpperCase s) = String.length s.
Proof. induction s as [| c s IH]; cbn; [reflexivity | now rewrite IH]. Qed.

Lemma digit_value_upper (d : Z) :
  0 <= d < 36 -> JS.digit_value (JS.upper_char (JS.digit_char d)) = Some d.
Proof.
  intro Hd.
  pose proof (forall_below
    (fun d => match JS.digit_value (JS.upper_char (JS.digit_char d)) with
              | Some d' => d' =? d
              | None => false
              end) 36 eq_refl d Hd) as H.
  cbv beta in H.
  destruct (JS.digit_value (JS.upper_char (JS.digit_char d))); [| discriminate].
  apply Z.eqb_eq in H. now subst.
Qed.

Variable radix : Z.
Hypothesis radix_range : 2 <= radix <= 36.

(** Reading back the upper-case digits of [n], after nothing or after
    zeros. *)
Lemma parse_upper_digits (f : nat) :
  forall (n : Z) (rest : string) (acc : option Z),
    acc = None \/ acc = Some 0 ->
    0 <= n < 2 ^ (Z.of_nat f + 1) ->
    JS.parse_digits radix
      (JS.toUpperCase (JS.digits_of radix (S f) n) ++ rest) acc
    = JS.parse_digits radix rest (Some n).
Proof.
  assert (Hone : forall n rest acc,
            acc = None \/ acc = Some 0 -> 0 <= n < radix ->
            JS.parse_digits radix
              (String (JS.upper_char (JS.digit_char n)) rest) acc
            = JS.parse_digits radix rest (Some n)).
  { intros n rest acc Hacc Hn. cbn [JS.parse_digits].
    rewrite digit_value_upper by lia.
    destruct (Z.ltb_spec n radix); [| lia].
    destruct Hacc as [-> | ->]; do 2 f_equal; lia. }
  induction f as [| f IH]; intros n rest acc Hacc Hn.
  - assert (Hlt : n < radix)
      by (change (2 ^ (Z.of_nat 0 + 1)) with 2 in Hn; lia).
    rewrite digits_of_S. apply Z.ltb_lt in Hlt as Hb. rewrite Hb.
    cbn [JS.toUpperCase append]. apply Hone; [exact Hacc | lia].
  - rewrite digits_of_S. destruct (n <? radix) eqn:Hb.
    + apply Z.ltb_lt in Hb. cbn [JS.toUpperCase append].
      apply Hone; [exact Hacc | lia].
    + apply Z.ltb_ge in Hb.
      rewrite toUpperCase_app, append_assoc.
      rewrite IH by (exact Hacc || (apply (div_radix_bound radix); [lia | exact Hn])).
      cbn [JS.toUpperCase append JS.parse_digits].
      pose proof (Z.mod_pos_bound n radix ltac:(lia)) as Hm.
      rewrite digit_value_upper by lia.
      destruct (Z.ltb_spec (n mod radix) radix); [| lia].
      do 2 f_equal.
      pose proof (Z.div_mod n radix ltac:(lia)). lia.
Qed.

Lemma parse_leading_zeros (m : nat) (s : string) (acc : option Z) :
  acc = None \/ acc = Some 0 ->
  exists acc', (acc' = None \/ acc' = Some 0)
               /\ JS.parse_digits radix (JS.repeat_char "0" m ++ s) acc
                  = JS.parse_digits radix s acc'.
Proof.
  revert acc. induction m as [| m IH]; intros acc Hacc.
  - exists acc. now split.
  - cbn [JS.repeat_char append JS.parse_digits].
    change (JS.digit_value "0") with (Some 0). cbv iota.
    assert (Hlt : (0 <? radix) = true) by (apply Z.ltb_lt; lia).
    rewrite Hlt.
    destruct (IH (Some match acc with Some a => a * radix + 0 | None => 0 end))
      as (acc' & Hacc' & Heq).
    + right. destruct Hacc as [-> | ->]; reflexivity.
    + exists acc'. split; [exact Hacc' | exact Heq].
Qed.

(** The number of digits of [n] is one more than the largest [k] with
    [radix ^ k <= n]. *)
Lemma digits_of_length (k : nat) :
  forall (f : nat) (n : Z),
    radix ^ Z.of_nat k <= n < radix ^ (Z.of_nat k + 1) ->
    n < 2 ^ (Z.of_nat f + 1) ->
    String.length (JS.digits_of radix (S f) n) = S k.
Proof.
  induction k as [| k IH]; intros f n Hn Hf.
  - change (radix ^ Z.of_nat 0) with 1 in Hn.
    change (Z.of_nat 0 + 1) with 1 in Hn. rewrite Z.pow_1_r in Hn.
    rewrite digits_of_S. destruct (Z.ltb_spec n radix); [reflexivity | lia].
  - rewrite Nat2Z.inj_succ in Hn.
    replace (Z.succ (Z.of_nat k) + 1) with (Z.succ (Z.of_nat k + 1)) in Hn by lia.
    rewrite !Z.pow_succ_r in Hn by lia.
    assert (Hpow : 0 < radix ^ Z.of_nat k) by (apply Z.pow_pos_nonneg; lia).
    assert (Hge : radix <= n) by nia.
    destruct f as [| f].
    { change (2 ^ (Z.of_nat 0 + 1)) with 2 in Hf. lia. }
    rewrite digits_of_S. destruct (Z.ltb_spec n radix); [lia |].
    rewrite string_length_app. cbn [String.length].
    rewrite IH; [lia | |].
    + split.
      * apply Z.div_le_lower_bound; lia.
      * apply Z.div_lt_upper_bound; lia.
    + apply (div_radix_bound radix radix_range f n). lia.
Qed.

End RowAddress.

(** [parseInt] drops the prefix [0x] with the radix 16 and with no
    radix, and then reads hexadecimal digits. *)
Lemma parseInt_hex_prefix (body : string) (radix : Z) :
  radix = 16 \/ radix = 0 ->
  JS.parseInt ("0x" ++ body) radix
  = match JS.parse_digits 16 body None with
    | Some m => Some (1 * m)
    | None => None
    end.
Proof. intros [-> | ->]; reflexivity. Qed.

(** X11. The address label of a row reads back as the address of the
    row's first byte, with the radix 16 or with no radix (the label starts
    with 0x); and for an address of nine hexadecimal digits, which is
    every row of the four sections, it is 11 characters long. *)
Theorem rowAddress_roundtrip (st : State) (index : Z) :
  0 <= section_start (selectedSection st) + index * 16 ->
  JS.parseInt (rowAddress st index) 16
  = Some (section_start (selectedSection st) + index * 16)
  /\ JS.parseInt (rowAddress st index) 0
     = Some (section_start (selectedSection st) + index * 16)
  /\ (16 ^ 8 <= section_start (selectedSection st) + index * 16 < 16 ^ 9 ->
      String.length (rowAddress st index) = 11%nat)
  /\ (In (selectedSection st) MEMORY_SECTIONS -> 0 <= index < 268435456 ->
      String.length (rowAddress st index) = 11%nat).
Proof.
  intro Haddr. unfold rowAddress, BYTES_PER_ROW.
  set (addr := section_start (selectedSection st) + index * 16) in *.
  assert (Hstr : JS.toString 16 addr = JS.digits 16 addr).
  { unfold JS.toString. destruct (Z.ltb_spec addr 0); [lia | reflexivity]. }
  rewrite Hstr.
  assert (Hbody : JS.parse_digits 16
                    (JS.padStart 9 "0" (JS.toUpperCase (JS.digits 16 addr)))
                    None = Some addr).
  { unfold JS.padStart.
    destruct (parse_leading_zeros 16 ltac:(lia)
                (9 - String.length (JS.toUpperCase (JS.digits 16 addr)))
                (JS.toUpperCase (JS.digits 16 addr)) None (or_introl eq_refl))
      as (acc' & Hacc' & ->).
    rewrite <- (append_nil_r (JS.toUpperCase _)). unfold JS.digits.
    rewrite (parse_upper_digits 16 ltac:(lia))
      by (exact Hacc' || apply log2_fuel, Haddr).
    reflexivity. }
  assert (Hlen : 16 ^ 8 <= addr < 16 ^ 9 ->
            String.length
              ("0x" ++ JS.padStart 9 "0" (JS.toUpperCase (JS.digits 16 addr)))
            = 11%nat).
  { intro Hrange. cbn [append String.length]. unfold JS.padStart.
    assert (Hd : String.length (JS.toUpperCase (JS.digits 16 addr)) = 9%nat).
    { rewrite toUpperCase_length. unfold JS.digits.
      apply (digits_of_length 16 ltac:(lia) 8);
        [exact Hrange | apply log2_fuel, Haddr]. }
    rewrite string_length_app, Hd. reflexivity. }
  split; [| split; [| split; [exact Hlen |]]].
  - rewrite parseInt_hex_prefix, Hbody by now left. f_equal. lia.
  - rewrite parseInt_hex_prefix, Hbody by now right. f_equal. lia.
  - intros Hsec Hidx. apply Hlen. unfold addr.
    cbn in Hsec.
    destruct Hsec as [<- | [<- | [<- | [<- | []]]]]; cbn [section_start]; lia.
Qed.

(** The last row of the initial grid. *)
Lemma rowAddress_roundtrip_witness :
  JS.parseInt (rowAddress initialState 653) 16 = Some (0x400000000 + 653 * 16).
Proof.
  destruct (rowAddress_roundtrip initialState 653
              ltac:(vm_compute; discriminate)) as (H & _).
  exact H.
Defined.

(** ** The hexadecimal filter of the input component *)

Section HexFilter.

Lemma hex_char_upper (c : ascii) :
  Input.isHexChar c = true -> isUpperHex (JS.upper_char c) = true.
Proof.
  destruct c as [[] [] [] [] [] [] [] []]; intro H;
    try discriminate H; reflexivity.
Qed.

Lemma upper_hex_fixed (c : ascii) :
  isUpperHex c = true -> Input.isHexChar c = true /\ JS.upper_char c = c.
Proof.
  destruct c as [[] [] [] [] [] [] [] []]; intro H;
    try discriminate H; split; reflexivity.
Qed.

Lemma filtered_upper_hex (s : string) :
  all_chars isUpperHex (JS.toUpperCase (Input.removeNonHex s)) = true.
Proof.
  induction s as [| c s IH]; [reflexivity |].
  cbn [Input.removeNonHex]. destruct (Input.isHexChar c) eqn:E; [| exact IH].
  cbn [JS.toUpperCase all_chars]. now rewrite hex_char_upper, IH.
Qed.

Lemma upper_hex_unchanged (s : string) :
  all_chars isUpperHex s = true ->
  JS.toUpperCase (Input.removeNonHex s) = s.
Proof.
  induction s as [| c s IH]; [reflexivity |].
  cbn [all_chars]. intro H. apply andb_true_iff in H as [Hc Hs].
  destruct (upper_hex_fixed c Hc) as [Hhex Hup].
  cbn [Input.removeNonHex]. rewrite Hhex. cbn [JS.toUpperCase].
  now rewrite Hup, IH.
Qed.

Lemma take_all_chars (p : ascii -> bool) (k : nat) (s : string) :
  all_chars p s = true -> all_chars p (JS.take k s) = true.
Proof.
  revert s. induction k as [| k IH]; intros [| c s] H; try reflexivity.
  cbn [all_chars] in H. apply andb_true_iff in H as [Hc Hs].
  cbn [JS.take all_chars]. now rewrite Hc, IH.
Qed.

Lemma take_length (k : nat) (s : string) :
  (String.length (JS.take k s) <= k)%nat.
Proof.
  revert s. induction k as [| k IH]; intros [| c s]; cbn; try lia.
  specialize (IH s). lia.
Qed.

Lemma take_take (k : nat) (s : string) :
  JS.take k (JS.take k s) = JS.take k s.
Proof.
  revert s. induction k as [| k IH]; intros [| c s]; cbn; try reflexivity.
  now rewrite IH.
Qed.

Lemma sliceTo_all_chars (p : ascii -> bool) (s : string) (e : Z) :
  all_chars p s = true -> all_chars p (JS.sliceTo s e) = true.
Proof.
  intro H. unfold JS.sliceTo. destruct (e <? 0); now apply take_all_chars.
Qed.

End HexFilter.

(** X12. With the hexadecimal filter on, the value [handleChange] of
    the input component writes back to the input and hands to
    [onHexChange] consists of the digits 0-9 and A-F only; with a
    positive [maxHexLength] it is the first [maxHexLength] characters of
    the filtered text, and with [maxHexLength] absent or 0 it is the whole
    filtered text; filtering a filtered value changes nothing (for a
    limit that is not negative).  With the filter off the value passes
    unchanged. *)
Theorem hex_filter (maxHexLength : option Z) (value : string) :
  all_chars isUpperHex (fst (Input.handleChange true maxHexLength value))
  = true
  /\ snd (Input.handleChange true maxHexLength value)
     = Some (fst (Input.handleChange true maxHexLength value))
  /\ (forall m, maxHexLength = Some m -> 0 < m ->
      fst (Input.handleChange true maxHexLength value)
      = JS.take (Z.to_nat m) (JS.toUpperCase (Input.removeNonHex value))
      /\ Z.of_nat
           (String.length (fst (Input.handleChange true maxHexLength value)))
         <= m)
  /\ (maxHexLength = None \/ maxHexLength = Some 0 ->
      fst (Input.handleChange true maxHexLength value)
      = JS.toUpperCase (Input.removeNonHex value))
  /\ ((forall m, maxHexLength = Some m -> 0 <= m) ->
      fst (Input.handleChange true maxHexLength
             (fst (Input.handleChange true maxHexLength value)))
      = fst (Input.handleChange true maxHexLength value))
  /\ Input.handleChange false maxHexLength value = (value, None).
Proof.
  pose proof (filtered_upper_hex value) as Hhex.
  assert (Hall : all_chars isUpperHex
                   (fst (Input.handleChange true maxHexLength value)) = true).
  { unfold Input.handleChange. cbn [fst].
    destruct maxHexLength as [m |]; [| exact Hhex].
    destruct (m =? 0); [exact Hhex | now apply sliceTo_all_chars]. }
  split; [exact Hall | split; [reflexivity | split; [| split; [| split]]]].
  - intros m -> Hm. unfold Input.handleChange. cbn [fst].
    destruct (Z.eqb_spec m 0); [lia |].
    unfold JS.sliceTo. destruct (Z.ltb_spec m 0); [lia |].
    split; [reflexivity |].
    pose proof (take_length (Z.to_nat m)
                  (JS.toUpperCase (Input.removeNonHex value))). lia.
  - intros [-> | ->]; reflexivity.
  - intro Hm. revert Hall. unfold Input.handleChange. cbn [fst].
    destruct maxHexLength as [m |].
    + specialize (Hm m eq_refl).
      destruct (Z.eqb_spec m 0); [intro Hall; now apply upper_hex_unchanged |].
      unfold JS.sliceTo. destruct (Z.ltb_spec m 0); [lia |].
      intro Hall. rewrite (upper_hex_unchanged _ Hall). apply take_take.
    + intro Hall. now apply upper_hex_unchanged.
  - reflexivity.
Qed.

(** A pasted address, limited to four digits. *)
Lemma hex_filter_witness :
  fst (Input.handleChange true (Some 4) "0x1f-zg9Ab") = "01F9".
Proof.
  destruct (hex_filter (Some 4) "0x1f-zg9Ab") as (_ & _ & Hmax & _).
  destruct (Hmax 4 eq_refl ltac:(lia)) as (H & _).
  rewrite H. reflexivity.
Defined.

(** ** Sub-region colours *)

Section SubRegions.

Lemma subRegionColorFrom_in (start : Z) (s : SubRegion) (rest : list SubRegion)
    (byteOffset : Z) :
  start <= byteOffset < start + sub_size s ->
  subRegionColorFrom start (s :: rest) byteOffset = Some (sub_color s).
Proof.
  intro H. cbn [subRegionColorFrom].
  destruct (Z.leb_spec start byteOffset); [| lia].
  destruct (Z.ltb_spec byteOffset (start + sub_size s)); [reflexivity | lia].
Qed.

Lemma subRegionColorFrom_out (start : Z) (s : SubRegion) (rest : list SubRegion)
    (byteOffset : Z) :
  ~ (start <= byteOffset < start + sub_size s) ->
  subRegionColorFrom start (s :: rest) byteOffset
  = subRegionColorFrom (start + sub_size s) rest byteOffset.
Proof.
  intro H. cbn [subRegionColorFrom].
  destruct (Z.leb_spec start byteOffset),
           (Z.ltb_spec byteOffset (start + sub_size s));
    try reflexivity. lia.
Qed.

Lemma accountRegion_in_layout (st : State) (k : Z) (r : Region) :
  1 <= k <= numberOfAccounts st ->
  In r (accountRegionsOf (accountDataSizes st) (Z.to_nat (k - 1))) ->
  In r (programInputRegions st).
Proof.
  intros Hk Hr. rewrite (layout_split st (Z.to_nat (k - 1))) by lia.
  apply in_or_app. right. apply in_or_app. now left.
Qed.

(** The colour of a cell of the focused region [r] of account [k], when
    [r] is not a data or data size field. *)
Lemma focused_account_region_colour (st : State) (k : Z) (base : string)
    (r : Region) (byteOffset : Z) :
  sizesNonNegative st ->
  section_name (selectedSection st) = PROGRAM_INPUT ->
  In r (programInputRegions st) ->
  name r = accountName k base ->
  In base baseNames -> base <> "Account data size" ->
  focusedRegion st = Some (name r) ->
  getRegionOffset st (name r) <= byteOffset
  < getRegionOffset st (name r) + size r ->
  getRegionColor st byteOffset
  = match subRegionColorFrom (getRegionOffset st (name r)) (subRegions r)
            byteOffset with
    | Some c => c
    | None => color r
    end.
Proof.
  intros Hpos Hsec Hin Hname Hbase Hnot Hf Hspan.
  destruct (accountName_head k base) as [rest Hrest].
  rewrite (focused_color_precedence st byteOffset (name r) r
             (getRegionOffset st (name r)) Hsec Hf).
  - rewrite String.eqb_refl.
    replace (String.eqb (name r) "Instruction data size") with false
      by (rewrite Hname, Hrest; reflexivity).
    reflexivity.
  - rewrite Hname, Hrest. discriminate.
  - now apply ownerFrom_of_member.
  - rewrite Hname at 1. rewrite includes_data_size_base by exact Hbase.
    apply String.eqb_neq in Hnot. now rewrite Hnot.
Qed.

End SubRegions.

(** X13. When the flags or the public keys of an account of the layout
    are focused (and no stored size is negative), every cell of the
    region takes the colour of the sub-region it lies in: the four flag
    bytes are green-300, -400, -500 and -600, and the keys are indigo for
    the first 32 bytes and violet for the other 32. *)
Theorem subregion_colours (st : State) (k j : Z) :
  sizesNonNegative st ->
  section_name (selectedSection st) = PROGRAM_INPUT ->
  1 <= k <= numberOfAccounts st ->
  (focusedRegion st = Some (accountName k "Account Flags") ->
   0 <= j < 4 ->
   getRegionColor st (getRegionOffset st (accountName k "Account Flags") + j)
   = nth (Z.to_nat j)
         ["bg-green-300"; "bg-green-400"; "bg-green-500"; "bg-green-600"] "")
  /\ (focusedRegion st = Some (accountName k "Public keys") ->
      0 <= j < 64 ->
      getRegionColor st (getRegionOffset st (accountName k "Public keys") + j)
      = if j <? 32 then "bg-indigo-400" else "bg-violet-400").
Proof.
  intros Hpos Hsec Hk.
  assert (Hkk : Z.of_nat (Z.to_nat (k - 1)) + 1 = k) by lia.
  split.
  - intros Hf Hj.
    set (r := mkRegion (accountName k "Account Flags") 4 "bg-green-400" None
                false
                [ mkSub "Is Duplicate" 1 "bg-green-300";
                  mkSub "Is Signer" 1 "bg-green-400";
                  mkSub "Is Writable" 1 "bg-green-500";
                  mkSub "Is Executable" 1 "bg-green-600" ]).
    assert (Hin : In r (programInputRegions st)).
    { apply (accountRegion_in_layout st k); [exact Hk |].
      unfold accountRegionsOf. cbn [ACCOUNT_REGIONS map]. rewrite Hkk.
      left. reflexivity. }
    change (accountName k "Account Flags") with (name r) in Hf |- *.
    assert (Hbase : In "Account Flags" baseNames) by (cbn; tauto).
    assert (Hne : "Account Flags" <> "Account data size") by discriminate.
    assert (Hspan : getRegionOffset st (name r)
                    <= getRegionOffset st (name r) + j
                    < getRegionOffset st (name r) + size r)
      by (change (size r) with 4; lia).
    rewrite (focused_account_region_colour st k "Account Flags" r _
               Hpos Hsec Hin eq_refl Hbase Hne Hf Hspan).
    set (start := getRegionOffset st (name r)). clearbody start.
    unfold r. cbn [subRegions color mkRegion].
    assert (Hcases : j = 0 \/ j = 1 \/ j = 2 \/ j = 3) by lia.
    destruct Hcases as [-> | [-> | [-> | ->]]].
    + rewrite subRegionColorFrom_in by (cbn; lia). reflexivity.
    + rewrite subRegionColorFrom_out, subRegionColorFrom_in by (cbn; lia).
      reflexivity.
    + rewrite !subRegionColorFrom_out by (cbn; lia).
      rewrite subRegionColorFrom_in by (cbn; lia). reflexivity.
    + rewrite !subRegionColorFrom_out by (cbn; lia).
      rewrite subRegionColorFrom_in by (cbn; lia). reflexivity.
  - intros Hf Hj.
    set (r := mkRegion (accountName k "Public keys") 64 "bg-purple-400" None
                false
                [ mkSub "Account Pub Key" 32 "bg-indigo-400";
                  mkSub "Account Owner Pub Key" 32 "bg-violet-400" ]).
    assert (Hin : In r (programInputRegions st)).
    { apply (accountRegion_in_layout st k); [exact Hk |].
      unfold accountRegionsOf. cbn [ACCOUNT_REGIONS map]. rewrite Hkk.
      do 2 right. left. reflexivity. }
    change (accountName k "Public keys") with (name r) in Hf |- *.
    assert (Hbase : In "Public keys" baseNames) by (cbn; tauto).
    assert (Hne : "Public keys" <> "Account data size") by discriminate.
    assert (Hspan : getRegionOffset st (name r)
                    <= getRegionOffset st (name r) + j
                    < getRegionOffset st (name r) + size r)
      by (change (size r) with 64; lia).
    rewrite (focused_account_region_colour st k "Public keys" r _
               Hpos Hsec Hin eq_refl Hbase Hne Hf Hspan).
    set (start := getRegionOffset st (name r)). clearbody start.
    unfold r. cbn [subRegions color mkRegion].
    destruct (Z.ltb_spec j 32).
    + rewrite subRegionColorFrom_in by (cbn; lia). reflexivity.
    + rewrite subRegionColorFrom_out, subRegionColorFrom_in by (cbn; lia).
      reflexivity.
Qed.

(** The flags of the only account of the initial layout start at byte 8;
    the third flag byte is green-500. *)
Lemma subregion_colours_witness :
  getRegionColor
    (handleAccordionChange initialState "Account 1: Account Flags") (8 + 2)
  = "bg-green-500".
Proof.
  pose (st := handleAccordionChange initialState "Account 1: Account Flags").
  assert (Hpos : sizesNonNegative st) by exact sizesNonNegative_initial.
  destruct (subregion_colours st 1 2 Hpos eq_refl
              ltac:(vm_compute; split; discriminate)) as (Hflags & _).
  exact (Hflags eq_refl ltac:(lia)).
Defined.

(** ** The two viewers *)

Section Variants.

Lemma single_total (s : Single.State) :
  Single.totalNamedRegionSize s
  = 10384 + Single.accountDataSize s + Single.instructionDataSize s.
Proof.
  destruct s as [sec foc a i n]. cbn [Single.accountDataSize
    Single.instructionDataSize].
  unfold Single.totalNamedRegionSize. cbv -[Z.add]. lia.
Qed.

Lemma multiOf_total (s : Single.State) :
  Single.numberOfAccounts s = 1 ->
  totalNamedRegionSize (multiOf s)
  = 10384 + or_32 (Some (Single.accountDataSize s))
    + Single.instructionDataSize s.
Proof.
  intro Hn. rewrite totalNamedRegionSize_eq, fixedTotal_eq.
  cbn [numberOfAccounts instructionDataSize accountDataSizes multiOf].
  rewrite Hn. change (Z.to_nat 1) with 1%nat. cbn [sumOver].
  rewrite templateTotal_eq. unfold effectiveSize. cbn [array_get nth_error].
  lia.
Qed.

Lemma multiOf_sizes (s : Single.State) :
  Single.numberOfAccounts s = 1 ->
  Single.accountDataSize s <> 0 ->
  map size (programInputRegions (multiOf s))
  = map size (Single.programInputRegions s).
Proof.
  destruct s as [sec foc a i n].
  cbn [Single.accountDataSize Single.numberOfAccounts].
  intros -> H. destruct a; [now elim H | |]; vm_compute; reflexivity.
Qed.

Lemma multiOf_offsets (s : Single.State) (regionName : string) :
  Single.numberOfAccounts s = 1 ->
  Single.accountDataSize s <> 0 ->
  In regionName (map name (Single.programInputRegions s)) ->
  getRegionOffset (multiOf s) (multiName regionName)
  = Single.getRegionOffset s regionName.
Proof.
  destruct s as [sec foc a i n].
  cbn [Single.accountDataSize Single.numberOfAccounts].
  intros -> H Hin. cbn in Hin.
  destruct a; [now elim H | |];
    repeat (destruct Hin as [<- | Hin]; [vm_compute; reflexivity |]);
    destruct Hin.
Qed.

(** What the single-account viewer shows for each focused name of its
    layout: the bytes of the parameter for the three integer-backed
    fields, the filler for the others. *)
Lemma single_value (s : Single.State) (index : Z) (f : string) :
  section_name (Single.selectedSection s) = PROGRAM_INPUT ->
  Single.focusedRegion s = Some f ->
  In f (map name (Single.programInputRegions s)) ->
  Single.getMemoryValue s index
  = match (if String.eqb f "Account data size"
           then encodedByte (Single.accountDataSize s) index
                  (Single.getRegionOffset s f)
           else if String.eqb f "Instruction data size"
           then encodedByte (Single.instructionDataSize s) index
                  (Single.getRegionOffset s f)
           else if String.eqb f "Number of accounts"
           then encodedByte (Single.numberOfAccounts s) index
                  (Single.getRegionOffset s f)
           else None) with
    | Some shown => shown
    | None => fillerByte index
    end.
Proof.
  intros Hsec Hf Hin. unfold Single.getMemoryValue.
  unfold PROGRAM_INPUT in Hsec. rewrite Hsec, String.eqb_refl, Hf.
  destruct (String.eqb_spec f "Account data size") as [-> | _];
    [reflexivity |].
  destruct (String.eqb_spec f "Instruction data size") as [-> | _];
    [reflexivity |].
  destruct (String.eqb_spec f "Number of accounts") as [-> | _];
    reflexivity.
Qed.

Lemma multiOf_value (s : Single.State) (index : Z) (f : string) :
  section_name (Single.selectedSection s) = PROGRAM_INPUT ->
  Single.numberOfAccounts s = 1 ->
  Single.accountDataSize s <> 0 ->
  Single.focusedRegion s = Some f ->
  In f (map name (Single.programInputRegions s)) ->
  getMemoryValue (multiOf s) index = Single.getMemoryValue s index.
Proof.
  intros Hsec Hn Ha Hf Hin.
  rewrite (single_value s index f Hsec Hf Hin).
  rewrite <- (multiOf_offsets s f Hn Ha Hin).
  assert (Hfm : focusedRegion (multiOf s) = Some (multiName f))
    by (unfold multiOf; cbn [focusedRegion]; now rewrite Hf).
  assert (Hsecm : section_name (selectedSection (multiOf s)) = PROGRAM_INPUT)
    by exact Hsec.
  assert (Heff : effectiveSize (accountDataSizes (multiOf s)) (Z.to_nat (1 - 1))
                 = Single.accountDataSize s).
  { unfold effectiveSize. cbn. apply Z.eqb_neq in Ha. now rewrite Ha. }
  assert (Huntested : forall g,
            JS.includes "Account data size" g = false ->
            g <> "Instruction data size" -> g <> "Number of accounts" ->
            multiName f = g ->
            getMemoryValue (multiOf s) index = fillerByte index).
  { intros g H1 H2 H3 Hg.
    apply (getMemoryValue_untested (multiOf s) index g);
      [now rewrite Hfm, Hg | exact H1 | exact H2 | exact H3]. }
  cbn in Hin.
  destruct Hin as
    [<- | [<- | [<- | [<- | [<- | [<- | [<- | [<- | [<- | [<- | [<- | [<- | []]]]]]]]]]]]];
    cbn [String.eqb Ascii.eqb Bool.eqb andb].
  - rewrite (getMemoryValue_integerBacked (multiOf s) index _ _ Hsecm Hfm
               (IB_count (multiOf s))).
    reflexivity.
  - now apply (Huntested "Account 1: Account Flags").
  - now apply (Huntested "Account 1: Padding 1").
  - now apply (Huntested "Account 1: Public keys").
  - now apply (Huntested "Account 1: Lamports").
  - pose proof (IB_account (multiOf s) 1) as Hib.
    rewrite Heff in Hib.
    rewrite (getMemoryValue_integerBacked (multiOf s) index _ _ Hsecm Hfm
               (Hib ltac:(cbn; lia))).
    reflexivity.
  - now apply (Huntested "Account 1: Account data").
  - now apply (Huntested "Account 1: Realloc padding").
  - now apply (Huntested "Account 1: Rent epoch").
  - rewrite (getMemoryValue_integerBacked (multiOf s) index _ _ Hsecm Hfm
               (IB_instruction (multiOf s))).
    reflexivity.
  - now apply (Huntested "Instruction data").
  - now apply (Huntested "Program ID").
Qed.

End Variants.

(** X14. The two viewers agree when the count is 1 and the account data
    size is not 0: the multi-account layout has the regions of the
    single-account layout, with "Account 1: " before the names of the
    account block, the same sizes, colours and offsets, and with the
    variable section selected the cells show the same values for every
    focused region of the layout.  With the size 0 they
    differ: the single-account viewer lays out a data region of size 0,
    the multi-account viewer one of 32 bytes, and the totals differ by
    32. *)
Theorem viewers_agree (s : Single.State) :
  Single.numberOfAccounts s = 1 ->
  map name (programInputRegions (multiOf s))
  = map multiName (map name (Single.programInputRegions s))
  /\ map color (programInputRegions (multiOf s))
     = map color (Single.programInputRegions s)
  /\ (Single.accountDataSize s <> 0 ->
      map size (programInputRegions (multiOf s))
      = map size (Single.programInputRegions s)
      /\ totalNamedRegionSize (multiOf s) = Single.totalNamedRegionSize s
      /\ (forall regionName,
          In regionName (map name (Single.programInputRegions s)) ->
          getRegionOffset (multiOf s) (multiName regionName)
          = Single.getRegionOffset s regionName)
      /\ (section_name (Single.selectedSection s) = PROGRAM_INPUT ->
          forall f index,
            Single.focusedRegion s = Some f ->
            In f (map name (Single.programInputRegions s)) ->
            getMemoryValue (multiOf s) index = Single.getMemoryValue s index))
  /\ (Single.accountDataSize s = 0 ->
      totalNamedRegionSize (multiOf s) = Single.totalNamedRegionSize s + 32
      /\ option_map size (findRegion (multiOf s) "Account 1: Account data")
         = Some 32
      /\ option_map size
           (find (fun r => String.eqb (name r) "Account data")
                 (Single.programInputRegions s))
         = Some 0).
Proof.
  intro Hn.
  assert (Hnames : map name (programInputRegions (multiOf s))
                   = map multiName (map name (Single.programInputRegions s))).
  { destruct s as [sec foc a i n]. cbn [Single.numberOfAccounts] in Hn.
    subst n. vm_compute. reflexivity. }
  assert (Hcolors : map color (programInputRegions (multiOf s))
                    = map color (Single.programInputRegions s)).
  { destruct s as [sec foc a i n]. cbn [Single.numberOfAccounts] in Hn.
    subst n. vm_compute. reflexivity. }
  split; [exact Hnames | split; [exact Hcolors | split]].
  - intro Ha. split; [now apply multiOf_sizes | split; [| split]].
    + rewrite multiOf_total, single_total by exact Hn.
      cbn [or_32]. apply Z.eqb_neq in Ha. now rewrite Ha.
    + intros regionName Hin. now apply multiOf_offsets.
    + intros Hsec f index Hf Hin. now apply (multiOf_value s index f).
  - intro Ha. split; [| split].
    + rewrite multiOf_total, single_total by exact Hn. rewrite Ha.
      cbn [or_32 Z.eqb]. lia.
    + destruct s as [sec foc a i n].
      cbn [Single.numberOfAccounts Single.accountDataSize] in Hn, Ha.
      subst n a. vm_compute. reflexivity.
    + destruct s as [sec foc a i n].
      cbn [Single.accountDataSize] in Ha. subst a. vm_compute. reflexivity.
Qed.

(** The initial states of the two viewers. *)
Lemma viewers_agree_witness :
  totalNamedRegionSize (multiOf Single.initialState)
  = Single.totalNamedRegionSize Single.initialState.
Proof.
  destruct (viewers_agree Single.initialState eq_refl) as (_ & _ & Hsame & _).
  destruct (Hsame ltac:(discriminate)) as (_ & Htotal & _).
  exact Htotal.
Defined.

(** ** What every cell shows *)

Section Cells.

Lemma byte_at_range (v : Z) (i : nat) : 0 <= JS.byte_at v i < 256.
Proof. rewrite byte_at_div. apply Z.mod_pos_bound. lia. Qed.

Lemma encodedByte_cases (v index offset : Z) :
  encodedByte v index offset = None
  \/ exists b, 0 <= b < 256 /\ encodedByte v index offset = Some (hex2 b).
Proof.
  unfold encodedByte.
  destruct ((offset <=? index) && (index <? offset + 8)); [right | now left].
  eexists. split; [apply byte_at_range | reflexivity].
Qed.

Lemma getMemoryValue_cases (st : State) (index : Z) :
  getMemoryValue st index = fillerByte index
  \/ exists b, 0 <= b < 256 /\ getMemoryValue st index = hex2 b.
Proof.
  unfold getMemoryValue.
  destruct (String.eqb (section_name (selectedSection st)) _); [| now left].
  destruct (focusedRegion st) as [f |]; [| now left].
  destruct (JS.includes "Account data size" f).
  { destruct (encodedByte_cases
                (or_32 (array_get_number (accountDataSizes st)
                          (accountIndexOf f)))
                index
                (getRegionOffset st
                   ("Account " ++ unitString (accountIndexOf f)
                    ++ ": Account data size")))
      as [-> | (b & Hb & ->)]; [now left | right; now exists b]. }
  destruct (String.eqb f "Instruction data size").
  { destruct (encodedByte_cases (instructionDataSize st) index
                (getRegionOffset st "Instruction data size"))
      as [-> | (b & Hb & ->)]; [now left | right; now exists b]. }
  destruct (String.eqb f "Number of accounts"); [| now left].
  destruct (encodedByte_cases (numberOfAccounts st) index
              (getRegionOffset st "Number of accounts"))
    as [-> | (b & Hb & ->)]; [now left | right; now exists b].
Qed.

End Cells.

(** X15. Every cell of the grid shows a byte: whatever the state, the
    value at a byte offset [index >= 0] is the two hexadecimal digits of a
    number below 256, and that number is what the cell's tooltip shows
    after "Offset: +".  For a cell that shows the filler the tooltip is
    therefore the offset modulo 256, not the offset. *)
Theorem cell_shows_byte (st : State) (row col : Z) :
  0 <= row -> 0 <= col ->
  exists b,
    0 <= b < 256
    /\ getMemoryValue st (cellByteOffset row col) = hex2 b
    /\ String.length (getMemoryValue st (cellByteOffset row col)) = 2%nat
    /\ cellTooltipValue st row col = Some b
    /\ (showsFiller st (cellByteOffset row col) ->
        b = cellByteOffset row col mod 256
        /\ (256 <= cellByteOffset row col ->
            cellTooltipValue st row col <> Some (cellByteOffset row col))).
Proof.
  intros Hrow Hcol.
  assert (Hoff : 0 <= cellByteOffset row col)
    by (unfold cellByteOffset, COLS; lia).
  assert (Hbyte : exists b, 0 <= b < 256
                    /\ getMemoryValue st (cellByteOffset row col) = hex2 b).
  { destruct (getMemoryValue_cases st (cellByteOffset row col))
      as [Hfill | Hb]; [| exact Hb].
    exists (cellByteOffset row col mod 256). split.
    - apply Z.mod_pos_bound. lia.
    - now rewrite Hfill, fillerByte_mod. }
  destruct Hbyte as (b & Hb & Hval). exists b.
  destruct (hex2_roundtrip b Hb) as [Hlen Hparse].
  assert (Htip : cellTooltipValue st row col = Some b)
    by (unfold cellTooltipValue; now rewrite Hval).
  split; [exact Hb | split; [exact Hval | split; [now rewrite Hval |]]].
  split; [exact Htip |].
  intro Hfill.
  assert (Hmod : b = cellByteOffset row col mod 256).
  { pose proof (showsFiller_value st _ Hfill) as Hf.
    rewrite fillerByte_mod, Hval in Hf by exact Hoff.
    apply (f_equal (fun s => JS.parseInt s 16)) in Hf.
    rewrite Hparse in Hf.
    destruct (hex2_roundtrip (cellByteOffset row col mod 256)
                ltac:(apply Z.mod_pos_bound; lia)) as [_ Hp].
    rewrite Hp in Hf. now injection Hf. }
  split; [exact Hmod |].
  intros Hbig. rewrite Htip. intro Heq. injection Heq as Heq. lia.
Qed.

(** Row 100, column 3 of the initial grid is byte 1603; it shows 43. *)
Lemma cell_shows_byte_witness :
  exists b, cellTooltipValue initialState 100 3 = Some b /\ 0 <= b < 256.
Proof.
  destruct (cell_shows_byte initialState 100 3 ltac:(lia) ltac:(lia))
    as (b & Hb & _ & _ & Htip & _).
  exists b. split; [exact Htip | exact Hb].
Defined.

(** X16. With nothing focused and the variable section selected (and no
    negative size), every byte of a region of the layout has the colour
    of the region, with the crosshatch mark exactly for the padding
    regions; with another section selected every cell is grey. *)
Theorem unfocused_colour (st : State) (r : Region) (byteOffset : Z) :
  sizesNonNegative st ->
  focusedRegion st = None ->
  In r (programInputRegions st) ->
  getRegionOffset st (name r) <= byteOffset
  < getRegionOffset st (name r) + size r ->
  (section_name (selectedSection st) = PROGRAM_INPUT ->
   getRegionColor st byteOffset
   = if isPadding r then (color r ++ " crosshatch")%string else color r)
  /\ (section_name (selectedSection st) <> PROGRAM_INPUT ->
      getRegionColor st byteOffset = "bg-gray-800").
Proof.
  intros Hpos Hf Hin Hspan. unfold getRegionColor, PROGRAM_INPUT. split.
  - intros ->. rewrite String.eqb_refl. cbn [negb].
    rewrite regionColorFrom_owner.
    rewrite (ownerFrom_of_member st r byteOffset Hpos Hin Hspan), Hf.
    reflexivity.
  - intro Hne. apply String.eqb_neq in Hne. now rewrite Hne.
Qed.

(** Byte 200 of the initial layout lies in the realloc padding of
    account 1. *)
Lemma unfocused_colour_witness :
  getRegionColor initialState 200 = "bg-gray-500 crosshatch".
Proof.
  destruct (unfocused_colour initialState
              (mkRegion "Account 1: Realloc padding" 10240 "bg-gray-500" None
                 true [])
              200 sizesNonNegative_initial eq_refl
              ltac:(vm_compute; do 7 right; left; reflexivity)
              ltac:(vm_compute; split; discriminate || reflexivity))
    as (H & _).
  exact (H eq_refl).
Defined.

(** With the data size field of account 1 focused, the data size field
    of account 2 of a layout with two accounts is shown at reduced
    emphasis. *)
Lemma focused_account_size_colour_witness :
  getRegionColor twoAccountsFocused 10456 = "bg-indigo-400 opacity-50".
Proof.
  exact (focused_account_size_colour twoAccountsFocused 10456 1 2
           "Account data size"
           (mkRegion "Account 2: Account data size" 8 "bg-indigo-400" None
              false [])
           10456 eq_refl eq_refl eq_refl eq_refl (or_intror eq_refl)).
Defined.


(** The handlers applied to the initial state. *)
Lemma sizesInSync_reachable_witness :
  sizesInSync (handleAccountDataSizeChange
                 (handleNumberOfAccountsChange initialState "3") "7" 2).
Proof.
  destruct (sizesInSync_reachable
              (handleNumberOfAccountsChange initialState "3") "7" 2)
    as (_ & _ & Hkeep & _).
  apply Hkeep.
  - destruct (sizesInSync_reachable initialState "3" 0) as (_ & H & _).
    exact H.
  - vm_compute. lia.
Defined.

(** ** The colours of the two viewers *)

Section VariantColours.

(** The two colour scans agree on layouts whose regions agree in size,
    padding flag and colour, and in the colour they take under the
    focus. *)
Lemma regionColorFrom_related (fm fs : option string) (lm ls : list Region) :
  Forall2 (fun rm rs =>
             size rm = size rs /\ isPadding rm = isPadding rs
             /\ color rm = color rs
             /\ forall o b,
                  match truthy fm, truthy fs with
                  | Some f, Some g =>
                      focusedColor f rm o b = Single.focusedColor g rs o b
                  | None, None => True
                  | _, _ => False
                  end) lm ls ->
  forall o b,
    regionColorFrom fm o lm b = Single.regionColorFrom fs o ls b.
Proof.
  intro HF.
  induction HF as [| rm rs lm ls (Hs & Hp & Hc & Hfc) _ IH]; intros o b;
    cbn [regionColorFrom Single.regionColorFrom]; [reflexivity |].
  rewrite Hs, IH.
  destruct ((o <=? b) && (b <? o + size rs)); [| reflexivity].
  specialize (Hfc o b).
  destruct (truthy fm) as [f |], (truthy fs) as [g |];
    [exact Hfc | destruct Hfc | destruct Hfc |].
  rewrite Hp, Hc. reflexivity.
Qed.

Lemma multiOf_colour (s : Single.State) (byteOffset : Z) :
  Single.numberOfAccounts s = 1 ->
  Single.accountDataSize s <> 0 ->
  Single.focusedRegion s = None
  \/ (exists f, Single.focusedRegion s = Some f
                /\ In f (map name (Single.programInputRegions s))
                /\ f <> "Account data size") ->
  getRegionColor (multiOf s) byteOffset = Single.getRegionColor s byteOffset.
Proof.
  destruct s as [sec foc a i n].
  cbn [Single.accountDataSize Single.numberOfAccounts Single.focusedRegion].
  intros -> Ha Hfoc.
  unfold getRegionColor, Single.getRegionColor.
  cbn [selectedSection multiOf Single.selectedSection].
  destruct (negb _); [reflexivity |].
  apply regionColorFrom_related.
  cbn [focusedRegion multiOf Single.focusedRegion].
  destruct Hfoc as [-> | (f & -> & Hin & Hne)].
  - destruct a; [now elim Ha | |]; vm_compute;
      repeat (apply Forall2_cons; [repeat split |]); apply Forall2_nil.
  - cbn in Hin.
    destruct a; [now elim Ha | |];
      repeat (destruct Hin as [<- | Hin];
              [try (now elim Hne); vm_compute;
               repeat (apply Forall2_cons; [repeat split |]);
               apply Forall2_nil |]);
      destruct Hin.
Qed.

End VariantColours.

(** X17. With the count 1 and an account data size that is not 0, the
    two viewers colour every cell alike when nothing is focused or when a
    region other than "Account data size" is focused.  With "Account data
    size" focused they differ on the eight bytes of that field: the
    single-account viewer, which compares names for equality, shows the
    field in its own colour, and the multi-account viewer, which tests
    for a substring, shows it at reduced emphasis. *)
Theorem viewers_colours (s : Single.State) (byteOffset j : Z) :
  Single.numberOfAccounts s = 1 ->
  Single.accountDataSize s <> 0 ->
  (Single.focusedRegion s = None
   \/ (exists f, Single.focusedRegion s = Some f
                 /\ In f (map name (Single.programInputRegions s))
                 /\ f <> "Account data size") ->
   getRegionColor (multiOf s) byteOffset = Single.getRegionColor s byteOffset)
  /\ (section_name (Single.selectedSection s) = PROGRAM_INPUT ->
      Single.focusedRegion s = Some "Account data size" ->
      0 <= j < 8 ->
      Single.getRegionOffset s "Account data size" = 88
      /\ Single.getRegionColor s (88 + j) = "bg-indigo-400"
      /\ getRegionColor (multiOf s) (88 + j) = "bg-indigo-400 opacity-50").
Proof.
  intros Hn Ha. split; [now apply multiOf_colour |].
  destruct s as [[sstart send sname] foc a i n].
  cbn [Single.accountDataSize Single.numberOfAccounts Single.focusedRegion
       Single.selectedSection section_name] in *.
  intros -> -> Hj. subst n.
  assert (Hcases : j = 0 \/ j = 1 \/ j = 2 \/ j = 3 \/ j = 4 \/ j = 5
                   \/ j = 6 \/ j = 7) by lia.
  destruct Hcases as [-> | [-> | [-> | [-> | [-> | [-> | [-> | ->]]]]]]];
    vm_compute; repeat split.
Qed.

(** The initial single-account state with the public keys focused: byte
    50 is a byte of the owner key in both viewers. *)
Lemma viewers_colours_witness :
  getRegionColor
    (multiOf (Single.handleAccordionChange Single.initialState "Public keys"))
    50
  = "bg-violet-400".
Proof.
  destruct (viewers_colours
              (Single.handleAccordionChange Single.initialState "Public keys")
              50 0 eq_refl ltac:(vm_compute; discriminate)) as (H & _).
  rewrite H; [reflexivity |].
  right. exists "Public keys".
  split; [reflexivity | split; [| discriminate]].
  vm_compute. do 3 right. left. reflexivity.
Defined.

(** ** The tooltip of the single-account viewer *)

(** X18. The offset in the tooltip of a cell of the single-account viewer
    is the byte offset of the cell only while the first section is
    selected.  For the other three sections it is the byte offset minus
    the distance of the section from the first, which is negative for
    every cell of the grid (for the variable section, as long as the
    layout is not larger than a section). *)
Theorem single_tooltip_offset (s : Single.State) (row col : Z) :
  In (Single.selectedSection s) MEMORY_SECTIONS ->
  0 <= row < Single.totalRows s ->
  0 <= col < COLS ->
  (section_name (Single.selectedSection s) = "Program code" ->
   Single.relativeOffset s (cellByteOffset row col) = cellByteOffset row col)
  /\ (section_name (Single.selectedSection s) <> "Program code" ->
      Single.totalNamedRegionSize s <= 0x100000000 ->
      Single.relativeOffset s (cellByteOffset row col)
      = cellByteOffset row col
        - (section_start (Single.selectedSection s) - 0x100000000)
      /\ Single.relativeOffset s (cellByteOffset row col) < 0).
Proof.
  intros Hsec Hrow Hcol.
  unfold Single.relativeOffset, cellByteOffset, COLS in *.
  unfold Single.totalRows, Single.maxRows, MIN_ROWS, BYTES_PER_ROW in Hrow.
  pose proof (ceil_div_bounds (Single.totalNamedRegionSize s) 16 ltac:(lia))
    as Hceil.
  cbn in Hsec. revert Hrow.
  destruct Hsec as [<- | [<- | [<- | [<- | []]]]];
    cbn [section_name section_start section_end String.eqb Ascii.eqb
         Bool.eqb]; intro Hrow;
    (split; [intro H; try discriminate H; lia |]);
    intros Hne Htotal; try (now elim Hne);
    (split; [reflexivity |]).
  - change (JS.ceil_div (0x2FFFFFFFF - 0x200000000 + 1) 16)
      with 268435456 in Hrow. lia.
  - change (JS.ceil_div (0x3FFFFFFFF - 0x300000000 + 1) 16)
      with 268435456 in Hrow. lia.
  - lia.
Qed.

(** The first cell of the initial grid: the variable section is selected
    and the tooltip reads -12884901888. *)
Lemma single_tooltip_offset_witness :
  Single.relativeOffset Single.initialState (cellByteOffset 0 0)
  = -12884901888.
Proof.
  destruct (single_tooltip_offset Single.initialState 0 0
              ltac:(vm_compute; do 3 right; left; reflexivity)
              ltac:(vm_compute; split; discriminate || reflexivity)
              ltac:(vm_compute; split; discriminate || reflexivity))
    as (_ & H).
  destruct (H ltac:(discriminate) ltac:(vm_compute; discriminate)) as (-> & _).
  reflexivity.
Defined.

(** ** The handlers of the two viewers *)

(** X19. The handlers of the single-account viewer act like those of the
    multi-account viewer on a state with one size entry: the two data
    size handlers commute with the translation of the state, the count
    handlers store the same count, and opening a legend item that is not
    focused focuses it in both, while selecting the focused item again
    clears the focus.  The count changes the layout of the multi-account
    viewer only: the single-account layout always has its twelve
    regions. *)
Theorem viewers_handlers (s : Single.State) (targetValue value : string) :
  multiOf (Single.handleAccountDataSizeChange s targetValue)
  = handleAccountDataSizeChange (multiOf s) targetValue 0
  /\ multiOf (Single.handleInstructionDataSizeChange s targetValue)
     = handleInstructionDataSizeChange (multiOf s) targetValue
  /\ numberOfAccounts (multiOf (Single.handleNumberOfAccountsChange s targetValue))
     = numberOfAccounts (handleNumberOfAccountsChange (multiOf s) targetValue)
  /\ Single.programInputRegions (Single.handleNumberOfAccountsChange s targetValue)
     = Single.programInputRegions s
  /\ List.length (Single.programInputRegions s) = 12%nat
  /\ (Single.focusedRegion s <> Some value ->
      multiOf (Single.handleAccordionChange s value)
      = handleAccordionChange (multiOf s) (multiName value))
  /\ (Single.focusedRegion s = Some value ->
      Single.focusedRegion (Single.handleAccordionChange s value) = None).
Proof.
  destruct s as [sec foc a i n].
  split; [reflexivity | split; [reflexivity | split; [reflexivity |]]].
  split; [reflexivity | split; [reflexivity | split]].
  - cbn [Single.focusedRegion]. intro Hne.
    unfold multiOf, Single.handleAccordionChange, handleAccordionChange.
    cbn [Single.selectedSection Single.focusedRegion Single.accountDataSize
         Single.instructionDataSize Single.numberOfAccounts
         selectedSection focusedRegion accountDataSizes instructionDataSize
         numberOfAccounts selectedView].
    f_equal.
    assert (Hopen : option_map multiName (truthy (Some value))
                    = truthy (Some (multiName value))).
    { cbn [truthy]. destruct value as [| c rest]; [reflexivity |].
      cbn [String.eqb option_map]. unfold multiName.
      destruct (existsb _ baseNames); [| reflexivity].
      destruct (accountName_head 1 (String c rest)) as [tail ->].
      reflexivity. }
    destruct foc as [f |]; [| exact Hopen].
    destruct (String.eqb_spec value f) as [-> | _]; [now elim Hne |].
    exact Hopen.
  - cbn [Single.focusedRegion Single.handleAccordionChange]. intros ->.
    now rewrite String.eqb_refl.
Qed.
